(** * Semantic classifiers of [src/language-js/utils.js]

    A shallow embedding of the node classifiers of the JavaScript printer:
    the naked-left-side resolvers, the literal-likeness and simple-call-argument
    judgments, the test-call recognizer, the simple-template-literal detector,
    [isLastStatement] and the blank-line scanner.

    The source is duck-typed JavaScript over parser-produced trees, so the
    embedding works over a small universe of JavaScript values and makes the
    two effects of the source explicit: a property read on [undefined]/[null]
    (or a call of something that is not a function) raises a [TypeError], and
    [getLeftSidePathName] raises its own [Error]. *)

From Stdlib Require Import ZArith List String Ascii Bool Lia.
From Stdlib Require Import Numbers.DecimalString.
Import ListNotations.

Open Scope string_scope.
Open Scope Z_scope.

(** ** JavaScript values *)

Module JS.

(** Objects and arrays are reference values: [===] compares their identity,
    not their contents. Each carries the address it was allocated at. *)
Definition addr := nat.
Bind Scope nat_scope with addr.

(** Numbers are the integers (array lengths, indices, integral literal
    values): no classifier of this file does arithmetic on [node.value]. *)
#[local] Unset Elimination Schemes.
Inductive value : Type :=
| VUndefined
| VNull
| VBool (b : bool)
| VNum (n : Z)
| VStr (s : string)
| VArr (a : addr) (elems : list value)
| VObj (a : addr) (props : list (string * value)).
#[local] Set Elimination Schemes.

Inductive error : Type :=
| TypeError                 (* raised by the language itself *)
| Error (msg : string)      (* [throw new Error(msg)] *)
| Unmodelled                (* a coercion this embedding does not cover *)
| OutOfFuel.                (* the recursion bound of the model was too small *)

Inductive outcome (A : Type) : Type :=
| Ret (a : A)
| Throw (e : error).
Arguments Ret {A} a.
Arguments Throw {A} e.

Definition bind {A B} (m : outcome A) (k : A -> outcome B) : outcome B :=
  match m with
  | Ret a => k a
  | Throw e => Throw e
  end.

Declare Scope js_scope.
Delimit Scope js_scope with js.
Notation "x <- m ;; k" := (bind m (fun x => k))
  (at level 61, m at next level, right associativity) : js_scope.
Open Scope js_scope.

(** [a && b] and [a || b] on computations that yield booleans: the right
    operand is evaluated only when the left one does not decide. *)
Definition andM (a b : outcome bool) : outcome bool :=
  x <- a ;; if x then b else Ret false.
Definition orM (a b : outcome bool) : outcome bool :=
  x <- a ;; if x then Ret true else b.
Infix "&&&" := andM (at level 40, left associativity) : js_scope.
Infix "|||" := orM (at level 50, left associativity) : js_scope.

(** ToBoolean *)
Definition truthy (v : value) : bool :=
  match v with
  | VUndefined | VNull => false
  | VBool b => b
  | VNum n => negb (n =? 0)
  | VStr s => negb (s =? "")%string
  | VArr _ _ | VObj _ _ => true
  end.

(** [v === w] *)
Definition strict_eq (v w : value) : bool :=
  match v, w with
  | VUndefined, VUndefined => true
  | VNull, VNull => true
  | VBool a, VBool b => Bool.eqb a b
  | VNum a, VNum b => a =? b
  | VStr a, VStr b => (a =? b)%string
  | VArr a _, VArr b _ => Nat.eqb a b
  | VObj a _, VObj b _ => Nat.eqb a b
  | _, _ => false
  end.

(** [v === "s"] *)
Definition is_str (v : value) (s : string) : bool := strict_eq v (VStr s).

Definition is_one_of (v : value) (ss : list string) : bool :=
  existsb (is_str v) ss.

(** [typeof v] *)
Definition typeof (v : value) : string :=
  match v with
  | VUndefined => "undefined"
  | VBool _ => "boolean"
  | VNum _ => "number"
  | VStr _ => "string"
  | VNull | VArr _ _ | VObj _ _ => "object"
  end.

(** Own property of a plain object; a missing property reads as [undefined]. *)
Fixpoint assoc (k : string) (ps : list (string * value)) : value :=
  match ps with
  | [] => VUndefined
  | (k', v) :: ps' => if (k =? k')%string then v else assoc k ps'
  end.

(** [v.k] for the property names the classifiers read ([type], [name],
    [callee], [length], ...). None of them but [length] is defined on a
    built-in prototype, so on primitives and arrays they read as [undefined]. *)
Definition get (v : value) (k : string) : outcome value :=
  match v with
  | VUndefined | VNull => Throw TypeError
  | VObj _ ps => Ret (assoc k ps)
  | VArr _ xs =>
      Ret (if (k =? "length")%string then VNum (Z.of_nat (List.length xs))
           else VUndefined)
  | VStr s =>
      Ret (if (k =? "length")%string then VNum (Z.of_nat (String.length s))
           else VUndefined)
  | VBool _ | VNum _ => Ret VUndefined
  end.

(** [v == null] *)
Definition nullish (v : value) : bool :=
  match v with
  | VUndefined | VNull => true
  | _ => false
  end.

(** What [v.k] reads when it does not throw. *)
Definition field (v : value) (k : string) : value :=
  match get v k with
  | Ret x => x
  | Throw _ => VUndefined
  end.

Definition index_key (i : nat) : string :=
  NilZero.string_of_uint (Nat.to_uint i).

(** [v[i]] for a literal index [i] *)
Definition index (v : value) (i : nat) : outcome value :=
  match v with
  | VUndefined | VNull => Throw TypeError
  | VArr _ xs => Ret (nth i xs VUndefined)
  | VStr s =>
      Ret (match String.get i s with
           | Some c => VStr (String c "")
           | None => VUndefined
           end)
  | VObj _ ps => Ret (assoc (index_key i) ps)
  | VBool _ | VNum _ => Ret VUndefined
  end.

(** [xs.every(f)] on the elements of an array: stops at the first element
    on which [f] is false (or throws). *)
Fixpoint everyM (f : value -> outcome bool) (xs : list value) : outcome bool :=
  match xs with
  | [] => Ret true
  | x :: xs' => b <- f x ;; if b then everyM f xs' else Ret false
  end.

(** [v.every(f)]: only arrays have the method; the value universe has no
    functions, so on anything else the call is a [TypeError]. *)
Definition every (v : value) (f : value -> outcome bool) : outcome bool :=
  match v with
  | VArr _ xs => everyM f xs
  | _ => Throw TypeError
  end.

Fixpoint filterM (f : value -> outcome bool) (xs : list value)
  : outcome (list value) :=
  match xs with
  | [] => Ret []
  | x :: xs' =>
      b <- f x ;;
      ys <- filterM f xs' ;;
      Ret (if b then x :: ys else ys)
  end.

(** [v.filter(f)]; the fresh array it returns is kept as a list. *)
Definition filter (v : value) (f : value -> outcome bool)
  : outcome (list value) :=
  match v with
  | VArr _ xs => filterM f xs
  | _ => Throw TypeError
  end.

(** ToNumber on the primitives that have an integral image; [None] is NaN.
    Strings and reference values are not covered. *)
Definition to_number (v : value) : outcome (option Z) :=
  match v with
  | VUndefined => Ret None
  | VNull => Ret (Some 0)
  | VBool b => Ret (Some (if b then 1 else 0))
  | VNum n => Ret (Some n)
  | VStr _ | VArr _ _ | VObj _ _ => Throw Unmodelled
  end.

(** [v > k] and [v <= k] against a numeric literal [k] *)
Definition gt (v : value) (k : Z) : outcome bool :=
  n <- to_number v ;;
  Ret (match n with Some z => k <? z | None => false end).

Definition le (v : value) (k : Z) : outcome bool :=
  n <- to_number v ;;
  Ret (match n with Some z => z <=? k | None => false end).

(** ToString of the argument of [RegExp.prototype.test]; arrays (whose
    string is the join of their elements) are not covered. *)
Definition to_string (v : value) : outcome string :=
  match v with
  | VUndefined => Ret "undefined"
  | VNull => Ret "null"
  | VBool b => Ret (if b then "true" else "false")
  | VNum n => Ret (NilZero.string_of_int (Z.to_int n))
  | VStr s => Ret s
  | VObj _ _ => Ret "[object Object]"
  | VArr _ _ => Throw Unmodelled
  end.

(** [re.test(v)] for a regular expression given by its matcher *)
Definition regexp_test (re : string -> bool) (v : value) : outcome bool :=
  s <- to_string v ;; Ret (re s).

End JS.
Import JS.

(** ** Paths *)

(** A segment of a structural path: a field name or an array index. *)
Inductive segment : Type :=
| Name (s : string)
| Idx (i : nat).

(** Modelled from the spec: the ancestor stack of [common/fast-path.js],
    which is not part of this file. A path is the stack of frames from the
    focus node (first) to the root (last); each frame records the node and
    the field name or index by which it is attached to its parent. *)
Record frame : Type := { frame_node : value; frame_name : segment }.
Definition Path : Type := list frame.

Definition getValue (path : Path) : value :=
  match path with
  | f :: _ => frame_node f
  | [] => VNull
  end.

Definition getParentNode (path : Path) : value :=
  match path with
  | _ :: f :: _ => frame_node f
  | _ => VNull
  end.

(** Reading a structural path off a node, one segment at a time. *)
Fixpoint follow (node : value) (segs : list segment) : outcome value :=
  match segs with
  | [] => Ret node
  | Name k :: segs' => child <- get node k ;; follow child segs'
  | Idx i :: segs' => child <- index node i ;; follow child segs'
  end.

(** ** Naked-left-side resolver *)

Definition hasNakedLeftSide (node : value) : outcome bool :=
  type <- get node "type" ;;
  prefix <- get node "prefix" ;;
  Ret (is_one_of type
         ["AssignmentExpression"; "BinaryExpression"; "LogicalExpression";
          "NGPipeExpression"; "ConditionalExpression"; "CallExpression";
          "OptionalCallExpression"; "MemberExpression";
          "OptionalMemberExpression"; "SequenceExpression";
          "TaggedTemplateExpression"; "BindExpression"]
       || (is_str type "UpdateExpression" && negb (truthy prefix))
       || is_one_of type ["TSAsExpression"; "TSNonNullExpression"]).

(** [node.k || node.k1 || ... || node.kn]: the first truthy field, or the
    value of the last one. *)
Fixpoint first_truthy (node : value) (k : string) (ks : list string)
  : outcome value :=
  v <- get node k ;;
  match ks with
  | [] => Ret v
  | k' :: ks' => if truthy v then Ret v else first_truthy node k' ks'
  end.

Definition getLeftSide (node : value) : outcome value :=
  expressions <- get node "expressions" ;;
  if truthy expressions then index expressions 0
  else first_truthy node "left"
         ["test"; "callee"; "object"; "tag"; "argument"; "expression"].

(** The fields either resolver looks at. *)
Definition leftSideFields : list string :=
  ["expressions"; "left"; "test"; "callee"; "object"; "tag"; "argument";
   "expression"].

Definition no_left_side : error := Error "Unexpected node has no left side".

(** The [if (node.k) return [k]] cascade. *)
Fixpoint first_present (node : value) (ks : list string)
  : outcome (list segment) :=
  match ks with
  | [] => Throw no_left_side
  | k :: ks' =>
      v <- get node k ;;
      if truthy v then Ret [Name k] else first_present node ks'
  end.

Definition getLeftSidePathName (path : Path) (node : value)
  : outcome (list segment) :=
  expressions <- get node "expressions" ;;
  if truthy expressions then Ret [Name "expressions"; Idx 0]
  else first_present node
         ["left"; "test"; "object"; "callee"; "tag"; "argument"; "expression"].

(** ** Recursion bounds *)

(** The number of objects and arrays in a value. The classifiers that walk
    a tree without a depth budget of their own are run with this bound. *)
Fixpoint size (v : value) : nat :=
  match v with
  | VArr _ xs => S (list_sum (map size xs))
  | VObj _ ps => S (list_sum (map (fun p => size (snd p)) ps))
  | _ => O
  end.

(** ** Literals and literal-like values *)

Definition isLiteral (node : value) : outcome bool :=
  type <- get node "type" ;;
  Ret (is_one_of type
         ["BooleanLiteral"; "DirectiveLiteral"; "Literal"; "NullLiteral";
          "NumericLiteral"; "BigIntLiteral"; "RegExpLiteral"; "StringLiteral";
          "TemplateLiteral"; "TSTypeLiteral"; "JSXText"]).

(** [/^[A-Z_]+$/] *)
Definition is_upper_or_underscore (c : ascii) : bool :=
  let n := nat_of_ascii c in
  ((65 <=? n)%nat && (n <=? 90)%nat) || (n =? 95)%nat.

Definition screamingSnakeRe (s : string) : bool :=
  negb (s =? "")%string && forallb is_upper_or_underscore (list_ascii_of_string s).

(** The body of [isLiteralLikeValue], over its recursive call [self]. *)
Definition isLiteralLikeValue_body (self : value -> outcome bool)
  (node : value) : outcome bool :=
  isLiteral node
  ||| (type <- get node "type" ;;
       Ret (is_str type "Identifier")
       &&& (name <- get node "name" ;; regexp_test screamingSnakeRe name))
  ||| (type <- get node "type" ;;
       Ret (is_str type "ArrayExpression")
       &&& (elements <- get node "elements" ;;
            every elements (fun element =>
              Ret (negb (strict_eq element VNull)) &&& self element)))
  ||| (type <- get node "type" ;;
       Ret (is_str type "ObjectExpression")
       &&& (properties <- get node "properties" ;;
            every properties (fun property =>
              computed <- get property "computed" ;;
              if truthy computed then Ret false
              else
                value <- get property "value" ;;
                if truthy value then self value else Ret false))).

Fixpoint isLiteralLikeValue_fuel (fuel : nat) (node : value) : outcome bool :=
  match fuel with
  | O => Throw OutOfFuel
  | S fuel' => isLiteralLikeValue_body (isLiteralLikeValue_fuel fuel') node
  end.

(** Every recursive call is on a proper part of [node], so [size node]
    nested calls are all there are. *)
Definition isLiteralLikeValue (node : value) : outcome bool :=
  isLiteralLikeValue_fuel (S (size node)) node.

Definition isNumericLiteral (node : value) : outcome bool :=
  type <- get node "type" ;;
  value <- get node "value" ;;
  Ret (is_str type "NumericLiteral"
       || (is_str type "Literal" && (typeof value =? "number")%string)).

Definition isStringLiteral (node : value) : outcome bool :=
  type <- get node "type" ;;
  value <- get node "value" ;;
  Ret (is_str type "StringLiteral"
       || (is_str type "Literal" && (typeof value =? "string")%string)).

Definition isFunctionOrArrowExpression (node : value) : outcome bool :=
  type <- get node "type" ;;
  Ret (is_str type "FunctionExpression"
       || is_str type "ArrowFunctionExpression").

Definition isFunctionOrArrowExpressionWithBody (node : value) : outcome bool :=
  type <- get node "type" ;;
  if is_str type "FunctionExpression" then Ret true
  else if is_str type "ArrowFunctionExpression" then
    body <- get node "body" ;;
    btype <- get body "type" ;;
    Ret (is_str btype "BlockStatement")
  else Ret false.

Definition isTemplateLiteral (node : value) : outcome bool :=
  type <- get node "type" ;;
  Ret (is_str type "TemplateLiteral").

(** ** Testing-framework call recognizer *)

Definition isAngularTestWrapper (node : value) : outcome bool :=
  type <- get node "type" ;;
  if is_str type "CallExpression" || is_str type "OptionalCallExpression" then
    callee <- get node "callee" ;;
    ctype <- get callee "type" ;;
    if is_str ctype "Identifier" then
      name <- get callee "name" ;;
      Ret (is_str name "async" || is_str name "inject"
           || is_str name "fakeAsync")
    else Ret false
  else Ret false.

(** [/^(skip|[fx]?(it|describe|test))$/] *)
Definition unitTestRe (s : string) : bool :=
  let trigger t := ((t =? "it") || (t =? "describe") || (t =? "test"))%string in
  (s =? "skip")%string
  || trigger s
  || match s with
     | String c rest => ((c =? "f") || (c =? "x"))%char && trigger rest
     | EmptyString => false
     end.

(** [/^(before|after)(Each|All)$/] *)
Definition unitTestSetUpRe (s : string) : bool :=
  existsb (fun a => existsb (fun b => (s =? a ++ b)%string) ["Each"; "All"])
          ["before"; "after"].

Definition isSkipOrOnlyBlock (node : value) : outcome bool :=
  callee <- get node "callee" ;;
  ctype <- get callee "type" ;;
  if is_str ctype "MemberExpression"
     || is_str ctype "OptionalMemberExpression" then
    object <- get callee "object" ;;
    otype <- get object "type" ;;
    if is_str otype "Identifier" then
      property <- get callee "property" ;;
      ptype <- get property "type" ;;
      if is_str ptype "Identifier" then
        oname <- get object "name" ;;
        regexp_test unitTestRe oname
        &&& (pname <- get property "name" ;;
             Ret (is_str pname "only" || is_str pname "skip"))
      else Ret false
    else Ret false
  else Ret false.

Definition isUnitTestSetUp (n : value) : outcome bool :=
  callee <- get n "callee" ;;
  ctype <- get callee "type" ;;
  if is_str ctype "Identifier" then
    name <- get callee "name" ;;
    regexp_test unitTestSetUpRe name
    &&& (arguments <- get n "arguments" ;;
         len <- get arguments "length" ;;
         Ret (strict_eq len (VNum 1)))
  else Ret false.

(** The body of [isTestCall], over the recursive call [isTestCall(parent)]. *)
Definition isTestCall_body (self : value -> outcome bool) (n parent : value)
  : outcome bool :=
  type <- get n "type" ;;
  if negb (is_str type "CallExpression") then Ret false
  else
    arguments <- get n "arguments" ;;
    len <- get arguments "length" ;;
    if strict_eq len (VNum 1) then
      wrapped <- (isAngularTestWrapper n
                  &&& Ret (truthy parent) &&& self parent) ;;
      if wrapped then
        arg0 <- index arguments 0 ;; isFunctionOrArrowExpression arg0
      else
        setup <- isUnitTestSetUp n ;;
        if setup then
          arg0 <- index arguments 0 ;; isAngularTestWrapper arg0
        else Ret false
    else if strict_eq len (VNum 2) || strict_eq len (VNum 3) then
      callee <- get n "callee" ;;
      ctype <- get callee "type" ;;
      trigger <- ((Ret (is_str ctype "Identifier")
                   &&& (name <- get callee "name" ;;
                        regexp_test unitTestRe name))
                  ||| isSkipOrOnlyBlock n) ;;
      named <- (Ret trigger
                &&& (arg0 <- index arguments 0 ;;
                     isTemplateLiteral arg0 ||| isStringLiteral arg0)) ;;
      if named then
        arg2 <- index arguments 2 ;;
        notNumeric <- (Ret (truthy arg2)
                       &&& (numeric <- isNumericLiteral arg2 ;;
                            Ret (negb numeric))) ;;
        if notNumeric then Ret false
        else
          arg1 <- index arguments 1 ;;
          (if strict_eq len (VNum 2) then isFunctionOrArrowExpression arg1
           else isFunctionOrArrowExpressionWithBody arg1
                &&& (params <- get arg1 "params" ;;
                     plen <- get params "length" ;;
                     le plen 1))
          ||| isAngularTestWrapper arg1
      else Ret false
    else Ret false.

(** [isTestCall(parent)] is called without a second argument: in that call
    [parent] is [undefined] and the guard [parent && isTestCall(parent)]
    stops before recursing again. *)
Definition isTestCall_of_parent (n : value) : outcome bool :=
  isTestCall_body (fun _ => Throw OutOfFuel) n VUndefined.

Definition isTestCall (n parent : value) : outcome bool :=
  isTestCall_body isTestCall_of_parent n parent.

(** ** Simple template literals *)

(** The [while] loop of [isSimpleTemplateLiteral] over [head], followed by
    the test on the root it stops at. *)
Fixpoint memberChainLoop (fuel : nat) (head : value) {struct fuel}
  : outcome bool :=
  type <- get head "type" ;;
  if is_str type "MemberExpression"
     || is_str type "OptionalMemberExpression" then
    match fuel with
    | O => Throw OutOfFuel
    | S fuel' =>
        property <- get head "property" ;;
        ptype <- get property "type" ;;
        if negb (is_str ptype "Identifier")
           && negb (is_str ptype "Literal")
           && negb (is_str ptype "StringLiteral")
           && negb (is_str ptype "NumericLiteral") then Ret false
        else
          object <- get head "object" ;;
          comments <- get object "comments" ;;
          if truthy comments then Ret false
          else memberChainLoop fuel' object
    end
  else Ret (is_str type "Identifier" || is_str type "ThisExpression").

Definition isSimpleTemplateLiteral (node : value) : outcome bool :=
  expressions <- get node "expressions" ;;
  len <- get expressions "length" ;;
  if strict_eq len (VNum 0) then Ret false
  else
    every expressions (fun expr =>
      comments <- get expr "comments" ;;
      if truthy comments then Ret false
      else
        type <- get expr "type" ;;
        if is_str type "Identifier" || is_str type "ThisExpression" then
          Ret true
        else if is_str type "MemberExpression"
                || is_str type "OptionalMemberExpression" then
          memberChainLoop (size expr) expr
        else Ret false).

(** ** Statement predicates *)

(** [parent.body || parent.consequent] *)
Definition statementContainer (parent : value) : outcome value :=
  stmts <- get parent "body" ;;
  if truthy stmts then Ret stmts else get parent "consequent".

Definition isLastStatement (path : Path) : outcome bool :=
  let parent := getParentNode path in
  if negb (truthy parent) then Ret true
  else
    let node := getValue path in
    container <- statementContainer parent ;;
    body <- filter container (fun stmt =>
              type <- get stmt "type" ;;
              Ret (negb (is_str type "EmptyStatement"))) ;;
    Ret (strict_eq (last body VUndefined) node).

(** ** Simple call arguments *)

(** The body of [isSimpleCallArgument] below its depth test, over the two
    local closures [plusOne] and [plusTwo]. *)
Definition isSimpleCallArgument_body (plusOne plusTwo : value -> outcome bool)
  (node : value) : outcome bool :=
  type <- get node "type" ;;
  regexpPattern <-
    (estree <-
       (if is_str type "Literal" then
          regex <- get node "regex" ;;
          if truthy regex then get regex "pattern" else Ret regex
        else Ret (VBool false)) ;;
     if truthy estree then Ret estree
     else if is_str type "RegExpLiteral" then get node "pattern"
     else Ret (VBool false)) ;;
  tooLong <-
    (Ret (truthy regexpPattern)
     &&& (len <- get regexpPattern "length" ;; gt len 5)) ;;
  if tooLong then Ret false
  else if is_one_of type
            ["Literal"; "BigIntLiteral"; "BooleanLiteral"; "NullLiteral";
             "NumericLiteral"; "RegExpLiteral"; "StringLiteral";
             "Identifier"; "ThisExpression"; "Super"; "PrivateName";
             "ArgumentPlaceholder"; "Import"] then Ret true
  else if is_str type "TemplateLiteral" then
    expressions <- get node "expressions" ;;
    every expressions plusTwo
  else if is_str type "ObjectExpression" then
    properties <- get node "properties" ;;
    every properties (fun p =>
      computed <- get p "computed" ;;
      if truthy computed then Ret false
      else
        shorthand <- get p "shorthand" ;;
        if truthy shorthand then Ret true
        else
          value <- get p "value" ;;
          if truthy value then plusTwo value else Ret false)
  else if is_str type "ArrayExpression" then
    elements <- get node "elements" ;;
    every elements (fun x =>
      if strict_eq x VNull then Ret true else plusTwo x)
  else if is_str type "CallExpression"
          || is_str type "OptionalCallExpression"
          || is_str type "NewExpression" then
    callee <- get node "callee" ;;
    plusOne callee
    &&& (arguments <- get node "arguments" ;; every arguments plusTwo)
  else if is_str type "MemberExpression"
          || is_str type "OptionalMemberExpression" then
    object <- get node "object" ;;
    plusOne object
    &&& (property <- get node "property" ;; plusOne property)
  else
    operator <- get node "operator" ;;
    if is_str type "UnaryExpression"
       && (is_str operator "!" || is_str operator "-") then
      argument <- get node "argument" ;; plusOne argument
    else if is_str type "TSNonNullExpression" then
      expression <- get node "expression" ;; plusOne expression
    else Ret false.

Fixpoint isSimpleCallArgument_fuel (fuel : nat) (node : value) (depth : Z)
  {struct fuel} : outcome bool :=
  if depth >=? 3 then Ret false
  else
    match fuel with
    | O => Throw OutOfFuel
    | S fuel' =>
        isSimpleCallArgument_body
          (fun node => isSimpleCallArgument_fuel fuel' node (depth + 1))
          (fun node => isSimpleCallArgument_fuel fuel' node (depth + 2))
          node
    end.

(** Every recursive call raises [depth] by at least one and the function
    returns at [depth >= 3], so [3 - depth] nested calls are all there are. *)
Definition isSimpleCallArgument (node : value) (depth : Z) : outcome bool :=
  isSimpleCallArgument_fuel (Z.to_nat (3 - depth)) node depth.

(** ** Blank lines in a block *)

Definition newline : ascii := "010"%char.

(** The [for] loop of [hasTopLevelBlankLines] from position [i] on, with the
    loop state [curlyState] and [newlineFound]. *)
Fixpoint scanBlankLines (source : string) (curlyState : Z)
  (newlineFound : bool) : bool :=
  match source with
  | EmptyString => false
  | String char rest =>
      if (char =? "{")%char then scanBlankLines rest (curlyState + 1) newlineFound
      else if (char =? "}")%char then
        scanBlankLines rest (curlyState - 1) newlineFound
      else if curlyState =? 1 then
        if (char =? newline)%char && newlineFound then true
        else if (char =? newline)%char then scanBlankLines rest curlyState true
        else if negb (char =? " ")%char then
          scanBlankLines rest curlyState false
        else scanBlankLines rest curlyState newlineFound
      else scanBlankLines rest curlyState newlineFound
  end.

Definition hasTopLevelBlankLines (source : string) : bool :=
  scanBlankLines source 0 false.

(** [s.slice(start, end)] on integral positions *)
Definition slice (s : string) (start stop : Z) : string :=
  let len := Z.of_nat (String.length s) in
  let clamp i := if i <? 0 then Z.max (len + i) 0 else Z.min i len in
  let from := clamp start in
  let to := clamp stop in
  substring (Z.to_nat from) (Z.to_nat (Z.max (to - from) 0)) s.

(** The part of the options the scanner reads: the original text and the
    two position functions of the parser. *)
Record Options : Type := {
  originalText : string;
  locStart : value -> Z;
  locEnd : value -> Z
}.

Definition hasBlankLinesInBlock (node : value) (options : Options) : bool :=
  let originalBlockText :=
    slice (originalText options) (locStart options node) (locEnd options node) in
  hasTopLevelBlankLines originalBlockText.

(** ** Sample trees *)

Definition node (a : addr) (type : string) (props : list (string * value))
  : value :=
  VObj a (("type", VStr type) :: props).

Definition identifier (a : addr) (name : string) : value :=
  node a "Identifier" [("name", VStr name)].

Definition stringLiteral (a : addr) (s : string) : value :=
  node a "StringLiteral" [("value", VStr s)].

Definition numericLiteral (a : addr) (n : Z) : value :=
  node a "NumericLiteral" [("value", VNum n)].

Definition callExpression (a : addr) (callee : value) (args : list value)
  : value :=
  node a "CallExpression" [("callee", callee); ("arguments", VArr (S a) args)].

Definition memberExpression (a : addr) (object property : value) : value :=
  node a "MemberExpression"
    [("object", object); ("property", property); ("computed", VBool false)].

Definition blockStatement (a : addr) (body : list value) : value :=
  node a "BlockStatement" [("body", VArr (S a) body)].

Definition arrowFunction (a : addr) (params : list value) (body : value)
  : value :=
  node a "ArrowFunctionExpression"
    [("params", VArr (S a) params); ("body", body)].


Definition arrayExpression (a : addr) (elements : list value) : value :=
  node a "ArrayExpression" [("elements", VArr (S a) elements)].

Definition objectExpression (a : addr) (properties : list value) : value :=
  node a "ObjectExpression" [("properties", VArr (S a) properties)].

Definition property (a : addr) (computed : bool) (key val : value) : value :=
  node a "Property"
    [("key", key); ("value", val); ("computed", VBool computed);
     ("shorthand", VBool false)].

Definition templateLiteral (a : addr) (expressions : list value) : value :=
  node a "TemplateLiteral"
    [("expressions", VArr (S a) expressions); ("quasis", VArr (S (S a)) [])].

Definition lines (ls : list string) : string :=
  String.concat (String newline "") ls.

(** The bind expression [a::b]. *)
Definition bindExpression : value :=
  node 1 "BindExpression"
    [("object", identifier 2 "a"); ("callee", identifier 3 "b")].

(** A call expression that lost its [callee] and [arguments]. *)
Definition bareCall : value := node 1 "CallExpression" [].

(** The literal kinds [isSimpleCallArgument] accepts outright. *)
Definition simpleLiteralKinds : list string :=
  ["Literal"; "BigIntLiteral"; "BooleanLiteral"; "NullLiteral";
   "NumericLiteral"; "RegExpLiteral"; "StringLiteral"].

(** The value [isSimpleCallArgument] computes for [regexpPattern]:
    [node.regex.pattern] on a [Literal], [node.pattern] on a
    [RegExpLiteral]. *)
Definition regexpPattern (n : value) : value :=
  let type := field n "type" in
  let estree :=
    if is_str type "Literal" then
      if truthy (field n "regex") then field (field n "regex") "pattern"
      else field n "regex"
    else VBool false in
  if truthy estree then estree
  else if is_str type "RegExpLiteral" then field n "pattern"
  else VBool false.

(** A regular-expression literal of ESTree, [/abcdef/]. *)
Definition estreeRegExp : value :=
  node 1 "Literal"
    [("regex", VObj 2 [("pattern", VStr "abcdef"); ("flags", VStr "")]);
     ("raw", VStr "/abcdef/")].

(** [foo(a, b)] *)
Definition fooAB : value :=
  callExpression 1 (identifier 3 "foo") [identifier 4 "a"; identifier 5 "b"].

(** [foo(bar(baz(qux)))] *)
Definition fooBarBazQux : value :=
  callExpression 1 (identifier 3 "foo")
    [callExpression 4 (identifier 6 "bar")
       [callExpression 7 (identifier 9 "baz") [identifier 10 "qux"]]].

(** ** The shape of a test call *)

Definition is_node (v : value) : bool :=
  match v with VObj _ _ => true | _ => false end.

Definition is_array (v : value) : bool :=
  match v with VArr _ _ => true | _ => false end.

Definition is_string (v : value) : bool :=
  match v with VStr _ => true | _ => false end.

Definition elements_of (v : value) : list value :=
  match v with VArr _ xs => xs | _ => [] end.

Definition kind (v : value) : value := field v "type".

Definition kind_in (v : value) (kinds : list string) : bool :=
  is_one_of (kind v) kinds.


(** An identifier has a string for a name. *)
Definition named (v : value) : bool :=
  negb (kind_in v ["Identifier"]) || is_string (field v "name").


(** What a parser guarantees about an argument of a call that may be a
    callback or a wrapped callback. *)
Definition wellFormedCallback (arg : value) : bool :=
  is_node arg
  && (negb (kind_in arg ["ArrowFunctionExpression"])
      || is_node (field arg "body"))
  && (negb (kind_in arg ["FunctionExpression"; "ArrowFunctionExpression"])
      || is_array (field arg "params"))
  && (negb (kind_in arg ["CallExpression"; "OptionalCallExpression"])
      || is_node (field arg "callee")).





Definition asyncWrapper (arg : value) : bool :=
  kind_in arg ["CallExpression"; "OptionalCallExpression"]
  && kind_in (field arg "callee") ["Identifier"]
  && is_one_of (field (field arg "callee") "name")
       ["async"; "inject"; "fakeAsync"].




(** [() => {}] *)
Definition emptyArrow (a : addr) : value :=
  arrowFunction a [] (blockStatement (a + 2) []).







(** ** Blank lines, as the specification words them *)

Fixpoint skipSpaces (s : string) : string :=
  match s with
  | String c rest => if (c =? " ")%char then skipSpaces rest else s
  | EmptyString => s
  end.

(** Two newline characters at nesting depth 1 with only space characters
    between them, somewhere in [s]; [depth] is the nesting depth at which
    [s] starts. *)
Fixpoint blankLineAtDepthOne (s : string) (depth : Z) : bool :=
  match s with
  | EmptyString => false
  | String c rest =>
      ((c =? newline)%char && (depth =? 1)
       && match skipSpaces rest with
          | String c' _ => (c' =? newline)%char
          | EmptyString => false
          end)
      || blankLineAtDepthOne rest
           (if (c =? "{")%char then depth + 1
            else if (c =? "}")%char then depth - 1
            else depth)
  end.

Definition hasBlankLineAtTopLevel (source : string) : bool :=
  blankLineAtDepthOne source 0.

(** A block that starts with a blank line. *)
Definition blockWithBlankLine : string :=
  lines ["{"; ""; "  x = 1;"; "}"].

(** A block whose only blank line is inside a nested block. *)
Definition blockWithNestedBlankLine : string :=
  lines ["{"; "  if (true) {"; ""; "   x = y"; "  }"; "}"].

(** A block that holds a nested block and no blank line at all. *)
Definition blockWithNestedBlock : string :=
  lines ["{"; "  {"; "    x = y"; "  }"; "}"].

(** ** Sample paths *)

Definition expressionStatement (a : addr) (expression : value) : value :=
  node a "ExpressionStatement" [("expression", expression)].

(** [if (c) x;] and the path to its consequent *)
Definition ifStatement : value :=
  node 1 "IfStatement"
    [("test", identifier 2 "c");
     ("consequent", expressionStatement 3 (identifier 4 "x"));
     ("alternate", VNull)].

Definition ifConsequentPath : Path :=
  [ {| frame_node := expressionStatement 3 (identifier 4 "x");
       frame_name := Name "consequent" |};
    {| frame_node := ifStatement; frame_name := Idx 0 |} ].

(** [case c: x; ;] and the path to its first statement *)
Definition switchCase : value :=
  node 1 "SwitchCase"
    [("test", identifier 2 "c");
     ("consequent",
      VArr 5 [expressionStatement 3 (identifier 4 "x");
              node 6 "EmptyStatement" []])].

Definition switchCasePath : Path :=
  [ {| frame_node := expressionStatement 3 (identifier 4 "x");
       frame_name := Idx 0 |};
    {| frame_node := switchCase; frame_name := Idx 0 |} ].

(** ** Property-access chains *)

(** What [isSimpleTemplateLiteral] accepts, read off its loop: a chain of
    member or optional-member accesses down to an identifier or [this],
    where every property on the way is of one of four kinds and no object
    on the way has a truthy [comments]. A property is asked for its kind
    only. *)
Inductive acceptedChain : value -> Prop :=
| accepted_root (head type : value) :
    get head "type" = Ret type ->
    is_one_of type ["Identifier"; "ThisExpression"] = true ->
    acceptedChain head
| accepted_member (head type property ptype object comments : value) :
    get head "type" = Ret type ->
    is_one_of type ["MemberExpression"; "OptionalMemberExpression"] = true ->
    get head "property" = Ret property ->
    get property "type" = Ret ptype ->
    is_one_of ptype
      ["Identifier"; "Literal"; "StringLiteral"; "NumericLiteral"] = true ->
    get head "object" = Ret object ->
    get object "comments" = Ret comments ->
    truthy comments = false ->
    acceptedChain object ->
    acceptedChain head.

(** An interpolated expression the function accepts: its own [comments] is
    not truthy, and it is an accepted chain. *)
Definition acceptedInterpolation (expr : value) : Prop :=
  exists comments,
    get expr "comments" = Ret comments
    /\ truthy comments = false
    /\ acceptedChain expr.

(** The specification's side. A comment is attached to a node when the
    node's list of comments has an element. *)
Definition commentAttached (v : value) : bool :=
  match elements_of (field v "comments") with
  | [] => false
  | _ :: _ => true
  end.

(** An access chain in the words of the specification: member or
    optional-member accesses, each through a property that is an identifier
    or a literal key, rooted at an identifier or [this], with no comment
    attached to any node visited along the chain: the accesses, their
    properties and the root. *)
Inductive accessChain : value -> Prop :=
| chain_root (head : value) :
    kind_in head ["Identifier"; "ThisExpression"] = true ->
    commentAttached head = false ->
    accessChain head
| chain_member (head : value) :
    kind_in head ["MemberExpression"; "OptionalMemberExpression"] = true ->
    kind_in (field head "property")
      ["Identifier"; "Literal"; "StringLiteral"; "NumericLiteral"] = true ->
    commentAttached head = false ->
    commentAttached (field head "property") = false ->
    accessChain (field head "object") ->
    accessChain head.

(** An interpolated expression that the specification calls simple: an
    identifier or [this], or an access chain rooted at one of them. *)
Definition simpleInterpolation (expr : value) : Prop := accessChain expr.

(** A block comment, and an identifier to which it is attached *)
Definition blockComment (a : addr) (text : string) (leading : bool) : value :=
  VObj a [("type", VStr "CommentBlock"); ("value", VStr text);
          ("leading", VBool leading); ("trailing", VBool (negb leading))].

Definition commentedIdentifier (a : addr) (name text : string)
  (leading : bool) : value :=
  node a "Identifier"
    [("name", VStr name);
     ("comments", VArr (S a) [blockComment (S (S a)) text leading])].

(** [`${a.b}`] *)
Definition templateOfAccess : value :=
  templateLiteral 1 [memberExpression 4 (identifier 5 "a") (identifier 6 "b")].

(** [`${a./*c*/b}`]: the comment leads the property [b] *)
Definition accessWithCommentedProperty : value :=
  memberExpression 4 (identifier 5 "a") (commentedIdentifier 6 "b" "c" true).

Definition templateOfCommentedProperty : value :=
  templateLiteral 1 [accessWithCommentedProperty].

(** [`${a/*c*/.b}`]: the comment trails the object [a] *)
Definition accessWithCommentedObject : value :=
  memberExpression 4 (commentedIdentifier 5 "a" "c" false) (identifier 8 "b").

Definition templateOfCommentedObject : value :=
  templateLiteral 1 [accessWithCommentedObject].

(** [`${a.b.c}`] *)
Definition templateOfChain : value :=
  templateLiteral 1
    [memberExpression 4
       (memberExpression 5 (identifier 6 "a") (identifier 7 "b"))
       (identifier 8 "c")].

(** ** Sample literals *)

(** [[1, MAX_SIZE]] *)
Definition literalArray : value :=
  arrayExpression 1 [numericLiteral 3 1; identifier 4 "MAX_SIZE"].

(** [{ [k]: 1 }] *)
Definition computedKeyProperty : value :=
  property 7 true (identifier 8 "k") (numericLiteral 9 1).

Definition computedKeyObject : value :=
  objectExpression 5 [computedKeyProperty].

(** [[1, { [k]: 1 }]] *)
Definition arrayWithComputedKey : value :=
  arrayExpression 1 [numericLiteral 3 1; computedKeyObject].

(** [[1, , 2]] *)
Definition arrayWithHole : value :=
  arrayExpression 1 [numericLiteral 3 1; VNull; numericLiteral 4 2].

(** ** Well-formed trees *)

(** What a parser guarantees about the trees [isLiteralLikeValue] walks: a
    node is an object; the name of an identifier is a string; an array
    expression has an array of elements, each [null] or a node; an object
    expression has an array of properties, each an object whose value, when
    it has one, is a node. *)
#[local] Unset Elimination Schemes.
Inductive wellFormed : value -> Prop :=
| wellFormed_node (a : addr) (ps : list (string * value)) :
    (is_str (assoc "type" ps) "Identifier" = true ->
     is_string (assoc "name" ps) = true) ->
    (is_str (assoc "type" ps) "ArrayExpression" = true ->
     exists b xs,
       assoc "elements" ps = VArr b xs
       /\ Forall (fun x => x = VNull \/ wellFormed x) xs) ->
    (is_str (assoc "type" ps) "ObjectExpression" = true ->
     exists b props,
       assoc "properties" ps = VArr b props
       /\ Forall (fun p => nullish p = false
                           /\ (truthy (field p "value") = true ->
                               wellFormed (field p "value"))) props) ->
    wellFormed (VObj a ps).
#[local] Set Elimination Schemes.

(** The text of a function whose body is [blockWithNestedBlock]. *)
Definition functionText : Options :=
  {| originalText := "function f() " ++ blockWithNestedBlock ++ " // end";
     locStart := fun _ => 13;
     locEnd := fun _ => 13 + Z.of_nat (String.length blockWithNestedBlock) |}.

(** * The other classifiers of the file *)

(** ** More of the language *)

(** [xs.some(f)] on the elements of an array: stops at the first element on
    which [f] is true (or throws). *)
Fixpoint someM (f : value -> outcome bool) (xs : list value) : outcome bool :=
  match xs with
  | [] => Ret false
  | x :: xs' => b <- f x ;; if b then Ret true else someM f xs'
  end.

(** [v.some(f)]: like [every], a method of arrays only. *)
Definition some (v : value) (f : value -> outcome bool) : outcome bool :=
  match v with
  | VArr _ xs => someM f xs
  | _ => Throw TypeError
  end.

(** The values [for (const x of v)] runs through: the elements of an array,
    the characters of a string; nothing else in the universe is iterable. *)
Definition iterate (v : value) : outcome (list value) :=
  match v with
  | VArr _ xs => Ret xs
  | VStr s => Ret (map (fun c => VStr (String c "")) (list_ascii_of_string s))
  | _ => Throw TypeError
  end.

(** [Object.keys(v)] and [v[key]] on an object *)
Definition keys (v : value) : list string :=
  match v with
  | VObj _ ps => map fst ps
  | _ => []
  end.

(** [v > w] on two values *)
Definition gt_values (v w : value) : outcome bool :=
  a <- to_number v ;;
  b <- to_number w ;;
  Ret (match a, b with Some x, Some y => y <? x | _, _ => false end).

(** [a && b] and [a || b] as values: the operand that decides is the result. *)
Definition and_value (a : value) (b : outcome value) : outcome value :=
  if truthy a then b else Ret a.

Definition or_value (a : value) (b : outcome value) : outcome value :=
  if truthy a then Ret a else b.

(** ** Node kinds *)

Definition exportDeclarationTypes : list string :=
  ["ExportDefaultDeclaration"; "ExportDefaultSpecifier";
   "DeclareExportDeclaration"; "ExportNamedDeclaration";
   "ExportAllDeclaration"].

Definition isExportDeclaration (node : value) : outcome value :=
  and_value node
    (type <- get node "type" ;;
     Ret (VBool (is_one_of type exportDeclarationTypes))).

(** Modelled from the spec: the attaching field or index of the current
    frame, [path.getName()] of [common/fast-path.js]. *)
Definition getName (path : Path) : option segment :=
  match path with
  | f :: _ => Some (frame_name f)
  | [] => None
  end.

Definition name_is (path : Path) (k : string) : bool :=
  match getName path with
  | Some (Name k') => (k' =? k)%string
  | _ => false
  end.

Definition getParentExportDeclaration (path : Path) : outcome value :=
  let parentNode := getParentNode path in
  if name_is path "declaration" then
    exported <- isExportDeclaration parentNode ;;
    if truthy exported then Ret parentNode else Ret VNull
  else Ret VNull.

Definition isObjectType (n : value) : outcome bool :=
  type <- get n "type" ;;
  Ret (is_str type "ObjectTypeAnnotation" || is_str type "TSTypeLiteral").

Definition isJSXNode (node : value) : outcome bool :=
  type <- get node "type" ;;
  Ret (is_str type "JSXElement" || is_str type "JSXFragment").

Definition binaryishNodeTypes : list string :=
  ["BinaryExpression"; "LogicalExpression"; "NGPipeExpression"].

Definition isBinaryish (node : value) : outcome bool :=
  type <- get node "type" ;;
  Ret (is_one_of type binaryishNodeTypes).

(** [isMemberish] answers with a value: for a bind expression it is the
    [object] of the node. *)
Definition isMemberish (node : value) : outcome value :=
  type <- get node "type" ;;
  if is_str type "MemberExpression" then Ret (VBool true)
  else if is_str type "OptionalMemberExpression" then Ret (VBool true)
  else if is_str type "BindExpression" then get node "object"
  else Ret (VBool false).

Definition isCallOrOptionalCallExpression (node : value) : outcome bool :=
  type <- get node "type" ;;
  Ret (is_str type "CallExpression" || is_str type "OptionalCallExpression").

Fixpoint isMemberExpressionChain_fuel (fuel : nat) (node : value)
  : outcome bool :=
  type <- get node "type" ;;
  if negb (is_str type "MemberExpression")
     && negb (is_str type "OptionalMemberExpression") then Ret false
  else
    object <- get node "object" ;;
    otype <- get object "type" ;;
    if is_str otype "Identifier" then Ret true
    else
      match fuel with
      | O => Throw OutOfFuel
      | S fuel' => isMemberExpressionChain_fuel fuel' object
      end.

(** Every recursive call is on [node.object], a proper part of the node. *)
Definition isMemberExpressionChain (node : value) : outcome bool :=
  isMemberExpressionChain_fuel (size node) node.

(** ** Comment placement *)

Definition hasLeadingComment (node : value) : outcome value :=
  comments <- get node "comments" ;;
  and_value comments
    (found <- some comments (fun comment =>
                leading <- get comment "leading" ;; Ret (truthy leading)) ;;
     Ret (VBool found)).

Definition hasTrailingComment (node : value) : outcome value :=
  comments <- get node "comments" ;;
  and_value comments
    (found <- some comments (fun comment =>
                trailing <- get comment "trailing" ;; Ret (truthy trailing)) ;;
     Ret (VBool found)).

Definition hasDanglingComments (node : value) : outcome value :=
  comments <- get node "comments" ;;
  and_value comments
    (found <- some comments (fun comment =>
                leading <- get comment "leading" ;;
                if truthy leading then Ret false
                else
                  trailing <- get comment "trailing" ;;
                  Ret (negb (truthy trailing))) ;;
     Ret (VBool found)).

(** ** Class members and semicolons *)

Definition classChildNeedsASIProtection (node : value) : outcome value :=
  if negb (truthy node) then Ret VUndefined
  else
    static <- get node "static" ;;
    accessibility <- get node "accessibility" ;;
    if truthy static || truthy accessibility then Ret (VBool false)
    else
      computed <- get node "computed" ;;
      named <-
        (if negb (truthy computed) then
           key <- get node "key" ;;
           name <- and_value key (get key "name") ;;
           Ret (is_str name "in" || is_str name "instanceof")
         else Ret false) ;;
      if named then Ret (VBool true)
      else
        type <- get node "type" ;;
        if is_one_of type ["ClassProperty"; "TSAbstractClassProperty"] then
          Ret computed
        else if is_one_of type
                  ["MethodDefinition"; "TSAbstractMethodDefinition";
                   "ClassMethod"; "ClassPrivateMethod"] then
          value <- get node "value" ;;
          isAsync <- (if truthy value then get value "async"
                      else get node "async") ;;
          isGenerator <- (if truthy value then get value "generator"
                          else get node "generator") ;;
          kind <- get node "kind" ;;
          if truthy isAsync || is_str kind "get" || is_str kind "set" then
            Ret (VBool false)
          else if truthy computed || truthy isGenerator then Ret (VBool true)
          else Ret (VBool false)
        else if is_str type "TSIndexSignature" then Ret (VBool true)
        else Ret (VBool false).

(** ** Trailing commas *)

(** [options] is the options object, read for its [trailingComma]. *)
Definition shouldPrintComma (options level : value) : outcome bool :=
  let level := if truthy level then level else VStr "es5" in
  trailingComma <- get options "trailingComma" ;;
  if is_str trailingComma "all" then
    if is_str level "all" then Ret true
    else if is_str level "es5" then Ret true
    else Ret false
  else if is_str trailingComma "es5" then
    if is_str level "es5" then Ret true else Ret false
  else Ret false.

(** ** Generic tree search *)

(** The values [Object.keys(node).some(key => ... node[key] ...)] visits. *)
Definition children (node : value) : list value :=
  map (fun key => field node key) (keys node).

Fixpoint hasNode_fuel (fuel : nat) (node : value)
  (fn : value -> outcome value) {struct fuel} : outcome bool :=
  if negb (truthy node) || negb (typeof node =? "object")%string then Ret false
  else
    match fuel with
    | O => Throw OutOfFuel
    | S fuel' =>
        match node with
        | VArr _ xs => someM (fun value => hasNode_fuel fuel' value fn) xs
        | _ =>
            result <- fn node ;;
            match result with
            | VBool b => Ret b
            | _ => someM (fun value => hasNode_fuel fuel' value fn)
                         (children node)
            end
        end
    end.

(** Every recursive call is on a proper part of [node]. *)
Definition hasNode (node : value) (fn : value -> outcome value)
  : outcome bool :=
  hasNode_fuel (size node) node fn.

(** The callback of [hasNgSideEffect]: the [switch] on [node.type]. *)
Definition ngSideEffectTest (node : value) : outcome value :=
  type <- get node "type" ;;
  if strict_eq type VUndefined then Ret (VBool false)
  else if is_one_of type
            ["CallExpression"; "OptionalCallExpression";
             "AssignmentExpression"] then Ret (VBool true)
  else Ret VUndefined.

Definition hasNgSideEffect (path : Path) : outcome bool :=
  hasNode (getValue path) ngSideEffectTest.

(** ** JSX text *)

Definition rawText (node : value) : outcome value :=
  extra <- get node "extra" ;;
  if truthy extra then get extra "raw" else get node "raw".

(** [jsxWhitespaceChars]: space, newline, carriage return and tab *)
Definition is_jsx_whitespace (c : ascii) : bool :=
  ((c =? " ") || (c =? newline) || (c =? "013") || (c =? "009"))%char.

(** [containsNonJsxWhitespaceRegex], the regular expression [[^ \n\r\t]] *)
Definition containsNonJsxWhitespaceRegex (s : string) : bool :=
  existsb (fun c => negb (is_jsx_whitespace c)) (list_ascii_of_string s).

(** The regular expression [/\n/] *)
Definition containsNewlineRegex (s : string) : bool :=
  existsb (fun c => (c =? newline)%char) (list_ascii_of_string s).

Definition isMeaningfulJSXText (node : value) : outcome bool :=
  isLiteral node
  &&& ((raw <- rawText node ;;
        regexp_test containsNonJsxWhitespaceRegex raw)
       ||| (raw <- rawText node ;;
            found <- regexp_test containsNewlineRegex raw ;;
            Ret (negb found))).

Definition isEmptyJSXElement (node : value) : outcome bool :=
  children <- get node "children" ;;
  len <- get children "length" ;;
  if strict_eq len (VNum 0) then Ret true
  else
    several <- gt len 1 ;;
    if several then Ret false
    else
      child <- index children 0 ;;
      isLiteral child
      &&& (meaningful <- isMeaningfulJSXText child ;; Ret (negb meaningful)).

(** ** Conditional chains *)

(** The local function [recurse] of [getConditionalChainContents]; the
    array [nonConditionalExpressions] it pushes to is threaded through. *)
Fixpoint recurse_fuel (fuel : nat) (node : value)
  (nonConditionalExpressions : list value) {struct fuel}
  : outcome (list value) :=
  type <- get node "type" ;;
  if is_str type "ConditionalExpression" then
    match fuel with
    | O => Throw OutOfFuel
    | S fuel' =>
        test <- get node "test" ;;
        pushed <- recurse_fuel fuel' test nonConditionalExpressions ;;
        consequent <- get node "consequent" ;;
        pushed <- recurse_fuel fuel' consequent pushed ;;
        alternate <- get node "alternate" ;;
        recurse_fuel fuel' alternate pushed
    end
  else Ret (nonConditionalExpressions ++ [node])%list.

Definition getConditionalChainContents (node : value) : outcome (list value) :=
  recurse_fuel (size node) node [].

(** [xs.find(f)] on the elements of an array *)
Fixpoint findM (f : value -> outcome bool) (xs : list value) : outcome value :=
  match xs with
  | [] => Ret VUndefined
  | x :: xs' => b <- f x ;; if b then Ret x else findM f xs'
  end.

Definition conditionalExpressionChainContainsJSX (node : value)
  : outcome bool :=
  contents <- getConditionalChainContents node ;;
  found <- findM isJSXNode contents ;;
  Ret (truthy found).

(** ** Function composition and curried calls *)

(** The [for] loop of [isFunctionCompositionArgs] over the remaining
    arguments, with the loop state [count]. *)
Fixpoint compositionLoop (args : list value) (count : Z) : outcome bool :=
  match args with
  | [] => Ret false
  | arg :: rest =>
      isFunction <- isFunctionOrArrowExpression arg ;;
      if isFunction then
        let count := count + 1 in
        if 1 <? count then Ret true else compositionLoop rest count
      else
        isCall <- isCallOrOptionalCallExpression arg ;;
        if isCall then
          arguments <- get arg "arguments" ;;
          childArgs <- iterate arguments ;;
          found <- someM isFunctionOrArrowExpression childArgs ;;
          if found then Ret true else compositionLoop rest count
        else compositionLoop rest count
  end.

Definition isFunctionCompositionArgs (args : value) : outcome bool :=
  len <- get args "length" ;;
  few <- le len 1 ;;
  if few then Ret false
  else
    items <- iterate args ;;
    compositionLoop items 0.

Definition isLongCurriedCallExpression (path : Path) : outcome bool :=
  let node := getValue path in
  let parent := getParentNode path in
  isCallOrOptionalCallExpression node
  &&& isCallOrOptionalCallExpression parent
  &&& (callee <- get parent "callee" ;; Ret (strict_eq callee node))
  &&& (arguments <- get node "arguments" ;;
       len <- get arguments "length" ;;
       parentArguments <- get parent "arguments" ;;
       parentLen <- get parentArguments "length" ;;
       gt_values len parentLen)
  &&& (parentArguments <- get parent "arguments" ;;
       parentLen <- get parentArguments "length" ;;
       gt parentLen 0).

(** ** Tagged [each] tables *)

(** [jestEachTriggerRegex], the regular expression
    [/^[fx]?(describe|it|test)$/] *)
Definition jestEachTriggerRegex (s : string) : bool :=
  let trigger t := ((t =? "describe") || (t =? "it") || (t =? "test"))%string in
  trigger s
  || match s with
     | String c rest => ((c =? "f") || (c =? "x"))%char && trigger rest
     | EmptyString => false
     end.

Definition isJestEachTemplateLiteral (node parentNode : value) : outcome bool :=
  type <- get parentNode "type" ;;
  Ret (is_str type "TaggedTemplateExpression")
  &&& (quasi <- get parentNode "quasi" ;; Ret (strict_eq quasi node))
  &&& (tag <- get parentNode "tag" ;;
       ttype <- get tag "type" ;;
       Ret (is_str ttype "MemberExpression")
       &&& (property <- get tag "property" ;;
            ptype <- get property "type" ;;
            pname <- get property "name" ;;
            Ret (is_str ptype "Identifier" && is_str pname "each"))
       &&& (object <- get tag "object" ;;
            otype <- get object "type" ;;
            (Ret (is_str otype "Identifier")
             &&& (oname <- get object "name" ;;
                  regexp_test jestEachTriggerRegex oname))
            ||| (Ret (is_str otype "MemberExpression")
                 &&& (oproperty <- get object "property" ;;
                      optype <- get oproperty "type" ;;
                      opname <- get oproperty "name" ;;
                      Ret (is_str optype "Identifier"
                           && (is_str opname "only" || is_str opname "skip")))
                 &&& (root <- get object "object" ;;
                      rtype <- get root "type" ;;
                      Ret (is_str rtype "Identifier")
                      &&& (rname <- get root "name" ;;
                           regexp_test jestEachTriggerRegex rname))))).

(** ** Leading comments of a return argument *)

Section ReturnArgument.

(** The two helpers of [common/util] this part calls, which are not part of
    this file: [hasNewline(text, index)] and [hasNodeIgnoreComment(node)]. *)
Variable hasNewline : string -> Z -> bool.
Variable hasNodeIgnoreComment : value -> value.

Definition hasLeadingOwnLineComment (text : string) (node : value)
  (options : Options) : outcome value :=
  jsx <- isJSXNode node ;;
  if jsx then Ret (hasNodeIgnoreComment node)
  else
    comments <- get node "comments" ;;
    and_value comments
      (found <- some comments (fun comment =>
                  leading <- get comment "leading" ;;
                  if truthy leading then
                    Ret (hasNewline text (locEnd options comment))
                  else Ret false) ;;
       Ret (VBool found)).

(** The [while] loop of [returnArgumentHasLeadingComment] over [leftMost]. *)
Fixpoint leftMostLoop (fuel : nat) (options : Options) (leftMost : value)
  {struct fuel} : outcome bool :=
  newLeftMost <- getLeftSide leftMost ;;
  if truthy newLeftMost then
    match fuel with
    | O => Throw OutOfFuel
    | S fuel' =>
        commented <-
          hasLeadingOwnLineComment (originalText options) newLeftMost options ;;
        if truthy commented then Ret true
        else leftMostLoop fuel' options newLeftMost
    end
  else Ret false.

(** Every round of the loop moves to a proper part of [leftMost]. *)
Definition returnArgumentHasLeadingComment (options : Options)
  (argument : value) : outcome bool :=
  commented <-
    hasLeadingOwnLineComment (originalText options) argument options ;;
  if truthy commented then Ret true
  else
    naked <- hasNakedLeftSide argument ;;
    if naked then leftMostLoop (size argument) options argument
    else Ret false.

End ReturnArgument.

(** ** Shapes and samples for the other classifiers *)

(** The recursion bound of the model ran out. *)
Definition exhausted {A} (m : outcome A) : bool :=
  match m with
  | Throw OutOfFuel => true
  | _ => false
  end.

(** A chain of member or optional-member expressions whose innermost object
    is an identifier. *)
Inductive identifierChain : value -> Prop :=
| identifierChain_base (n type object otype : value) :
    get n "type" = Ret type ->
    is_one_of type ["MemberExpression"; "OptionalMemberExpression"] = true ->
    get n "object" = Ret object ->
    get object "type" = Ret otype ->
    is_str otype "Identifier" = true ->
    identifierChain n
| identifierChain_step (n type object otype : value) :
    get n "type" = Ret type ->
    is_one_of type ["MemberExpression"; "OptionalMemberExpression"] = true ->
    get n "object" = Ret object ->
    get object "type" = Ret otype ->
    is_str otype "Identifier" = false ->
    identifierChain object ->
    identifierChain n.

(** A value that holds a call, optional call or assignment where the search
    of [hasNgSideEffect] can reach it: through arrays, and through the
    properties of objects that have a [type] other than those three. *)
Inductive holdsSideEffect : value -> Prop :=
| holdsSideEffect_here (a : addr) (ps : list (string * value)) :
    is_one_of (assoc "type" ps)
      ["CallExpression"; "OptionalCallExpression"; "AssignmentExpression"]
    = true ->
    holdsSideEffect (VObj a ps)
| holdsSideEffect_element (a : addr) (xs : list value) (x : value) :
    In x xs -> holdsSideEffect x -> holdsSideEffect (VArr a xs)
| holdsSideEffect_property (a : addr) (ps : list (string * value))
    (x : value) :
    strict_eq (assoc "type" ps) VUndefined = false ->
    is_one_of (assoc "type" ps)
      ["CallExpression"; "OptionalCallExpression"; "AssignmentExpression"]
    = false ->
    In x (children (VObj a ps)) ->
    holdsSideEffect x ->
    holdsSideEffect (VObj a ps).

(** [a + b] *)
Definition binaryExpression (a : addr) (left right : value) : value :=
  node a "BinaryExpression"
    [("operator", VStr "+"); ("left", left); ("right", right)].

Definition sumAB : value :=
  binaryExpression 1 (identifier 2 "a") (identifier 3 "b").

(** [a.b.c] and [a().b] *)
Definition chainABC : value :=
  memberExpression 4
    (memberExpression 5 (identifier 6 "a") (identifier 7 "b"))
    (identifier 8 "c").

Definition callThenMember : value :=
  memberExpression 4 (callExpression 5 (identifier 7 "a") [])
    (identifier 8 "b").

(** The nodes the leftmost walk goes through: the node itself, then
    whatever [getLeftSide] gives, as long as it is truthy. *)
Inductive onLeftSpine : value -> value -> Prop :=
| onLeftSpine_here (n : value) : onLeftSpine n n
| onLeftSpine_left (n left m : value) :
    getLeftSide n = Ret left ->
    truthy left = true ->
    onLeftSpine left m ->
    onLeftSpine n m.

(** [(a + b).c], whose leftmost node [a] carries a leading comment *)
Definition commentedA : value :=
  node 2 "Identifier"
    [("name", VStr "a");
     ("comments", VArr 9 [VObj 10 [("leading", VBool true);
                                   ("value", VStr " note")]])].

Definition commentedSum : value :=
  memberExpression 5 (binaryExpression 1 commentedA (identifier 3 "b"))
    (identifier 8 "c").

Definition noText : Options :=
  {| originalText := ""; locStart := fun _ => 0; locEnd := fun _ => 0 |}.

(** A getter named [in]: [get in() {}] as a class method *)
Definition getterNamedIn : value :=
  node 1 "ClassMethod"
    [("key", identifier 2 "in"); ("kind", VStr "get");
     ("computed", VBool false); ("static", VBool false);
     ("async", VBool false); ("generator", VBool false)].

(** [[f(), 1]] under an expression statement, and the same under an object
    that has no [type] *)
Definition statementWithCall : value :=
  expressionStatement 1
    (arrayExpression 2 [callExpression 4 (identifier 6 "f") [];
                        numericLiteral 7 1]).

Definition untypedWrapper : value :=
  VObj 20 [("extra", statementWithCall)].

(** Text made of JSX whitespace only *)
Definition jsxWhitespaceOnly (s : string) : bool :=
  forallb is_jsx_whitespace (list_ascii_of_string s).

Definition literalKinds : list string :=
  ["BooleanLiteral"; "DirectiveLiteral"; "Literal"; "NullLiteral";
   "NumericLiteral"; "BigIntLiteral"; "RegExpLiteral"; "StringLiteral";
   "TemplateLiteral"; "TSTypeLiteral"; "JSXText"].

Definition jsxText (a : addr) (raw : string) : value :=
  node a "JSXText" [("value", VStr raw); ("raw", VStr raw)].

Definition jsxElement (a : addr) (kids : list value) : value :=
  node a "JSXElement" [("children", VArr (S a) kids)].

(** [test ? consequent : alternate] *)
Definition conditionalExpression (a : addr) (test consequent alternate : value)
  : value :=
  node a "ConditionalExpression"
    [("test", test); ("consequent", consequent); ("alternate", alternate)].

(** [a ? b : c ? <div/> : e] *)
Definition ternaryWithMarkup : value :=
  conditionalExpression 1 (identifier 2 "a") (identifier 3 "b")
    (conditionalExpression 4 (identifier 5 "c") (jsxElement 6 [])
       (identifier 8 "e")).

(** An argument that is a function or arrow expression, and one that is a
    call with such an argument *)
Definition functionArgument (arg : value) : bool :=
  kind_in arg ["FunctionExpression"; "ArrowFunctionExpression"].

Definition callWithFunctionArgument (arg : value) : bool :=
  kind_in arg ["CallExpression"; "OptionalCallExpression"]
  && existsb functionArgument (elements_of (field arg "arguments")).

(** What a parser guarantees about a list of arguments: each is a node, and
    a call among them has an array of nodes for its arguments. *)
Definition wellFormedArguments (args : list value) : bool :=
  forallb (fun arg =>
             is_node arg
             && (negb (kind_in arg ["CallExpression"; "OptionalCallExpression"])
                 || (is_array (field arg "arguments")
                     && forallb is_node (elements_of (field arg "arguments")))))
          args.

(** [pipe(map(x => x))]: one argument, a call that wraps a function *)
Definition mapOfArrow : value :=
  callExpression 10 (identifier 12 "map") [emptyArrow 13].

(** [connect(a, b)(c)]: the inner call, and the path to it from the outer
    call whose callee it is *)
Definition innerCall : value :=
  callExpression 3 (identifier 5 "connect")
    [identifier 6 "a"; identifier 7 "b"].

Definition curriedPath : Path :=
  [ {| frame_node := innerCall; frame_name := Name "callee" |};
    {| frame_node := callExpression 1 innerCall [identifier 8 "c"];
       frame_name := Name "expression" |} ].

(** The template of [describe.each`table`] and of [skip.each`table`] under
    its tagged template *)
Definition eachTable (trigger : string) (quasi : value) : value :=
  node 1 "TaggedTemplateExpression"
    [("tag", memberExpression 2 (identifier 3 trigger) (identifier 4 "each"));
     ("quasi", quasi)].

(** The identifier at the root of the tag of a tagged template:
    [tag.object] of [x.each], [tag.object.object] of [x.only.each]. *)
Definition eachTrigger (parentNode : value) : value :=
  let object := field (field parentNode "tag") "object" in
  if kind_in object ["Identifier"] then field object "name"
  else field (field object "object") "name".

(** How many newline characters a text has, and whether it has an opening
    brace *)
Definition countNewlines (s : string) : nat :=
  List.length (List.filter (fun c => (c =? newline)%char)
                 (list_ascii_of_string s)).

Definition hasOpeningBrace (s : string) : bool :=
  existsb (fun c => (c =? "{")%char) (list_ascii_of_string s).

(** [async(() => {})] as the second argument of [it("x", ...)], and
    [beforeEach(async(() => {}))] *)
Definition asyncOfArrow : value :=
  callExpression 20 (identifier 22 "async") [emptyArrow 23].

Definition itWithAsync : value :=
  callExpression 1 (identifier 3 "it") [stringLiteral 4 "x"; asyncOfArrow].

Definition beforeEachWithAsync : value :=
  callExpression 30 (identifier 32 "beforeEach") [asyncOfArrow].

(** [export const x = 1;]: the declaration, attached as [declaration] to
    the export *)
Definition exportedDeclarationPath : Path :=
  [ {| frame_node := node 3 "VariableDeclaration" [("kind", VStr "const")];
       frame_name := Name "declaration" |};
    {| frame_node :=
         node 1 "ExportNamedDeclaration"
           [("declaration",
             node 3 "VariableDeclaration" [("kind", VStr "const")])];
       frame_name := Idx 0 |} ].

(** A literal of ESTree with a numeric value, [42] *)
Definition estreeNumber : value :=
  node 1 "Literal" [("value", VNum 42); ("raw", VStr "42")].

(** * Properties *)

(** ** Reading properties *)

Lemma get_field (v : value) (k : string) :
  nullish v = false -> get v k = Ret (field v k).
Proof. destruct v; simpl; intros H; try discriminate; reflexivity. Qed.

Lemma get_Ret_nullish (v x : value) (k : string) :
  get v k = Ret x -> nullish v = false.
Proof. destruct v; simpl; intros H; try discriminate; reflexivity. Qed.

Lemma get_Ret_field (v x : value) (k : string) :
  get v k = Ret x -> field v k = x.
Proof. unfold field. intros ->. reflexivity. Qed.

Lemma get_length_str (s : string) :
  get (VStr s) "length" = Ret (VNum (Z.of_nat (String.length s))).
Proof. reflexivity. Qed.

Lemma get_length_arr (a : addr) (xs : list value) :
  get (VArr a xs) "length" = Ret (VNum (Z.of_nat (List.length xs))).
Proof. reflexivity. Qed.

Lemma truthy_not_nullish (v : value) : truthy v = true -> nullish v = false.
Proof. destruct v; simpl; intros H; try discriminate; reflexivity. Qed.

Lemma hasNakedLeftSide_not_nullish (n : value) (b : bool) :
  hasNakedLeftSide n = Ret b -> nullish n = false.
Proof. destruct n; simpl; intros H; try discriminate; reflexivity. Qed.

(** ** The two left-side resolvers *)

Section LeftSide.

Variable path : Path.
Variable n : value.
Hypothesis n_defined : nullish n = false.

Let fld := field n.

Lemma getLeftSide_eq :
  getLeftSide n =
  if truthy (fld "expressions") then index (fld "expressions") 0
  else Ret (if truthy (fld "left") then fld "left"
            else if truthy (fld "test") then fld "test"
            else if truthy (fld "callee") then fld "callee"
            else if truthy (fld "object") then fld "object"
            else if truthy (fld "tag") then fld "tag"
            else if truthy (fld "argument") then fld "argument"
            else fld "expression").
Proof.
  unfold getLeftSide, fld. cbn [first_truthy].
  rewrite !(get_field n) by exact n_defined. cbn [bind].
  repeat match goal with |- context [truthy ?v] => destruct (truthy v) end;
    reflexivity.
Qed.

Lemma getLeftSidePathName_eq :
  getLeftSidePathName path n =
  if truthy (fld "expressions") then Ret [Name "expressions"; Idx 0]
  else if truthy (fld "left") then Ret [Name "left"]
  else if truthy (fld "test") then Ret [Name "test"]
  else if truthy (fld "object") then Ret [Name "object"]
  else if truthy (fld "callee") then Ret [Name "callee"]
  else if truthy (fld "tag") then Ret [Name "tag"]
  else if truthy (fld "argument") then Ret [Name "argument"]
  else if truthy (fld "expression") then Ret [Name "expression"]
  else Throw no_left_side.
Proof.
  unfold getLeftSidePathName, fld. cbn [first_present].
  rewrite !(get_field n) by exact n_defined. cbn [bind].
  repeat match goal with |- context [truthy ?v] => destruct (truthy v) end;
    reflexivity.
Qed.

(** X26. Outside the one overlap of [callee] and [object], the path returned
    by [getLeftSidePathName] leads to the node returned by [getLeftSide]. *)
Lemma resolvers_agree (segs : list segment) :
  truthy (fld "expressions") || truthy (fld "left") || truthy (fld "test")
  || negb (truthy (fld "callee") && truthy (fld "object")) = true ->
  getLeftSidePathName path n = Ret segs ->
  follow n segs = getLeftSide n.
Proof.
  rewrite getLeftSidePathName_eq, getLeftSide_eq. unfold fld.
  intros Hcase Hsegs.
  repeat match type of Hsegs with
         | context [truthy ?v] =>
             let E := fresh "E" in
             destruct (truthy v) eqn:E; cbn [orb andb negb] in Hcase
         end;
    try discriminate; injection Hsegs as <-; cbn [follow];
    rewrite ?(get_field n) by exact n_defined; cbn [bind];
    try reflexivity.
  - destruct (index _ 0); reflexivity.
  - destruct (truthy (field n "callee")); [discriminate | reflexivity].
Qed.

End LeftSide.

(** C1. The claim asks that, wherever both resolvers succeed, the path given
    by [getLeftSidePathName] leads to the node given by [getLeftSide]. On the
    bind expression [a::b], a node [hasNakedLeftSide] flags, it does not:
    [getLeftSide] answers the callee [b], while [getLeftSidePathName] answers
    the path [object], which leads to [a], a different node. *)
Theorem resolvers_disagree_on_bind_expression :
  hasNakedLeftSide bindExpression = Ret true /\
  getLeftSide bindExpression = Ret (identifier 3 "b") /\
  getLeftSidePathName [] bindExpression = Ret [Name "object"] /\
  follow bindExpression [Name "object"] = Ret (identifier 2 "a") /\
  strict_eq (identifier 2 "a") (identifier 3 "b") = false.
Proof. repeat split; reflexivity. Qed.

(** C6, as stated, fails for the node-returning resolver: on a flagged call
    expression with none of the left-side fields, [getLeftSide] returns
    [undefined] and raises nothing. *)
Lemma getLeftSide_returns_on_bare_call :
  hasNakedLeftSide bareCall = Ret true /\
  forallb (fun k => negb (truthy (field bareCall k))) leftSideFields = true /\
  getLeftSidePathName [] bareCall = Throw no_left_side /\
  getLeftSide bareCall = Ret VUndefined.
Proof. repeat split; reflexivity. Qed.

(** C6, amended. On a node flagged by [hasNakedLeftSide] none of whose
    left-side fields is present (truthy), the path-returning resolver raises
    its "no left side" error, and the node-returning resolver raises nothing:
    it returns the value of [node.expression], which is falsy. *)
Theorem missing_left_side (path : Path) (n : value) :
  hasNakedLeftSide n = Ret true ->
  (forall k, In k leftSideFields -> truthy (field n k) = false) ->
  getLeftSidePathName path n = Throw no_left_side /\
  getLeftSide n = Ret (field n "expression") /\
  truthy (field n "expression") = false.
Proof.
  intros Hflag Hnone.
  pose proof (hasNakedLeftSide_not_nullish _ _ Hflag) as Hn.
  rewrite getLeftSidePathName_eq, getLeftSide_eq by exact Hn.
  rewrite !Hnone by (simpl; tauto).
  repeat split; reflexivity.
Qed.

Lemma missing_left_side_witness :
  getLeftSidePathName [] bareCall = Throw no_left_side /\
  getLeftSide bareCall = Ret (field bareCall "expression") /\
  truthy (field bareCall "expression") = false.
Proof.
  apply (missing_left_side [] bareCall).
  - reflexivity.
  - intros k Hk. simpl in Hk.
    repeat (destruct Hk as [<- | Hk]; [reflexivity | ]). contradiction.
Defined.

(** ** Computations *)

Lemma bind_ext {A B} (m : outcome A) (k1 k2 : A -> outcome B) :
  (forall a, k1 a = k2 a) -> bind m k1 = bind m k2.
Proof. intros H. destruct m; simpl; auto. Qed.

Lemma andM_true (a b : outcome bool) :
  a &&& b = Ret true <-> a = Ret true /\ b = Ret true.
Proof.
  unfold andM. destruct a as [[|]|]; simpl; split;
    intros H; try discriminate; try tauto;
    destruct H as [H _]; discriminate.
Qed.

Lemma everyM_ext_in (f g : value -> outcome bool) (xs : list value) :
  (forall x, In x xs -> f x = g x) -> everyM f xs = everyM g xs.
Proof.
  induction xs as [|x xs IH]; simpl; intros H; [reflexivity|].
  rewrite (H x) by auto. rewrite IH by auto. reflexivity.
Qed.

Lemma every_ext (v : value) (f g : value -> outcome bool) :
  (forall x, f x = g x) -> every v f = every v g.
Proof. intros H. destruct v; simpl; auto using everyM_ext_in. Qed.

Lemma everyM_true (f : value -> outcome bool) (xs : list value) :
  everyM f xs = Ret true <-> Forall (fun x => f x = Ret true) xs.
Proof.
  induction xs as [|x xs IH]; simpl.
  - split; auto.
  - split.
    + intros H. destruct (f x) as [[|]|] eqn:E; simpl in H; try discriminate.
      constructor; [exact E | apply IH, H].
    + intros H. inversion H as [|? ? Hx Hxs]; subst.
      rewrite Hx. simpl. apply IH, Hxs.
Qed.

(** [every] answers [false] at the first element judged [false], provided
    the elements before it were judged [true]. *)
Lemma everyM_false_at (f : value -> outcome bool) (pre post : list value)
  (x : value) :
  Forall (fun y => f y = Ret true) pre -> f x = Ret false ->
  everyM f (pre ++ x :: post) = Ret false.
Proof.
  induction 1 as [|y pre Hy _ IH]; simpl; intros Hx.
  - rewrite Hx. reflexivity.
  - rewrite Hy. simpl. auto.
Qed.

Lemma Forall_equiv {A} (P Q : A -> Prop) (l : list A) :
  (forall x, P x <-> Q x) -> Forall P l <-> Forall Q l.
Proof.
  intros H. split; apply Forall_impl; intros x; apply H.
Qed.

Lemma strict_eq_null (x : value) : strict_eq x VNull = true <-> x = VNull.
Proof. destruct x; simpl; split; intros H; try discriminate; reflexivity. Qed.

(** ** Simple call arguments *)

Lemma isSimpleCallArgument_body_ext (p1 p2 q1 q2 : value -> outcome bool)
  (n : value) :
  (forall x, p1 x = q1 x) -> (forall x, p2 x = q2 x) ->
  isSimpleCallArgument_body p1 p2 n = isSimpleCallArgument_body q1 q2 n.
Proof.
  intros H1 H2. unfold isSimpleCallArgument_body, andM.
  repeat first
    [ reflexivity
    | rewrite H1
    | rewrite H2
    | apply bind_ext; intro
    | apply every_ext; intro
    | match goal with
      | |- (if ?b then _ else _) = _ => destruct b
      end ].
Qed.

(** The recursion bound never runs out: any bound of at least [3 - depth]
    gives the same answer. *)
Lemma isSimpleCallArgument_fuel_enough (f1 f2 : nat) :
  forall (n : value) (depth : Z),
    3 - depth <= Z.of_nat f1 -> 3 - depth <= Z.of_nat f2 ->
    isSimpleCallArgument_fuel f1 n depth = isSimpleCallArgument_fuel f2 n depth.
Proof.
  revert f2. induction f1 as [|f1 IH]; intros f2 n depth H1 H2.
  - destruct f2; simpl; destruct (depth >=? 3) eqn:E; try reflexivity; lia.
  - destruct f2 as [|f2]; simpl; destruct (depth >=? 3) eqn:E;
      try reflexivity; try lia.
    apply isSimpleCallArgument_body_ext; intros x; apply IH; lia.
Qed.

Lemma isSimpleCallArgument_cutoff (x : value) (d : Z) :
  3 <= d -> isSimpleCallArgument x d = Ret false.
Proof.
  intros H. unfold isSimpleCallArgument.
  destruct (Z.to_nat (3 - d)); simpl; destruct (d >=? 3) eqn:E;
    try reflexivity; lia.
Qed.

(** Below the cutoff the function is its body, with [plusOne] and [plusTwo]
    the function itself one and two levels deeper. *)
Lemma isSimpleCallArgument_unfold (n : value) (d : Z) :
  d < 3 ->
  isSimpleCallArgument n d =
  isSimpleCallArgument_body (fun x => isSimpleCallArgument x (d + 1))
                            (fun x => isSimpleCallArgument x (d + 2)) n.
Proof.
  intros H. unfold isSimpleCallArgument.
  destruct (Z.to_nat (3 - d)) as [|f] eqn:Ef; [lia|].
  cbn [isSimpleCallArgument_fuel]. destruct (d >=? 3) eqn:E; [lia|].
  apply isSimpleCallArgument_body_ext; intros x;
    apply isSimpleCallArgument_fuel_enough; lia.
Qed.

(** The function returns on every input on which its reads succeed: it is
    never the recursion bound that stops it. *)
Lemma isSimpleCallArgument_never_out_of_fuel (f : nat) :
  forall (n : value) (d : Z),
    3 - d <= Z.of_nat f ->
    isSimpleCallArgument_fuel f n d = isSimpleCallArgument n d.
Proof.
  intros n d H. apply isSimpleCallArgument_fuel_enough; lia.
Qed.

Lemma isSimpleCallArgument_body_literal (p1 p2 : value -> outcome bool)
  (n : value) (t : string) :
  get n "type" = Ret (VStr t) ->
  In t simpleLiteralKinds ->
  isSimpleCallArgument_body p1 p2 n =
  (tooLong <- (Ret (truthy (regexpPattern n))
               &&& (len <- get (regexpPattern n) "length" ;; gt len 5)) ;;
   if tooLong then Ret false else Ret true).
Proof.
  intros Htype Hkind.
  pose proof (get_Ret_nullish _ _ _ Htype) as Hn.
  unfold isSimpleCallArgument_body, regexpPattern.
  rewrite Htype, (get_Ret_field _ _ _ Htype). cbn [bind].
  assert (Hone : is_one_of (VStr t)
            ["Literal"; "BigIntLiteral"; "BooleanLiteral"; "NullLiteral";
             "NumericLiteral"; "RegExpLiteral"; "StringLiteral";
             "Identifier"; "ThisExpression"; "Super"; "PrivateName";
             "ArgumentPlaceholder"; "Import"] = true).
  { simpl in Hkind.
    repeat (destruct Hkind as [<- | Hkind]; [reflexivity|]). contradiction. }
  rewrite Hone.
  destruct (is_str (VStr t) "Literal").
  - rewrite (get_field n) by exact Hn. cbn [bind].
    destruct (truthy (field n "regex")) eqn:Eregex.
    + rewrite (get_field (field n "regex"))
        by (apply truthy_not_nullish; exact Eregex).
      cbn [bind].
      destruct (truthy (field (field n "regex") "pattern")); cbn [bind].
      * reflexivity.
      * destruct (is_str (VStr t) "RegExpLiteral"); cbn [bind];
          rewrite ?(get_field n) by exact Hn; reflexivity.
    + cbn [bind]. rewrite Eregex.
      destruct (is_str (VStr t) "RegExpLiteral"); cbn [bind];
        rewrite ?(get_field n) by exact Hn; reflexivity.
  - cbn [bind truthy].
    destruct (is_str (VStr t) "RegExpLiteral"); cbn [bind];
      rewrite ?(get_field n) by exact Hn; reflexivity.
Qed.

(** C2, as stated, fails on the ESTree spelling of a regular expression: a
    node of kind [Literal] whose [regex.pattern] has six characters is not a
    simple call argument. *)
Lemma long_estree_regexp_is_not_simple :
  get estreeRegExp "type" = Ret (VStr "Literal") /\
  existsb (String.eqb "Literal") simpleLiteralKinds = true /\
  regexpPattern estreeRegExp = VStr "abcdef" /\
  isSimpleCallArgument estreeRegExp 0 = Ret false.
Proof. repeat split; reflexivity. Qed.

(** C2, amended. At depth 3 or more [isSimpleCallArgument] is false on
    every node. At depth 0 a node of a literal kind is simple when the
    regular-expression pattern the function measures ([node.regex.pattern] on
    a [Literal], [node.pattern] on a [RegExpLiteral]) is absent or a string
    of at most 5 characters, and is not simple when that pattern is a string
    of more than 5 characters; the kinds [BigIntLiteral], [BooleanLiteral],
    [NullLiteral], [NumericLiteral] and [StringLiteral] carry no such pattern
    and are always simple. *)
Theorem isSimpleCallArgument_cutoff_and_literals :
  (forall (x : value) (d : Z), 3 <= d -> isSimpleCallArgument x d = Ret false)
  /\ (forall (n : value) (t : string),
        get n "type" = Ret (VStr t) -> In t simpleLiteralKinds ->
        (truthy (regexpPattern n) = false
         \/ exists s, regexpPattern n = VStr s /\ (String.length s <= 5)%nat) ->
        isSimpleCallArgument n 0 = Ret true)
  /\ (forall (n : value) (t s : string),
        get n "type" = Ret (VStr t) -> In t simpleLiteralKinds ->
        regexpPattern n = VStr s -> (5 < String.length s)%nat ->
        isSimpleCallArgument n 0 = Ret false)
  /\ (forall (n : value) (t : string),
        get n "type" = Ret (VStr t) ->
        In t ["BigIntLiteral"; "BooleanLiteral"; "NullLiteral";
              "NumericLiteral"; "StringLiteral"] ->
        regexpPattern n = VBool false /\ isSimpleCallArgument n 0 = Ret true).
Proof.
  split; [exact isSimpleCallArgument_cutoff|].
  assert (Hshort : forall n t, get n "type" = Ret (VStr t) ->
            In t simpleLiteralKinds ->
            (truthy (regexpPattern n) = false
             \/ exists s, regexpPattern n = VStr s
                          /\ (String.length s <= 5)%nat) ->
            isSimpleCallArgument n 0 = Ret true).
  { intros n t Htype Hkind Hpat.
    rewrite isSimpleCallArgument_unfold by lia.
    rewrite (isSimpleCallArgument_body_literal _ _ n t Htype Hkind).
    destruct Hpat as [Hfalsy | (s & Hs & Hlen)].
    - rewrite Hfalsy. reflexivity.
    - rewrite Hs, get_length_str. unfold andM, gt. cbn [bind to_number truthy].
      destruct (negb (s =? "")%string); cbn [bind]; [|reflexivity].
      replace (5 <? Z.of_nat (String.length s)) with false
        by (symmetry; apply Z.ltb_ge; lia).
      reflexivity. }
  split; [exact Hshort|]. split.
  - intros n t s Htype Hkind Hs Hlen.
    rewrite isSimpleCallArgument_unfold by lia.
    rewrite (isSimpleCallArgument_body_literal _ _ n t Htype Hkind).
    rewrite Hs, get_length_str. unfold andM, gt. cbn [bind to_number truthy].
    destruct s as [|c s]; [simpl in Hlen; lia|]. cbn [String.eqb negb bind].
    replace (5 <? Z.of_nat (String.length (String c s))) with true
      by (symmetry; apply Z.ltb_lt; lia).
    reflexivity.
  - intros n t Htype Hkind.
    assert (Hrp : regexpPattern n = VBool false).
    { unfold regexpPattern. rewrite (get_Ret_field _ _ _ Htype).
      simpl in Hkind.
      repeat (destruct Hkind as [<- | Hkind]; [reflexivity|]).
      contradiction. }
    split; [exact Hrp|].
    apply (Hshort n t Htype).
    + simpl in Hkind. simpl.
      repeat (destruct Hkind as [<- | Hkind]; [tauto|]). contradiction.
    + left. rewrite Hrp. reflexivity.
Qed.

Lemma isSimpleCallArgument_cutoff_and_literals_witness :
  isSimpleCallArgument (identifier 1 "x") 3 = Ret false /\
  isSimpleCallArgument (stringLiteral 1 "x") 0 = Ret true.
Proof.
  split.
  - apply (proj1 isSimpleCallArgument_cutoff_and_literals). lia.
  - apply (proj1 (proj2 isSimpleCallArgument_cutoff_and_literals)
             (stringLiteral 1 "x") "StringLiteral").
    + reflexivity.
    + simpl. tauto.
    + simpl. tauto.
Defined.

(** Evaluating the kind tests of a body once [node.type] is known. *)
Ltac known_type Htype :=
  rewrite Htype;
  cbn [bind is_str is_one_of existsb strict_eq String.eqb Ascii.eqb Bool.eqb
       orb andb negb truthy].

Lemma isSimpleCallArgument_call (n : value) (d : Z) (t : string)
  (callee : value) (a : addr) (args : list value) :
  d < 3 ->
  get n "type" = Ret (VStr t) ->
  In t ["CallExpression"; "OptionalCallExpression"; "NewExpression"] ->
  get n "callee" = Ret callee ->
  get n "arguments" = Ret (VArr a args) ->
  isSimpleCallArgument n d =
  isSimpleCallArgument callee (d + 1)
  &&& everyM (fun x => isSimpleCallArgument x (d + 2)) args.
Proof.
  intros Hd Htype Hkind Hcallee Hargs.
  rewrite isSimpleCallArgument_unfold by exact Hd.
  unfold isSimpleCallArgument_body. unfold andM at 1.
  simpl in Hkind.
  repeat (destruct Hkind as [<- | Hkind];
          [known_type Htype; rewrite Hcallee, Hargs; reflexivity|]).
  contradiction.
Qed.

Lemma isSimpleCallArgument_member (n : value) (d : Z) (t : string)
  (object property : value) :
  d < 3 ->
  get n "type" = Ret (VStr t) ->
  In t ["MemberExpression"; "OptionalMemberExpression"] ->
  get n "object" = Ret object ->
  get n "property" = Ret property ->
  isSimpleCallArgument n d =
  isSimpleCallArgument object (d + 1) &&& isSimpleCallArgument property (d + 1).
Proof.
  intros Hd Htype Hkind Hobject Hproperty.
  rewrite isSimpleCallArgument_unfold by exact Hd.
  unfold isSimpleCallArgument_body. unfold andM at 1.
  simpl in Hkind.
  repeat (destruct Hkind as [<- | Hkind];
          [known_type Htype; rewrite Hobject, Hproperty; reflexivity|]).
  contradiction.
Qed.

Lemma isSimpleCallArgument_template (n : value) (d : Z) (a : addr)
  (exprs : list value) :
  d < 3 ->
  get n "type" = Ret (VStr "TemplateLiteral") ->
  get n "expressions" = Ret (VArr a exprs) ->
  isSimpleCallArgument n d =
  everyM (fun x => isSimpleCallArgument x (d + 2)) exprs.
Proof.
  intros Hd Htype Hexprs.
  rewrite isSimpleCallArgument_unfold by exact Hd.
  unfold isSimpleCallArgument_body. unfold andM at 1.
  known_type Htype. rewrite Hexprs. reflexivity.
Qed.

Lemma isSimpleCallArgument_array (n : value) (d : Z) (a : addr)
  (elems : list value) :
  d < 3 ->
  get n "type" = Ret (VStr "ArrayExpression") ->
  get n "elements" = Ret (VArr a elems) ->
  isSimpleCallArgument n d =
  everyM (fun x => if strict_eq x VNull then Ret true
                   else isSimpleCallArgument x (d + 2)) elems.
Proof.
  intros Hd Htype Helems.
  rewrite isSimpleCallArgument_unfold by exact Hd.
  unfold isSimpleCallArgument_body. unfold andM at 1.
  known_type Htype. rewrite Helems. reflexivity.
Qed.

Lemma isSimpleCallArgument_object (n : value) (d : Z) (a : addr)
  (props : list value) :
  d < 3 ->
  get n "type" = Ret (VStr "ObjectExpression") ->
  get n "properties" = Ret (VArr a props) ->
  isSimpleCallArgument n d =
  everyM (fun p =>
    computed <- get p "computed" ;;
    if truthy computed then Ret false
    else
      shorthand <- get p "shorthand" ;;
      if truthy shorthand then Ret true
      else
        value <- get p "value" ;;
        if truthy value then isSimpleCallArgument value (d + 2)
        else Ret false) props.
Proof.
  intros Hd Htype Hprops.
  rewrite isSimpleCallArgument_unfold by exact Hd.
  unfold isSimpleCallArgument_body. unfold andM at 1.
  known_type Htype. rewrite Hprops. reflexivity.
Qed.

(** C3. The depth costs of [isSimpleCallArgument] below the cutoff: a call,
    optional call or [new] expression is simple iff its callee is simple one
    level deeper and each argument two levels deeper; a member or optional
    member expression iff its object and its property are simple one level
    deeper; a template literal iff each interpolated expression is simple two
    levels deeper; an object expression iff each property is not computed and
    is shorthand or has a value that is simple two levels deeper; an array
    expression iff each element is [null] or simple two levels deeper. So
    [foo(a, b)] is simple at depth 0 and [foo(bar(baz(qux)))] is not. *)
Theorem isSimpleCallArgument_depth_costs :
  (forall n d t callee a args,
      d < 3 -> get n "type" = Ret (VStr t) ->
      In t ["CallExpression"; "OptionalCallExpression"; "NewExpression"] ->
      get n "callee" = Ret callee ->
      get n "arguments" = Ret (VArr a args) ->
      (isSimpleCallArgument n d = Ret true <->
       isSimpleCallArgument callee (d + 1) = Ret true
       /\ Forall (fun x => isSimpleCallArgument x (d + 2) = Ret true) args))
  /\ (forall n d t object property,
      d < 3 -> get n "type" = Ret (VStr t) ->
      In t ["MemberExpression"; "OptionalMemberExpression"] ->
      get n "object" = Ret object ->
      get n "property" = Ret property ->
      (isSimpleCallArgument n d = Ret true <->
       isSimpleCallArgument object (d + 1) = Ret true
       /\ isSimpleCallArgument property (d + 1) = Ret true))
  /\ (forall n d a exprs,
      d < 3 -> get n "type" = Ret (VStr "TemplateLiteral") ->
      get n "expressions" = Ret (VArr a exprs) ->
      (isSimpleCallArgument n d = Ret true <->
       Forall (fun x => isSimpleCallArgument x (d + 2) = Ret true) exprs))
  /\ (forall n d a props,
      d < 3 -> get n "type" = Ret (VStr "ObjectExpression") ->
      get n "properties" = Ret (VArr a props) ->
      (isSimpleCallArgument n d = Ret true <->
       Forall (fun p =>
         nullish p = false
         /\ truthy (field p "computed") = false
         /\ (truthy (field p "shorthand") = true
             \/ (truthy (field p "value") = true
                 /\ isSimpleCallArgument (field p "value") (d + 2) = Ret true)))
         props))
  /\ (forall n d a elems,
      d < 3 -> get n "type" = Ret (VStr "ArrayExpression") ->
      get n "elements" = Ret (VArr a elems) ->
      (isSimpleCallArgument n d = Ret true <->
       Forall (fun x => x = VNull
                        \/ isSimpleCallArgument x (d + 2) = Ret true) elems))
  /\ isSimpleCallArgument fooAB 0 = Ret true
  /\ isSimpleCallArgument fooBarBazQux 0 = Ret false.
Proof.
  repeat apply conj.
  - intros n d t callee a args Hd Htype Hkind Hcallee Hargs.
    rewrite (isSimpleCallArgument_call n d t callee a args) by assumption.
    rewrite andM_true, everyM_true. reflexivity.
  - intros n d t object property Hd Htype Hkind Hobject Hproperty.
    rewrite (isSimpleCallArgument_member n d t object property) by assumption.
    apply andM_true.
  - intros n d a exprs Hd Htype Hexprs.
    rewrite (isSimpleCallArgument_template n d a exprs) by assumption.
    apply everyM_true.
  - intros n d a props Hd Htype Hprops.
    rewrite (isSimpleCallArgument_object n d a props) by assumption.
    rewrite everyM_true. apply Forall_equiv. intros p. split.
    + intros H. destruct (nullish p) eqn:Hp.
      { destruct p; simpl in Hp; discriminate. }
      rewrite !(get_field p) in H by exact Hp. cbn [bind] in H.
      split; [reflexivity|].
      destruct (truthy (field p "computed")); [discriminate|].
      split; [reflexivity|].
      destruct (truthy (field p "shorthand")); [left; reflexivity|].
      destruct (truthy (field p "value")); [|discriminate].
      right. split; [reflexivity | exact H].
    + intros (Hp & Hcomputed & Hvalue).
      rewrite !(get_field p) by exact Hp. cbn [bind].
      rewrite Hcomputed.
      destruct Hvalue as [-> | [Hvalue Hsimple]]; [reflexivity|].
      rewrite Hvalue, Hsimple. destruct (truthy (field p "shorthand")); reflexivity.
  - intros n d a elems Hd Htype Helems.
    rewrite (isSimpleCallArgument_array n d a elems) by assumption.
    rewrite everyM_true. apply Forall_equiv. intros x.
    destruct (strict_eq x VNull) eqn:E.
    + apply strict_eq_null in E. tauto.
    + split; [tauto|]. intros [-> | H]; [discriminate | exact H].
  - reflexivity.
  - reflexivity.
Qed.

Lemma isSimpleCallArgument_depth_costs_witness :
  isSimpleCallArgument fooAB 0 = Ret true <->
  isSimpleCallArgument (identifier 3 "foo") (0 + 1) = Ret true
  /\ Forall (fun x => isSimpleCallArgument x (0 + 2) = Ret true)
       [identifier 4 "a"; identifier 5 "b"].
Proof.
  apply (proj1 isSimpleCallArgument_depth_costs fooAB 0 "CallExpression"
           (identifier 3 "foo") 2%nat [identifier 4 "a"; identifier 5 "b"]).
  - lia.
  - reflexivity.
  - simpl. tauto.
  - reflexivity.
  - reflexivity.
Defined.

(** ** Test calls *)

Lemma is_node_not_nullish (v : value) : is_node v = true -> nullish v = false.
Proof. destruct v; simpl; intros H; try discriminate; reflexivity. Qed.


(** Reads on nodes known to be defined, and the kind tests on them. *)
Ltac reads :=
  repeat (match goal with
          | H : is_node ?v = true |- context [get ?v ?k] =>
              rewrite (get_field v k) by (apply is_node_not_nullish; exact H)
          | H : nullish ?v = false |- context [get ?v ?k] =>
              rewrite (get_field v k) by exact H
          end;
          cbn [bind]).

Ltac kinds :=
  unfold kind_in, kind in *;
  cbn [is_one_of existsb] in *;
  rewrite ?orb_false_r in *.




Lemma isFunctionOrArrowExpression_eq (arg : value) :
  nullish arg = false ->
  isFunctionOrArrowExpression arg =
  Ret (kind_in arg ["FunctionExpression"; "ArrowFunctionExpression"]).
Proof.
  intros H. unfold isFunctionOrArrowExpression. reads. kinds. reflexivity.
Qed.

Lemma isAngularTestWrapper_eq (arg : value) :
  is_node arg = true ->
  (kind_in arg ["CallExpression"; "OptionalCallExpression"] = true ->
   is_node (field arg "callee") = true) ->
  isAngularTestWrapper arg = Ret (asyncWrapper arg).
Proof.
  intros Harg Hcallee. unfold isAngularTestWrapper, asyncWrapper. reads. kinds.
  destruct (is_str (field arg "type") "CallExpression"
            || is_str (field arg "type") "OptionalCallExpression");
    [|reflexivity].
  specialize (Hcallee eq_refl). reads.
  destruct (is_str (field (field arg "callee") "type") "Identifier");
    [|reflexivity].
  reads. cbn [andb]. rewrite !orb_assoc. reflexivity.
Qed.




(** The call [isTestCall(parent)] never recurses: whatever stands for the
    recursive call in it, the answer is the same. *)
Lemma isTestCall_of_parent_no_recursion (self : value -> outcome bool)
  (n : value) :
  isTestCall_body self n VUndefined = isTestCall_of_parent n.
Proof.
  unfold isTestCall_of_parent, isTestCall_body, andM. cbn [truthy].
  apply bind_ext; intros type. destruct (negb _); [reflexivity|].
  apply bind_ext; intros arguments. apply bind_ext; intros len.
  destruct (strict_eq len (VNum 1)); [|reflexivity].
  destruct (isAngularTestWrapper n) as [[|]|]; reflexivity.
Qed.





(** ** The blank-line scanner *)

Lemma scanBlankLines_second_newline (s : string) :
  match skipSpaces s with
  | String c _ => (c =? newline)%char
  | EmptyString => false
  end = true ->
  scanBlankLines s 1 true = true.
Proof.
  induction s as [|c s IH]; simpl; intros H; [discriminate|].
  destruct (c =? " ")%char eqn:Espace.
  - apply Ascii.eqb_eq in Espace. subst c. simpl. apply IH, H.
  - destruct (c =? "{")%char eqn:Eopen.
    { apply Ascii.eqb_eq in Eopen. subst c. discriminate H. }
    destruct (c =? "}")%char eqn:Eclose.
    { apply Ascii.eqb_eq in Eclose. subst c. discriminate H. }
    rewrite H. reflexivity.
Qed.

(** X25. The scanner misses no blank line: wherever two newlines at depth 1
    are separated by spaces only, it answers true. *)
Lemma scanBlankLines_complete (s : string) :
  forall (depth : Z) (newlineFound : bool),
    blankLineAtDepthOne s depth = true ->
    scanBlankLines s depth newlineFound = true.
Proof.
  induction s as [|c s IH]; simpl; intros depth newlineFound H;
    [discriminate|].
  destruct (c =? "{")%char eqn:Eopen.
  { apply Ascii.eqb_eq in Eopen. subst c. simpl in H. apply IH, H. }
  destruct (c =? "}")%char eqn:Eclose.
  { apply Ascii.eqb_eq in Eclose. subst c. simpl in H. apply IH, H. }
  destruct (depth =? 1) eqn:Edepth.
  - destruct (c =? newline)%char eqn:Enewline; cbn [andb orb] in H |- *.
    + destruct newlineFound; [reflexivity|]. cbn [andb].
      apply orb_prop in H as [H | H].
      * apply Z.eqb_eq in Edepth. subst depth.
        apply scanBlankLines_second_newline, H.
      * apply IH, H.
    + destruct (negb (c =? " ")%char); apply IH, H.
  - rewrite andb_false_r in H. cbn [andb orb] in H. apply IH, H.
Qed.

(** C5. The claim asks for an equivalence. One direction holds (see
    [scanBlankLines_complete]); the other does not: on a block whose first
    statement is a nested block the scanner answers true although the text has
    no blank line at all, since neither the braces nor the text inside them
    reset [newlineFound]. The two texts of the claim come out as it says. *)
Theorem hasTopLevelBlankLines_on_nested_block :
  hasTopLevelBlankLines blockWithNestedBlock = true /\
  hasBlankLineAtTopLevel blockWithNestedBlock = false /\
  hasTopLevelBlankLines blockWithBlankLine = true /\
  hasTopLevelBlankLines blockWithNestedBlankLine = false.
Proof. repeat split; reflexivity. Qed.

(** ** [isLastStatement] *)

Lemma filterM_defined (f : value -> outcome bool) (g : value -> bool)
  (xs : list value) :
  Forall (fun x => f x = Ret (g x)) xs ->
  filterM f xs = Ret (List.filter g xs).
Proof.
  induction 1 as [|x xs Hx _ IH]; simpl; [reflexivity|].
  rewrite Hx, IH. simpl. reflexivity.
Qed.

(** C7, as stated, fails where the statement container is a single
    statement: the parent of the consequent of [if (c) x;] has no [body], its
    [consequent] is a node and not an array, and the call of [filter] on it
    raises a [TypeError]. *)
Lemma isLastStatement_throws_on_if_consequent :
  getParentNode ifConsequentPath = ifStatement /\
  statementContainer ifStatement
  = Ret (expressionStatement 3 (identifier 4 "x")) /\
  isLastStatement ifConsequentPath = Throw TypeError.
Proof. repeat split; reflexivity. Qed.

(** C7, amended. [isLastStatement] returns true when the path has no
    parent. When the parent's statement container ([body], or else
    [consequent]) is an array of nodes it returns a definite boolean: whether
    the last of its non-empty statements is the focus node. When the
    container is anything but an array, a single-statement consequent
    included, it raises a [TypeError]. *)
Theorem isLastStatement_outcomes (path : Path) :
  (truthy (getParentNode path) = false -> isLastStatement path = Ret true)
  /\ (forall (a : addr) (stmts : list value),
        truthy (getParentNode path) = true ->
        statementContainer (getParentNode path) = Ret (VArr a stmts) ->
        Forall (fun stmt => nullish stmt = false) stmts ->
        isLastStatement path =
        Ret (strict_eq
               (last (List.filter
                        (fun stmt => negb (kind_in stmt ["EmptyStatement"]))
                        stmts) VUndefined)
               (getValue path)))
  /\ (forall (container : value),
        truthy (getParentNode path) = true ->
        statementContainer (getParentNode path) = Ret container ->
        is_array container = false ->
        isLastStatement path = Throw TypeError).
Proof.
  unfold isLastStatement. repeat apply conj.
  - intros ->. reflexivity.
  - intros a stmts -> -> Hstmts. cbn [negb bind filter].
    rewrite (filterM_defined _
               (fun stmt => negb (kind_in stmt ["EmptyStatement"]))).
    + reflexivity.
    + eapply Forall_impl; [|exact Hstmts]. intros stmt Hstmt. cbn beta in *.
      rewrite (get_field stmt) by exact Hstmt. cbn [bind]. kinds. reflexivity.
  - intros container -> -> Harray. cbn [negb bind].
    destruct container; try discriminate Harray; reflexivity.
Qed.

Lemma isLastStatement_outcomes_witness :
  isLastStatement switchCasePath =
  Ret (strict_eq
         (last (List.filter
                  (fun stmt => negb (kind_in stmt ["EmptyStatement"]))
                  [expressionStatement 3 (identifier 4 "x");
                   node 6 "EmptyStatement" []]) VUndefined)
         (getValue switchCasePath)).
Proof.
  apply (proj1 (proj2 (isLastStatement_outcomes switchCasePath)) 5%nat).
  - reflexivity.
  - reflexivity.
  - repeat constructor.
Defined.

(** In [case c: x; ;] the statement [x;] is the last one that is not empty. *)
Example isLastStatement_of_switch_case :
  isLastStatement switchCasePath = Ret true.
Proof. reflexivity. Qed.

(** ** Simple template literals *)

Lemma is_str_true (v : value) (s : string) : is_str v s = true -> v = VStr s.
Proof.
  destruct v; simpl; intros H; try discriminate.
  apply String.eqb_eq in H. subst. reflexivity.
Qed.

Lemma size_assoc (k : string) (ps : list (string * value)) :
  (size (assoc k ps) <= list_sum (map (fun p => size (snd p)) ps))%nat.
Proof.
  induction ps as [|[k' v] ps IH]; simpl; [lia|].
  destruct (k =? k')%string; lia.
Qed.

Lemma size_get (v x : value) (k : string) :
  is_node v = true -> get v k = Ret x -> (size x < size v)%nat.
Proof.
  destruct v; simpl; intros Hv H; try discriminate.
  injection H as <-. pose proof (size_assoc k props). lia.
Qed.

Lemma size_elements (x : value) (xs : list value) :
  In x xs -> (size x <= list_sum (map size xs))%nat.
Proof.
  induction xs as [|y xs IH]; simpl; intros H; [contradiction|].
  destruct H as [-> | H]; [lia | apply IH in H; lia].
Qed.

Lemma is_one_of_undefined (kinds : list string) :
  is_one_of VUndefined kinds = false.
Proof. unfold is_one_of. induction kinds; simpl; auto. Qed.

(** Only an object has a kind. *)
Lemma kind_is_node (v type : value) (kinds : list string) :
  get v "type" = Ret type -> is_one_of type kinds = true -> is_node v = true.
Proof.
  intros H Hk. pose proof (is_one_of_undefined kinds) as Hundef.
  destruct v; simpl in H; try discriminate; try reflexivity;
    injection H as <-; rewrite Hundef in Hk; discriminate.
Qed.

Lemma memberChainLoop_sound (fuel : nat) :
  forall head, memberChainLoop fuel head = Ret true -> acceptedChain head.
Proof.
  induction fuel as [|fuel IH]; intros head; cbn [memberChainLoop].
  - destruct (get head "type") as [type|] eqn:Etype; cbn [bind];
      [|discriminate].
    destruct (is_str type "MemberExpression"
              || is_str type "OptionalMemberExpression"); [discriminate|].
    intros H. injection H as H. apply (accepted_root head type Etype).
    cbn [is_one_of existsb]. rewrite orb_false_r. exact H.
  - destruct (get head "type") as [type|] eqn:Etype; cbn [bind];
      [|discriminate].
    destruct (is_str type "MemberExpression"
              || is_str type "OptionalMemberExpression") eqn:Emember.
    + destruct (get head "property") as [property|] eqn:Eproperty;
        cbn [bind]; [|discriminate].
      destruct (get property "type") as [ptype|] eqn:Eptype;
        cbn [bind]; [|discriminate].
      destruct (negb (is_str ptype "Identifier")
                && negb (is_str ptype "Literal")
                && negb (is_str ptype "StringLiteral")
                && negb (is_str ptype "NumericLiteral")) eqn:Ekey;
        [discriminate|].
      destruct (get head "object") as [object|] eqn:Eobject;
        cbn [bind]; [|discriminate].
      destruct (get object "comments") as [comments|] eqn:Ecomments;
        cbn [bind]; [|discriminate].
      destruct (truthy comments) eqn:Etruthy; [discriminate|].
      intros H.
      apply (accepted_member head type property ptype object comments);
        auto.
      * cbn [is_one_of existsb]. rewrite orb_false_r. exact Emember.
      * cbn [is_one_of existsb]. rewrite orb_false_r.
        destruct (is_str ptype "Identifier"), (is_str ptype "Literal"),
          (is_str ptype "StringLiteral"), (is_str ptype "NumericLiteral");
          try reflexivity; discriminate Ekey.
    + intros H. injection H as H. apply (accepted_root head type Etype).
      cbn [is_one_of existsb]. rewrite orb_false_r. exact H.
Qed.

(** The loop reaches the root of every chain: a bound of [size head]
    iterations is never exhausted. *)
Lemma memberChainLoop_complete (head : value) :
  acceptedChain head ->
  forall fuel, (size head <= fuel)%nat -> memberChainLoop fuel head = Ret true.
Proof.
  induction 1 as [head type Htype Hroot
                 |head type property ptype object comments Htype Hmember
                    Hproperty Hptype Hkey Hobject Hcomments Htruthy _ IH];
    intros fuel Hfuel.
  - cbn [is_one_of existsb] in Hroot. rewrite orb_false_r in Hroot.
    assert (Hnot : is_str type "MemberExpression"
                   || is_str type "OptionalMemberExpression" = false).
    { apply orb_prop in Hroot as [H | H]; apply is_str_true in H; subst;
        reflexivity. }
    destruct fuel; cbn [memberChainLoop]; rewrite Htype; cbn [bind];
      rewrite Hnot, Hroot; reflexivity.
  - pose proof (kind_is_node _ _ _ Htype Hmember) as Hnode.
    pose proof (size_get _ _ _ Hnode Hobject) as Hsize.
    cbn [is_one_of existsb] in Hmember, Hkey.
    rewrite orb_false_r in Hmember, Hkey.
    destruct fuel as [|fuel]; [lia|]. cbn [memberChainLoop].
    rewrite Htype. cbn [bind]. rewrite Hmember, Hproperty. cbn [bind].
    rewrite Hptype. cbn [bind].
    replace (negb (is_str ptype "Identifier")
             && negb (is_str ptype "Literal")
             && negb (is_str ptype "StringLiteral")
             && negb (is_str ptype "NumericLiteral")) with false.
    + rewrite Hobject. cbn [bind]. rewrite Hcomments. cbn [bind].
      rewrite Htruthy. apply IH. lia.
    + destruct (is_str ptype "Identifier"), (is_str ptype "Literal"),
        (is_str ptype "StringLiteral"), (is_str ptype "NumericLiteral");
        try reflexivity; discriminate Hkey.
Qed.

(** What [isSimpleTemplateLiteral] asks of one interpolated expression. *)
Lemma simple_interpolation_test (expr : value) :
  (comments <- get expr "comments" ;;
   if truthy comments then Ret false
   else
     type <- get expr "type" ;;
     if is_str type "Identifier" || is_str type "ThisExpression" then Ret true
     else if is_str type "MemberExpression"
             || is_str type "OptionalMemberExpression" then
       memberChainLoop (size expr) expr
     else Ret false) = Ret true
  <-> acceptedInterpolation expr.
Proof.
  unfold acceptedInterpolation. split.
  - destruct (get expr "comments") as [comments|] eqn:Ecomments;
      cbn [bind]; [|discriminate].
    destruct (truthy comments) eqn:Etruthy; [discriminate|].
    destruct (get expr "type") as [type|] eqn:Etype; cbn [bind];
      [|discriminate].
    intros H. exists comments. repeat split; auto.
    destruct (is_str type "Identifier" || is_str type "ThisExpression")
      eqn:Eroot.
    + apply (accepted_root expr type Etype).
      cbn [is_one_of existsb]. rewrite orb_false_r. exact Eroot.
    + destruct (is_str type "MemberExpression"
                || is_str type "OptionalMemberExpression");
        [|discriminate].
      apply (memberChainLoop_sound _ _ H).
  - intros (comments & Hcomments & Htruthy & Hchain).
    rewrite Hcomments. cbn [bind]. rewrite Htruthy.
    pose proof (memberChainLoop_complete expr Hchain (size expr) (le_n _))
      as Hloop.
    destruct Hchain as [head type Htype Hroot
                       |head type ? ? ? ? Htype Hmember];
      rewrite Htype; cbn [bind];
      cbn [is_one_of existsb] in *; rewrite orb_false_r in *.
    + rewrite Hroot. reflexivity.
    + rewrite Hmember.
      destruct (is_str type "Identifier" || is_str type "ThisExpression");
        [reflexivity | exact Hloop].
Qed.

(** What the function accepts. A template literal with no interpolation is
    refused. One with interpolations is accepted iff each interpolated
    expression has no truthy [comments] and is an identifier, [this], or a
    chain of member or optional-member accesses, each through an identifier
    or literal key, rooted at an identifier or [this], with no truthy
    [comments] on any object along the chain. *)
Theorem isSimpleTemplateLiteral_accepts (n : value) (a : addr)
  (exprs : list value) :
  get n "expressions" = Ret (VArr a exprs) ->
  (exprs = [] -> isSimpleTemplateLiteral n = Ret false)
  /\ (exprs <> [] ->
      (isSimpleTemplateLiteral n = Ret true
       <-> Forall acceptedInterpolation exprs)).
Proof.
  intros Hexprs. unfold isSimpleTemplateLiteral. rewrite Hexprs.
  cbn [bind]. rewrite get_length_arr. cbn [bind]. split.
  - intros ->. reflexivity.
  - intros Hnonempty. destruct exprs as [|expr exprs]; [contradiction|].
    cbn [List.length Z.of_nat strict_eq Z.eqb every].
    rewrite everyM_true. apply Forall_equiv. intros e.
    apply simple_interpolation_test.
Qed.

Lemma isSimpleTemplateLiteral_accepts_witness :
  isSimpleTemplateLiteral (templateLiteral 1 []) = Ret false
  /\ (isSimpleTemplateLiteral templateOfChain = Ret true
      <-> Forall acceptedInterpolation
            [memberExpression 4
               (memberExpression 5 (identifier 6 "a") (identifier 7 "b"))
               (identifier 8 "c")]).
Proof.
  split.
  - apply (proj1 (isSimpleTemplateLiteral_accepts (templateLiteral 1 []) 2%nat []
                    eq_refl)).
    reflexivity.
  - apply (proj2 (isSimpleTemplateLiteral_accepts templateOfChain 2%nat _
                    eq_refl)).
    discriminate.
Defined.

Example isSimpleTemplateLiteral_of_chain :
  isSimpleTemplateLiteral templateOfChain = Ret true.
Proof. reflexivity. Qed.

(** C8. The claim asks that no comment be attached to any node visited along
    a chain. The loop visits the property of every access, but asks it for
    its kind only: on [`${a./*c*/b}`], where the comment is attached to the
    property [b], the expression is not simple in the words of the claim,
    and [isSimpleTemplateLiteral] returns true. The same comment attached to
    the object [a] is refused, as the comment in the source says comments
    are; without the comment, the claim and the function both accept. *)
Theorem isSimpleTemplateLiteral_misses_property_comments :
  commentAttached (field accessWithCommentedProperty "property") = true
  /\ ~ simpleInterpolation accessWithCommentedProperty
  /\ isSimpleTemplateLiteral templateOfCommentedProperty = Ret true
  /\ isSimpleTemplateLiteral templateOfCommentedObject = Ret false
  /\ simpleInterpolation
       (memberExpression 4 (identifier 5 "a") (identifier 6 "b"))
  /\ isSimpleTemplateLiteral templateOfAccess = Ret true.
Proof.
  split; [reflexivity|]. split.
  - intros H.
    inversion H as [head Hkind Hfree
                   |head Hkind Hkey Hfree Hproperty Hobject].
    + vm_compute in Hkind. discriminate Hkind.
    + vm_compute in Hproperty. discriminate Hproperty.
  - repeat split; try reflexivity.
    apply chain_member; try reflexivity.
    apply chain_root; reflexivity.
Qed.

(** ** Literal-like values *)

Lemma orM_ext_r (a b1 b2 : outcome bool) : b1 = b2 -> a ||| b1 = a ||| b2.
Proof. intros ->. reflexivity. Qed.

Lemma andM_ext_r (a b1 b2 : outcome bool) : b1 = b2 -> a &&& b1 = a &&& b2.
Proof. intros ->. reflexivity. Qed.

(** The body calls [self] on proper parts of the node only. *)
Lemma isLiteralLikeValue_body_ext (s1 s2 : value -> outcome bool) (n : value) :
  (forall x, (size x < size n)%nat -> s1 x = s2 x) ->
  isLiteralLikeValue_body s1 n = isLiteralLikeValue_body s2 n.
Proof.
  intros H. destruct n as [| | | | | |a ps]; try reflexivity.
  unfold isLiteralLikeValue_body.
  cbn [get bind] in *.
  assert (Hfield : forall k, (size (assoc k ps) < size (VObj a ps))%nat).
  { intros k. pose proof (size_assoc k ps). simpl. lia. }
  f_equal; [f_equal|]; apply andM_ext_r.
  - pose proof (Hfield "elements") as Helements.
    destruct (assoc "elements" ps) as [| | | | |b xs|]; try reflexivity.
    cbn [every]. apply everyM_ext_in. intros x Hx.
    apply andM_ext_r, H. apply size_elements in Hx.
    simpl in Helements |- *. lia.
  - pose proof (Hfield "properties") as Hproperties.
    destruct (assoc "properties" ps) as [| | | | |b props|]; try reflexivity.
    cbn [every]. apply everyM_ext_in. intros p Hp.
    apply size_elements in Hp. simpl in Hproperties.
    destruct p as [| | | | | |c pps]; try reflexivity.
    cbn [get bind]. destruct (truthy (assoc "computed" pps)); [reflexivity|].
    destruct (truthy (assoc "value" pps)); [|reflexivity].
    apply H. pose proof (size_assoc "value" pps). simpl in Hp |- *. lia.
Qed.

(** The recursion bound never runs out: any bound above [size n] gives the
    same answer. *)
Lemma isLiteralLikeValue_fuel_enough (f1 : nat) :
  forall (f2 : nat) (n : value),
    (size n < f1)%nat -> (size n < f2)%nat ->
    isLiteralLikeValue_fuel f1 n = isLiteralLikeValue_fuel f2 n.
Proof.
  induction f1 as [|f1 IH]; intros f2 n H1 H2; [lia|].
  destruct f2 as [|f2]; [lia|]. cbn [isLiteralLikeValue_fuel].
  apply isLiteralLikeValue_body_ext. intros x Hx. apply IH; lia.
Qed.

Lemma isLiteralLikeValue_unfold (n : value) :
  isLiteralLikeValue n = isLiteralLikeValue_body isLiteralLikeValue n.
Proof.
  unfold isLiteralLikeValue at 1. cbn [isLiteralLikeValue_fuel].
  apply isLiteralLikeValue_body_ext. intros x Hx.
  apply isLiteralLikeValue_fuel_enough; lia.
Qed.

Lemma isLiteralLikeValue_array (n : value) (a : addr) (xs : list value) :
  get n "type" = Ret (VStr "ArrayExpression") ->
  get n "elements" = Ret (VArr a xs) ->
  isLiteralLikeValue n =
  everyM (fun element =>
            Ret (negb (strict_eq element VNull))
            &&& isLiteralLikeValue element) xs.
Proof.
  intros Htype Helements. rewrite isLiteralLikeValue_unfold.
  unfold isLiteralLikeValue_body, isLiteral, orM, andM.
  known_type Htype. rewrite Helements. cbn [bind every].
  destruct (everyM _ xs) as [[|]|]; reflexivity.
Qed.

Lemma isLiteralLikeValue_object (n : value) (a : addr) (props : list value) :
  get n "type" = Ret (VStr "ObjectExpression") ->
  get n "properties" = Ret (VArr a props) ->
  isLiteralLikeValue n =
  everyM (fun property =>
            computed <- get property "computed" ;;
            if truthy computed then Ret false
            else
              value <- get property "value" ;;
              if truthy value then isLiteralLikeValue value
              else Ret false) props.
Proof.
  intros Htype Hprops. rewrite isLiteralLikeValue_unfold.
  unfold isLiteralLikeValue_body, isLiteral, orM, andM.
  known_type Htype. rewrite Hprops. cbn [bind every]. reflexivity.
Qed.

Lemma isLiteralLikeValue_identifier (n : value) (s : string) :
  get n "type" = Ret (VStr "Identifier") ->
  get n "name" = Ret (VStr s) ->
  screamingSnakeRe s = true ->
  isLiteralLikeValue n = Ret true.
Proof.
  intros Htype Hname Hre. rewrite isLiteralLikeValue_unfold.
  unfold isLiteralLikeValue_body, isLiteral, orM, andM.
  known_type Htype. rewrite Hname. cbn [bind regexp_test to_string].
  rewrite Hre. reflexivity.
Qed.

(** An object expression with a computed key is never literal-like. *)
Lemma computed_key_not_literal_like (obj : value) (a : addr)
  (props : list value) (p : value) (r : bool) :
  get obj "type" = Ret (VStr "ObjectExpression") ->
  get obj "properties" = Ret (VArr a props) ->
  In p props ->
  truthy (field p "computed") = true ->
  isLiteralLikeValue obj = Ret r ->
  r = false.
Proof.
  intros Htype Hprops Hp Hcomputed.
  rewrite (isLiteralLikeValue_object obj a props Htype Hprops).
  destruct r; [|reflexivity]. rewrite everyM_true, Forall_forall.
  intros Hall. specialize (Hall p Hp). cbn beta in Hall.
  destruct (nullish p) eqn:Enull.
  - destruct p; simpl in Enull; discriminate.
  - rewrite (get_field p) in Hall by exact Enull. cbn [bind] in Hall.
    rewrite Hcomputed in Hall. discriminate.
Qed.

(** A hole makes [every] answer false, as long as the elements before it
    are judged without an exception. *)
Lemma every_element_with_hole (xs : list value) :
  In VNull xs ->
  Forall (fun x => x = VNull \/ exists r, isLiteralLikeValue x = Ret r) xs ->
  everyM (fun element =>
            Ret (negb (strict_eq element VNull))
            &&& isLiteralLikeValue element) xs = Ret false.
Proof.
  induction xs as [|x xs IH]; intros Hin Hall; [contradiction|].
  inversion Hall as [|? ? Hx Hxs]; subst. cbn [everyM]. unfold andM at 1.
  cbn [bind]. destruct (strict_eq x VNull) eqn:Enull; [reflexivity|].
  cbn [negb]. destruct Hx as [-> | [r Hr]]; [simpl in Enull; discriminate|].
  rewrite Hr. cbn [bind]. destruct r; [|reflexivity].
  apply IH; [|exact Hxs].
  destruct Hin as [-> | Hin]; [simpl in Enull; discriminate | exact Hin].
Qed.

(** C9. Literal-likeness under nesting: an array expression whose elements
    are all literal-like is literal-like; putting in the place of one element
    an object expression that has a computed-key property (and on which the
    classifier returns) makes the object, and with it the whole array, not
    literal-like; and an identifier in screaming snake case is literal-like. *)
Theorem literal_likeness_under_nesting :
  (forall (n : value) (a : addr) (xs : list value),
      get n "type" = Ret (VStr "ArrayExpression") ->
      get n "elements" = Ret (VArr a xs) ->
      Forall (fun x => isLiteralLikeValue x = Ret true) xs ->
      isLiteralLikeValue n = Ret true)
  /\ (forall (n : value) (a : addr) (pre post : list value) (obj : value)
             (b : addr) (props : list value) (p : value) (r : bool),
      get n "type" = Ret (VStr "ArrayExpression") ->
      get n "elements" = Ret (VArr a (pre ++ obj :: post)) ->
      Forall (fun x => isLiteralLikeValue x = Ret true) pre ->
      get obj "type" = Ret (VStr "ObjectExpression") ->
      get obj "properties" = Ret (VArr b props) ->
      In p props ->
      truthy (field p "computed") = true ->
      isLiteralLikeValue obj = Ret r ->
      isLiteralLikeValue obj = Ret false /\ isLiteralLikeValue n = Ret false)
  /\ (forall (n : value) (s : string),
      get n "type" = Ret (VStr "Identifier") ->
      get n "name" = Ret (VStr s) ->
      screamingSnakeRe s = true ->
      isLiteralLikeValue n = Ret true).
Proof.
  repeat apply conj.
  - intros n a xs Htype Helements Hall.
    rewrite (isLiteralLikeValue_array n a xs Htype Helements).
    apply everyM_true. eapply Forall_impl; [|exact Hall].
    intros x Hx. cbn beta in *. rewrite Hx.
    destruct x; try reflexivity.
    rewrite isLiteralLikeValue_unfold in Hx. discriminate Hx.
  - intros n a pre post obj b props p r Htype Helements Hpre Hobj Hprops Hp
      Hcomputed Hr.
    pose proof (computed_key_not_literal_like obj b props p r Hobj Hprops Hp
                  Hcomputed Hr) as ->.
    split; [exact Hr|].
    rewrite (isLiteralLikeValue_array n a _ Htype Helements).
    apply everyM_false_at.
    + eapply Forall_impl; [|exact Hpre].
      intros x Hx. cbn beta in *. rewrite Hx.
      destruct x; try reflexivity.
      rewrite isLiteralLikeValue_unfold in Hx. discriminate Hx.
    + rewrite Hr. destruct obj; try discriminate Hobj; reflexivity.
  - exact isLiteralLikeValue_identifier.
Qed.

Lemma literal_likeness_under_nesting_witness :
  isLiteralLikeValue literalArray = Ret true
  /\ (isLiteralLikeValue computedKeyObject = Ret false
      /\ isLiteralLikeValue arrayWithComputedKey = Ret false)
  /\ isLiteralLikeValue (identifier 4 "MAX_SIZE") = Ret true.
Proof.
  repeat apply conj.
  - apply (proj1 literal_likeness_under_nesting literalArray 2%nat
             [numericLiteral 3 1; identifier 4 "MAX_SIZE"]).
    + reflexivity.
    + reflexivity.
    + repeat constructor.
  - apply (proj1 (proj2 literal_likeness_under_nesting)
             arrayWithComputedKey 2%nat [numericLiteral 3 1] []
             computedKeyObject 6%nat [computedKeyProperty]
             computedKeyProperty false);
      try reflexivity.
    + repeat constructor.
    + simpl. tauto.
  - apply (proj1 (proj2 literal_likeness_under_nesting)
             arrayWithComputedKey 2%nat [numericLiteral 3 1] []
             computedKeyObject 6%nat [computedKeyProperty]
             computedKeyProperty false);
      try reflexivity.
    + repeat constructor.
    + simpl. tauto.
  - apply (proj2 (proj2 literal_likeness_under_nesting)
             (identifier 4 "MAX_SIZE") "MAX_SIZE"); reflexivity.
Defined.

(** C10. An array expression with a hole (a [null] entry among its
    elements) is not literal-like, whatever the classifier answers on its
    other elements; an array expression with no elements and an object
    expression with no properties are literal-like. *)
Theorem literal_likeness_of_holes_and_empty_literals :
  (forall (n : value) (a : addr) (xs : list value),
      get n "type" = Ret (VStr "ArrayExpression") ->
      get n "elements" = Ret (VArr a xs) ->
      In VNull xs ->
      Forall (fun x => x = VNull \/ exists r, isLiteralLikeValue x = Ret r) xs ->
      isLiteralLikeValue n = Ret false)
  /\ (forall (n : value) (a : addr),
      get n "type" = Ret (VStr "ArrayExpression") ->
      get n "elements" = Ret (VArr a []) ->
      isLiteralLikeValue n = Ret true)
  /\ (forall (n : value) (a : addr),
      get n "type" = Ret (VStr "ObjectExpression") ->
      get n "properties" = Ret (VArr a []) ->
      isLiteralLikeValue n = Ret true).
Proof.
  repeat apply conj.
  - intros n a xs Htype Helements Hin Hall.
    rewrite (isLiteralLikeValue_array n a xs Htype Helements).
    apply every_element_with_hole; assumption.
  - intros n a Htype Helements.
    rewrite (isLiteralLikeValue_array n a [] Htype Helements). reflexivity.
  - intros n a Htype Hprops.
    rewrite (isLiteralLikeValue_object n a [] Htype Hprops). reflexivity.
Qed.

Lemma literal_likeness_of_holes_and_empty_literals_witness :
  isLiteralLikeValue arrayWithHole = Ret false
  /\ isLiteralLikeValue (arrayExpression 1 []) = Ret true
  /\ isLiteralLikeValue (objectExpression 1 []) = Ret true.
Proof.
  repeat apply conj.
  - apply (proj1 literal_likeness_of_holes_and_empty_literals arrayWithHole
             2%nat [numericLiteral 3 1; VNull; numericLiteral 4 2]).
    + reflexivity.
    + reflexivity.
    + simpl. tauto.
    + apply Forall_cons; [right; exists true; reflexivity|].
      apply Forall_cons; [left; reflexivity|].
      apply Forall_cons; [right; exists true; reflexivity|].
      apply Forall_nil.
  - apply (proj1 (proj2 literal_likeness_of_holes_and_empty_literals)
             (arrayExpression 1 []) 2%nat); reflexivity.
  - apply (proj2 (proj2 literal_likeness_of_holes_and_empty_literals)
             (objectExpression 1 []) 2%nat); reflexivity.
Defined.

Lemma everyM_returns (f : value -> outcome bool) (xs : list value) :
  Forall (fun x => exists r, f x = Ret r) xs -> exists r, everyM f xs = Ret r.
Proof.
  induction 1 as [|x xs [r Hr] _ [r' IH]]; simpl.
  - exists true. reflexivity.
  - rewrite Hr. simpl. destruct r; [exists r'; exact IH | exists false; reflexivity].
Qed.

(** [isLiteralLikeValue] is total on well-formed trees: it returns a boolean
    and raises nothing. *)
Lemma isLiteralLikeValue_returns_below (k : nat) :
  forall n, (size n < k)%nat -> wellFormed n ->
            exists r, isLiteralLikeValue n = Ret r.
Proof.
  induction k as [|k IH]; intros n Hsize Hwf; [lia|].
  destruct Hwf as [a ps Hname Helements Hproperties].
  destruct (is_str (assoc "type" ps) "ArrayExpression") eqn:Earray.
  { destruct (Helements eq_refl) as (b & xs & Hxs & Hall).
    apply is_str_true in Earray.
    rewrite (isLiteralLikeValue_array (VObj a ps) b xs)
      by (cbn [get]; congruence).
    apply everyM_returns. rewrite Forall_forall in *. intros x Hx.
    destruct (Hall x Hx) as [-> | Hwf]; [exists false; reflexivity|].
    destruct (IH x) as [r Hr]; [|exact Hwf|].
    - pose proof (size_elements x xs Hx). pose proof (size_assoc "elements" ps).
      rewrite Hxs in *. simpl in *. lia.
    - rewrite Hr. unfold andM. cbn [bind]. destruct (negb _); eauto. }
  destruct (is_str (assoc "type" ps) "ObjectExpression") eqn:Eobject.
  { destruct (Hproperties eq_refl) as (b & props & Hprops & Hall).
    apply is_str_true in Eobject.
    rewrite (isLiteralLikeValue_object (VObj a ps) b props)
      by (cbn [get]; congruence).
    apply everyM_returns. rewrite Forall_forall in *. intros p Hp.
    destruct (Hall p Hp) as [Hnull Hvalue].
    rewrite !(get_field p) by exact Hnull. cbn [bind].
    destruct (truthy (field p "computed")); [eauto|].
    destruct (truthy (field p "value")) eqn:Etruthy; [|eauto].
    apply IH; [|apply Hvalue; reflexivity].
    assert (Hnode : is_node p = true).
    { destruct p; try discriminate; try reflexivity;
        unfold field in Etruthy; simpl in Etruthy; discriminate. }
    pose proof (size_get p (field p "value") "value" Hnode
                  (get_field p "value" Hnull)).
    pose proof (size_elements p props Hp).
    pose proof (size_assoc "properties" ps).
    rewrite Hprops in *. simpl in *. lia. }
  rewrite isLiteralLikeValue_unfold.
  unfold isLiteralLikeValue_body, isLiteral, orM, andM. cbn [get bind].
  rewrite Earray, Eobject. cbn [bind].
  destruct (is_one_of (assoc "type" ps) _); cbn [bind]; [eauto|].
  destruct (is_str (assoc "type" ps) "Identifier"); cbn [bind]; [|eauto].
  specialize (Hname eq_refl). destruct (assoc "name" ps); try discriminate.
  cbn [regexp_test to_string bind].
  destruct (screamingSnakeRe s); cbn [bind]; eauto.
Qed.

(** X24. On a well-formed tree (every array has [elements], every object
    has [properties], every identifier a string [name], and so on down the
    tree) [isLiteralLikeValue] returns a boolean: the bound of [size n]
    nested calls is enough, and no read fails. *)
Lemma isLiteralLikeValue_returns (n : value) :
  wellFormed n -> exists r, isLiteralLikeValue n = Ret r.
Proof. apply (isLiteralLikeValue_returns_below (S (size n))). lia. Qed.

(** The scanner is run on the slice of the original text that the block
    spans. *)
Example hasBlankLinesInBlock_of_function_body :
  slice (originalText functionText) 13
        (13 + Z.of_nat (String.length blockWithNestedBlock))
  = blockWithNestedBlock
  /\ hasBlankLinesInBlock (blockStatement 1 []) functionText = true.
Proof. split; reflexivity. Qed.

(** * Properties of the other classifiers *)

(** ** The leftmost walk *)

Lemma resolvers_agree_witness :
  follow sumAB [Name "left"] = getLeftSide sumAB.
Proof.
  apply (resolvers_agree [] sumAB eq_refl [Name "left"]); reflexivity.
Defined.

Lemma size_field (n : value) (k : string) :
  is_node n = true -> (size (field n k) < size n)%nat.
Proof.
  intros Hn. apply (size_get n (field n k) k Hn).
  apply get_field, is_node_not_nullish, Hn.
Qed.

Lemma size_index (e v : value) (i : nat) :
  index e i = Ret v -> (size v <= size e)%nat.
Proof.
  destruct e as [| | | |s|a xs|a ps]; simpl; intros H; try discriminate;
    injection H as <-; simpl; try lia.
  - destruct (String.get i s); simpl; lia.
  - destruct (Nat.lt_ge_cases i (List.length xs)) as [Hi | Hi].
    + pose proof (size_elements _ _ (nth_In xs VUndefined Hi)). lia.
    + rewrite nth_overflow by exact Hi. simpl. lia.
  - pose proof (size_assoc (index_key i) ps). lia.
Qed.

(** Off an object every left-side field reads as [undefined]. *)
Lemma left_side_field_off_object (n : value) (k : string) :
  is_node n = false -> In k leftSideFields -> field n k = VUndefined.
Proof.
  intros Hn Hk. simpl in Hk.
  destruct n; try discriminate Hn; try reflexivity;
    repeat (destruct Hk as [<- | Hk]; [reflexivity|]); contradiction.
Qed.

Lemma getLeftSide_part (n v : value) :
  getLeftSide n = Ret v -> truthy v = true -> (size v < size n)%nat.
Proof.
  intros Hv Htruthy.
  assert (Hn : nullish n = false).
  { destruct n; try reflexivity; discriminate Hv. }
  rewrite getLeftSide_eq in Hv by exact Hn.
  destruct (is_node n) eqn:Enode.
  - destruct (truthy (field n "expressions")).
    + apply size_index in Hv.
      pose proof (size_field n "expressions" Enode). lia.
    + injection Hv as <-.
      repeat match goal with
             | |- context [if truthy ?x then _ else _] => destruct (truthy x)
             end; apply size_field, Enode.
  - rewrite !(left_side_field_off_object n) in Hv
      by (try exact Enode; simpl; tauto).
    cbn [truthy] in Hv. injection Hv as <-. discriminate Htruthy.
Qed.

(** X1. What [getLeftSide] returns, when it is truthy, is a proper part of
    the node: it holds strictly fewer objects and arrays. *)
Theorem getLeftSide_smaller (n v : value) :
  getLeftSide n = Ret v -> truthy v = true -> (size v < size n)%nat.
Proof. exact (getLeftSide_part n v). Qed.

Lemma getLeftSide_smaller_witness : (size (identifier 2 "a") < size sumAB)%nat.
Proof.
  apply (getLeftSide_smaller sumAB (identifier 2 "a")); reflexivity.
Defined.

Lemma exhausted_bind {A B} (m : outcome A) (k : A -> outcome B) :
  exhausted m = false -> (forall a, exhausted (k a) = false) ->
  exhausted (bind m k) = false.
Proof. destruct m; simpl; auto. Qed.

Lemma exhausted_get (v : value) (k : string) : exhausted (get v k) = false.
Proof. destruct v; reflexivity. Qed.

Lemma exhausted_index (v : value) (i : nat) : exhausted (index v i) = false.
Proof. destruct v; reflexivity. Qed.

Lemma exhausted_someM (f : value -> outcome bool) (xs : list value) :
  (forall x, exhausted (f x) = false) -> exhausted (someM f xs) = false.
Proof.
  intros Hf. induction xs as [|x xs IH]; simpl; [reflexivity|].
  apply exhausted_bind; [apply Hf|]. intros [|]; [reflexivity | exact IH].
Qed.

Lemma exhausted_some (v : value) (f : value -> outcome bool) :
  (forall x, exhausted (f x) = false) -> exhausted (some v f) = false.
Proof. intros Hf. destruct v; simpl; auto using exhausted_someM. Qed.

Lemma exhausted_getLeftSide (n : value) : exhausted (getLeftSide n) = false.
Proof.
  unfold getLeftSide. apply exhausted_bind; [apply exhausted_get|].
  intros expressions. destruct (truthy expressions);
    [apply exhausted_index|].
  cbn [first_truthy].
  repeat (apply exhausted_bind; [apply exhausted_get|];
          intros ?; try match goal with
                        | |- context [if truthy ?x then _ else _] =>
                            destruct (truthy x); [reflexivity|]
                        end).
  reflexivity.
Qed.

Lemma getLeftSide_returns (n : value) :
  nullish n = false -> exists v, getLeftSide n = Ret v.
Proof.
  intros Hn. rewrite (getLeftSide_eq n Hn).
  destruct (truthy (field n "expressions")) eqn:E; [|eauto].
  apply truthy_not_nullish in E.
  destruct (field n "expressions"); try discriminate E; simpl; eauto.
Qed.

Lemma spine_ends_at_falsy (n left m : value) :
  getLeftSide n = Ret left -> truthy left = false -> onLeftSpine n m -> m = n.
Proof.
  intros Hleft Hfalsy Hspine.
  destruct Hspine as [|n left' m Hleft' Htruthy' _]; [reflexivity|].
  congruence.
Qed.

Lemma spine_not_larger (n m : value) :
  onLeftSpine n m -> (size m <= size n)%nat.
Proof.
  induction 1 as [|n left m Hleft Htruthy _ IH]; [lia|].
  pose proof (getLeftSide_part _ _ Hleft Htruthy). lia.
Qed.

Section ReturnArgumentWalk.

Variable hasNewline : string -> Z -> bool.
Variable hasNodeIgnoreComment : value -> value.

Lemma exhausted_hasLeadingOwnLineComment (text : string) (n : value)
  (options : Options) :
  exhausted (hasLeadingOwnLineComment hasNewline hasNodeIgnoreComment
               text n options) = false.
Proof.
  unfold hasLeadingOwnLineComment, isJSXNode, and_value.
  apply exhausted_bind.
  - apply exhausted_bind; [apply exhausted_get | reflexivity].
  - intros [|]; [reflexivity|].
    apply exhausted_bind; [apply exhausted_get|]. intros comments.
    destruct (truthy comments); [|reflexivity].
    apply exhausted_bind; [|reflexivity].
    apply exhausted_some. intros comment.
    apply exhausted_bind; [apply exhausted_get|].
    intros leading. destruct (truthy leading); reflexivity.
Qed.

Lemma leftMostLoop_ends (options : Options) (fuel : nat) :
  forall leftMost,
    (size leftMost <= fuel)%nat ->
    exhausted (leftMostLoop hasNewline hasNodeIgnoreComment fuel options
                 leftMost) = false.
Proof.
  induction fuel as [|fuel IH]; intros leftMost Hsize;
    cbn [leftMostLoop];
    (destruct (getLeftSide leftMost) as [newLeftMost|e] eqn:Eleft;
     [|pose proof (exhausted_getLeftSide leftMost) as He;
       rewrite Eleft in He; exact He]);
    cbn [bind]; destruct (truthy newLeftMost) eqn:Etruthy;
    try reflexivity;
    pose proof (getLeftSide_part _ _ Eleft Etruthy) as Hsmaller.
  - lia.
  - apply exhausted_bind; [apply exhausted_hasLeadingOwnLineComment|].
    intros commented. destruct (truthy commented); [reflexivity|].
    apply IH. lia.
Qed.

(** X2. The leftmost walk of [returnArgumentHasLeadingComment] always ends:
    every round moves to a proper part of the node, so the bound of
    [size argument] rounds is never exhausted, whatever the tree, the text
    and the two helpers are. *)
Theorem returnArgumentHasLeadingComment_ends (options : Options)
  (argument : value) :
  exhausted (returnArgumentHasLeadingComment hasNewline hasNodeIgnoreComment
               options argument) = false.
Proof.
  unfold returnArgumentHasLeadingComment.
  apply exhausted_bind; [apply exhausted_hasLeadingOwnLineComment|].
  intros commented. destruct (truthy commented); [reflexivity|].
  apply exhausted_bind.
  - unfold hasNakedLeftSide. apply exhausted_bind; [apply exhausted_get|].
    intros type. apply exhausted_bind; [apply exhausted_get | reflexivity].
  - intros [|]; [|reflexivity]. apply leftMostLoop_ends. lia.
Qed.

(** More rounds than [size leftMost] change nothing. *)
Lemma leftMostLoop_fuel_enough (options : Options) (f1 : nat) :
  forall f2 leftMost,
    (size leftMost <= f1)%nat -> (size leftMost <= f2)%nat ->
    leftMostLoop hasNewline hasNodeIgnoreComment f1 options leftMost
    = leftMostLoop hasNewline hasNodeIgnoreComment f2 options leftMost.
Proof.
  induction f1 as [|f1 IH]; intros f2 leftMost H1 H2;
    destruct f2 as [|f2]; cbn [leftMostLoop];
    (destruct (getLeftSide leftMost) as [newLeftMost|e] eqn:Eleft;
     [|reflexivity]);
    cbn [bind]; destruct (truthy newLeftMost) eqn:Etruthy;
    try reflexivity;
    pose proof (getLeftSide_part _ _ Eleft Etruthy) as Hsmaller;
    try lia.
  apply bind_ext. intros commented.
  destruct (truthy commented); [reflexivity|]. apply IH; lia.
Qed.

Let commented (options : Options) (m : value) : Prop :=
  exists c,
    hasLeadingOwnLineComment hasNewline hasNodeIgnoreComment
      (originalText options) m options = Ret c
    /\ truthy c = true.

Let judged (options : Options) (m : value) : Prop :=
  exists c,
    hasLeadingOwnLineComment hasNewline hasNodeIgnoreComment
      (originalText options) m options = Ret c.

Lemma leftMostLoop_spec (options : Options) (fuel : nat) :
  forall leftMost,
    (size leftMost <= fuel)%nat ->
    nullish leftMost = false ->
    (forall m, onLeftSpine leftMost m -> m = leftMost \/ judged options m) ->
    exists b,
      leftMostLoop hasNewline hasNodeIgnoreComment fuel options leftMost
      = Ret b
      /\ (b = true <->
          exists m, onLeftSpine leftMost m /\ m <> leftMost
                    /\ commented options m).
Proof.
  induction fuel as [|fuel IH]; intros leftMost Hsize Hdefined Hjudged;
    destruct (getLeftSide_returns leftMost Hdefined) as [left Eleft];
    cbn [leftMostLoop]; rewrite Eleft; cbn [bind];
    destruct (truthy left) eqn:Etruthy.
  - pose proof (getLeftSide_part _ _ Eleft Etruthy). lia.
  - exists false. split; [reflexivity|]. split; [discriminate|].
    intros (m & Hspine & Hne & _). exfalso. apply Hne.
    apply (spine_ends_at_falsy _ _ _ Eleft Etruthy Hspine).
  - pose proof (getLeftSide_part _ _ Eleft Etruthy) as Hsmaller.
    assert (Hne : forall m, onLeftSpine left m -> m <> leftMost).
    { intros m Hm ->. pose proof (spine_not_larger _ _ Hm). lia. }
    assert (Hstep : forall m, onLeftSpine left m -> onLeftSpine leftMost m).
    { intros m Hm. exact (onLeftSpine_left _ _ _ Eleft Etruthy Hm). }
    destruct (Hjudged left (Hstep left (onLeftSpine_here left)))
      as [Heq | [c Hc]].
    { exfalso. apply (Hne left (onLeftSpine_here left)). exact Heq. }
    rewrite Hc. cbn [bind]. destruct (truthy c) eqn:Ec.
    + exists true. split; [reflexivity|]. split; [|reflexivity]. intros _.
      exists left. split; [apply Hstep, onLeftSpine_here|].
      split; [apply Hne, onLeftSpine_here|]. exists c. auto.
    + destruct (IH left) as (b & Hb & Hiff).
      * lia.
      * apply truthy_not_nullish, Etruthy.
      * intros m Hm. destruct (Hjudged m (Hstep m Hm)) as [Heq | Hj].
        -- exfalso. apply (Hne m Hm). exact Heq.
        -- right. exact Hj.
      * exists b. split; [exact Hb|]. rewrite Hiff. split.
        -- intros (m & Hm & _ & Hcommented). exists m.
           split; [apply Hstep, Hm|]. split; [apply Hne, Hm | exact Hcommented].
        -- intros (m & Hm & Hmne & Hcommented).
           destruct Hm as [|n left' m Hleft' Htruthy' Hm]; [contradiction|].
           assert (left' = left) as -> by congruence.
           exists m. split; [exact Hm|]. split; [|exact Hcommented].
           intros ->. destruct Hcommented as (c' & Hc' & Htc'). congruence.
  - exists false. split; [reflexivity|]. split; [discriminate|].
    intros (m & Hspine & Hne & _). exfalso. apply Hne.
    apply (spine_ends_at_falsy _ _ _ Eleft Etruthy Hspine).
Qed.

(** X3. On an argument flagged by [hasNakedLeftSide], all of whose leftmost
    nodes can be asked for their leading comments without an exception,
    [returnArgumentHasLeadingComment] returns, and it returns true iff the
    argument or one of the nodes on its leftmost walk carries a leading
    own-line comment. *)
Theorem returnArgumentHasLeadingComment_spec (options : Options)
  (argument : value) :
  hasNakedLeftSide argument = Ret true ->
  (forall m, onLeftSpine argument m ->
             exists c,
               hasLeadingOwnLineComment hasNewline hasNodeIgnoreComment
                 (originalText options) m options = Ret c) ->
  exists b,
    returnArgumentHasLeadingComment hasNewline hasNodeIgnoreComment
      options argument = Ret b
    /\ (b = true <->
        exists m c,
          onLeftSpine argument m
          /\ hasLeadingOwnLineComment hasNewline hasNodeIgnoreComment
               (originalText options) m options = Ret c
          /\ truthy c = true).
Proof.
  intros Hnaked Hjudged. unfold returnArgumentHasLeadingComment.
  destruct (Hjudged argument (onLeftSpine_here argument)) as [own Hown].
  rewrite Hown. cbn [bind]. destruct (truthy own) eqn:Eown.
  - exists true. split; [reflexivity|]. split; [|reflexivity]. intros _.
    exists argument, own. auto using onLeftSpine_here.
  - rewrite Hnaked. cbn [bind].
    destruct (leftMostLoop_spec options (size argument) argument (le_n _))
      as (b & Hb & Hiff).
    + apply (hasNakedLeftSide_not_nullish _ _ Hnaked).
    + intros m Hm. right. apply Hjudged, Hm.
    + exists b. split; [exact Hb|]. rewrite Hiff. split.
      * intros (m & Hm & _ & c & Hc & Htc). exists m, c. auto.
      * intros (m & c & Hm & Hc & Htc). exists m. repeat split; auto.
        -- intros ->. congruence.
        -- exists c. auto.
Qed.

End ReturnArgumentWalk.

Lemma returnArgumentHasLeadingComment_spec_witness :
  exists b,
    returnArgumentHasLeadingComment (fun _ _ => true) (fun _ => VBool false)
      noText commentedSum = Ret b
    /\ (b = true <->
        exists m c,
          onLeftSpine commentedSum m
          /\ hasLeadingOwnLineComment (fun _ _ => true) (fun _ => VBool false)
               (originalText noText) m noText = Ret c
          /\ truthy c = true).
Proof.
  apply (returnArgumentHasLeadingComment_spec (fun _ _ => true)
           (fun _ => VBool false) noText commentedSum).
  - reflexivity.
  - intros m Hm.
    inversion Hm as [|? l1 ? Hl1 Ht1 Hs1]; subst; [eexists; reflexivity|].
    vm_compute in Hl1. injection Hl1 as <-.
    inversion Hs1 as [|? l2 ? Hl2 Ht2 Hs2]; subst; [eexists; reflexivity|].
    vm_compute in Hl2. injection Hl2 as <-.
    inversion Hs2 as [|? l3 ? Hl3 Ht3 Hs3]; subst; [eexists; reflexivity|].
    vm_compute in Hl3. injection Hl3 as <-. discriminate Ht3.
Defined.

Example returnArgumentHasLeadingComment_of_commented_sum :
  returnArgumentHasLeadingComment (fun _ _ => true) (fun _ => VBool false)
    noText commentedSum = Ret true.
Proof. reflexivity. Qed.

(** ** Kinds with a naked left side *)

(** X4. Every binaryish node, every memberish node, every call or optional
    call and every member chain is flagged by [hasNakedLeftSide]. *)
Theorem naked_left_side_kinds (n : value) :
  (isBinaryish n = Ret true -> hasNakedLeftSide n = Ret true)
  /\ (forall v, isMemberish n = Ret v -> truthy v = true ->
                hasNakedLeftSide n = Ret true)
  /\ (isCallOrOptionalCallExpression n = Ret true ->
      hasNakedLeftSide n = Ret true)
  /\ (isMemberExpressionChain n = Ret true -> hasNakedLeftSide n = Ret true).
Proof.
  unfold isBinaryish, isMemberish, isCallOrOptionalCallExpression,
    isMemberExpressionChain, hasNakedLeftSide.
  destruct (get n "type") as [type|] eqn:Etype; cbn [bind];
    [|repeat split; intros; try discriminate;
      destruct (size n); cbn [isMemberExpressionChain_fuel] in *;
      rewrite Etype in *; discriminate].
  rewrite (get_field n "prefix") by exact (get_Ret_nullish _ _ _ Etype).
  cbn [bind].
  assert (Hkind : forall k,
             In k ["AssignmentExpression"; "BinaryExpression";
                   "LogicalExpression"; "NGPipeExpression";
                   "ConditionalExpression"; "CallExpression";
                   "OptionalCallExpression"; "MemberExpression";
                   "OptionalMemberExpression"; "SequenceExpression";
                   "TaggedTemplateExpression"; "BindExpression"] ->
             is_str type k = true ->
             Ret (is_one_of type
                    ["AssignmentExpression"; "BinaryExpression";
                     "LogicalExpression"; "NGPipeExpression";
                     "ConditionalExpression"; "CallExpression";
                     "OptionalCallExpression"; "MemberExpression";
                     "OptionalMemberExpression"; "SequenceExpression";
                     "TaggedTemplateExpression"; "BindExpression"]
                  || is_str type "UpdateExpression"
                     && negb (truthy (field n "prefix"))
                  || is_one_of type ["TSAsExpression"; "TSNonNullExpression"])
             = Ret true).
  { intros k Hk Hstr. apply is_str_true in Hstr. subst type. simpl in Hk.
    repeat (destruct Hk as [<- | Hk]; [reflexivity|]). contradiction. }
  repeat apply conj.
  - intros H. injection H as H. unfold binaryishNodeTypes in H.
    cbn [is_one_of existsb] in H. rewrite orb_false_r in H.
    apply orb_prop in H as [H | H]; [|apply orb_prop in H as [H | H]];
      (eapply Hkind; [|exact H]); simpl; tauto.
  - intros v H Hv.
    destruct (is_str type "MemberExpression") eqn:E1;
      [apply (Hkind "MemberExpression"); [simpl; tauto | exact E1]|].
    destruct (is_str type "OptionalMemberExpression") eqn:E2;
      [apply (Hkind "OptionalMemberExpression"); [simpl; tauto | exact E2]|].
    destruct (is_str type "BindExpression") eqn:E3;
      [apply (Hkind "BindExpression"); [simpl; tauto | exact E3]|].
    injection H as <-. discriminate Hv.
  - intros H. injection H as H.
    apply orb_prop in H as [H | H]; (eapply Hkind; [|exact H]); simpl; tauto.
  - destruct (size n); cbn [isMemberExpressionChain_fuel]; rewrite Etype;
      cbn [bind];
      (destruct (is_str type "MemberExpression") eqn:E1;
       [intros _; apply (Hkind "MemberExpression"); [simpl; tauto | exact E1]|]);
      (destruct (is_str type "OptionalMemberExpression") eqn:E2;
       [intros _; apply (Hkind "OptionalMemberExpression");
        [simpl; tauto | exact E2]|]);
      cbn [negb andb]; intros H; discriminate H.
Qed.

Lemma naked_left_side_kinds_witness :
  hasNakedLeftSide sumAB = Ret true /\ hasNakedLeftSide chainABC = Ret true.
Proof.
  split.
  - apply (proj1 (naked_left_side_kinds sumAB)). reflexivity.
  - apply (proj2 (proj2 (proj2 (naked_left_side_kinds chainABC)))).
    reflexivity.
Defined.

(** ** Member chains *)

Lemma isMemberExpressionChain_sound (fuel : nat) :
  forall n, isMemberExpressionChain_fuel fuel n = Ret true ->
            identifierChain n.
Proof.
  induction fuel as [|fuel IH]; intros n; cbn [isMemberExpressionChain_fuel];
    (destruct (get n "type") as [type|] eqn:Etype; cbn [bind];
     [|discriminate]);
    (destruct (negb (is_str type "MemberExpression")
               && negb (is_str type "OptionalMemberExpression")) eqn:Ekind;
     [discriminate|]);
    (destruct (get n "object") as [object|] eqn:Eobject; cbn [bind];
     [|discriminate]);
    (destruct (get object "type") as [otype|] eqn:Eotype; cbn [bind];
     [|discriminate]);
    assert (Hkind : is_one_of type
                      ["MemberExpression"; "OptionalMemberExpression"] = true)
      by (cbn [is_one_of existsb]; rewrite orb_false_r;
          destruct (is_str type "MemberExpression"),
            (is_str type "OptionalMemberExpression");
          try reflexivity; discriminate Ekind);
    destruct (is_str otype "Identifier") eqn:Eident; intros H;
    try discriminate H.
  - eapply identifierChain_base; eauto.
  - eapply identifierChain_base; eauto.
  - eapply identifierChain_step; eauto.
Qed.

Lemma isMemberExpressionChain_complete (n : value) :
  identifierChain n ->
  forall fuel, (size n <= fuel)%nat ->
               isMemberExpressionChain_fuel fuel n = Ret true.
Proof.
  induction 1 as [n type object otype Htype Hkind Hobject Hotype Hident
                 |n type object otype Htype Hkind Hobject Hotype Hident _ IH];
    intros fuel Hfuel;
    assert (Hnot : negb (is_str type "MemberExpression")
                   && negb (is_str type "OptionalMemberExpression") = false)
      by (cbn [is_one_of existsb] in Hkind; rewrite orb_false_r in Hkind;
          destruct (is_str type "MemberExpression"),
            (is_str type "OptionalMemberExpression");
          try reflexivity; discriminate Hkind).
  - destruct fuel; cbn [isMemberExpressionChain_fuel]; rewrite Htype;
      cbn [bind]; rewrite Hnot, Hobject; cbn [bind]; rewrite Hotype;
      cbn [bind]; rewrite Hident; reflexivity.
  - pose proof (size_get _ _ _ (kind_is_node _ _ _ Htype Hkind) Hobject).
    destruct fuel as [|fuel]; [lia|]. cbn [isMemberExpressionChain_fuel].
    rewrite Htype. cbn [bind]. rewrite Hnot, Hobject. cbn [bind].
    rewrite Hotype. cbn [bind]. rewrite Hident. apply IH. lia.
Qed.

(** X5. [isMemberExpressionChain] is true exactly on the chains of member or
    optional-member expressions whose innermost object is an identifier:
    [a.b.c] is one, [a().b] is not. *)
Theorem isMemberExpressionChain_spec :
  (forall n, isMemberExpressionChain n = Ret true <-> identifierChain n)
  /\ isMemberExpressionChain chainABC = Ret true
  /\ isMemberExpressionChain callThenMember = Ret false.
Proof.
  split; [|split; reflexivity]. intros n. split.
  - apply isMemberExpressionChain_sound.
  - intros H. apply (isMemberExpressionChain_complete n H). lia.
Qed.

(** ** Comment placement *)

Lemma someM_returns (f : value -> outcome bool) (g : value -> bool)
  (xs : list value) :
  Forall (fun x => f x = Ret (g x)) xs -> someM f xs = Ret (existsb g xs).
Proof.
  induction 1 as [|x xs Hx _ IH]; simpl; [reflexivity|].
  rewrite Hx. simpl. destruct (g x); [reflexivity | exact IH].
Qed.

(** X6. On a node whose [comments] is an array of comment objects, the three
    placement predicates return booleans, and together they account for
    every comment: at least one of them is true iff the array is not empty;
    a comment that is neither leading nor trailing counts as dangling. On a
    node without [comments] each of them returns [undefined]. *)
Theorem comment_placement_covers (n : value) :
  (forall (a : addr) (comments : list value),
      get n "comments" = Ret (VArr a comments) ->
      Forall (fun c => nullish c = false) comments ->
      exists leading trailing dangling,
        hasLeadingComment n = Ret (VBool leading)
        /\ hasTrailingComment n = Ret (VBool trailing)
        /\ hasDanglingComments n = Ret (VBool dangling)
        /\ leading || trailing || dangling
           = negb (Nat.eqb (List.length comments) 0))
  /\ (get n "comments" = Ret VUndefined ->
      hasLeadingComment n = Ret VUndefined
      /\ hasTrailingComment n = Ret VUndefined
      /\ hasDanglingComments n = Ret VUndefined).
Proof.
  unfold hasLeadingComment, hasTrailingComment, hasDanglingComments. split.
  - intros a comments -> Hall. cbn [bind and_value truthy some].
    rewrite (someM_returns _ (fun c => truthy (field c "leading"))),
      (someM_returns _ (fun c => truthy (field c "trailing"))),
      (someM_returns _ (fun c => negb (truthy (field c "leading"))
                                 && negb (truthy (field c "trailing")))).
    + cbn [bind]. do 3 eexists. repeat split.
      clear Hall. induction comments as [|c cs IH]; [reflexivity|].
      cbn [existsb List.length Nat.eqb negb] in *.
      destruct (truthy (field c "leading")), (truthy (field c "trailing"));
        cbn [orb andb negb]; rewrite ?orb_true_r; reflexivity.
    + eapply Forall_impl; [|exact Hall]. intros c Hc. cbn beta in *.
      rewrite !(get_field c) by exact Hc. cbn [bind].
      destruct (truthy (field c "leading")); reflexivity.
    + eapply Forall_impl; [|exact Hall]. intros c Hc. cbn beta in *.
      rewrite !(get_field c) by exact Hc. reflexivity.
    + eapply Forall_impl; [|exact Hall]. intros c Hc. cbn beta in *.
      rewrite !(get_field c) by exact Hc. reflexivity.
  - intros ->. repeat split; reflexivity.
Qed.

Lemma comment_placement_covers_witness :
  exists leading trailing dangling,
    hasLeadingComment commentedA = Ret (VBool leading)
    /\ hasTrailingComment commentedA = Ret (VBool trailing)
    /\ hasDanglingComments commentedA = Ret (VBool dangling)
    /\ leading || trailing || dangling = negb (Nat.eqb 1 0).
Proof.
  apply (proj1 (comment_placement_covers commentedA) 9%nat
           [VObj 10 [("leading", VBool true); ("value", VStr " note")]]).
  - reflexivity.
  - repeat constructor.
Defined.

(** ** Class members *)

(** X7. A static or accessibility-qualified class member never needs
    protection from automatic semicolon insertion. A member that is neither,
    is not computed, and whose key is named [in] or [instanceof] always needs
    it, whatever its kind: the name is tested before the kind, so even an
    accessor or an async method of that name does. *)
Theorem classChildNeedsASIProtection_precedence (n : value) :
  (truthy n = true ->
   truthy (field n "static") || truthy (field n "accessibility") = true ->
   classChildNeedsASIProtection n = Ret (VBool false))
  /\ (truthy n = true ->
      truthy (field n "static") || truthy (field n "accessibility") = false ->
      truthy (field n "computed") = false ->
      truthy (field n "key") = true ->
      is_one_of (field (field n "key") "name") ["in"; "instanceof"] = true ->
      classChildNeedsASIProtection n = Ret (VBool true)).
Proof.
  unfold classChildNeedsASIProtection. split.
  - intros Hn Hstatic. rewrite Hn. cbn [negb].
    rewrite !(get_field n) by (apply truthy_not_nullish, Hn). cbn [bind].
    rewrite Hstatic. reflexivity.
  - intros Hn Hstatic Hcomputed Hkey Hname. rewrite Hn. cbn [negb].
    rewrite !(get_field n) by (apply truthy_not_nullish, Hn). cbn [bind].
    rewrite Hstatic, Hcomputed. cbn [negb bind]. unfold and_value.
    rewrite Hkey.
    rewrite (get_field (field n "key")) by (apply truthy_not_nullish, Hkey).
    cbn [bind]. cbn [is_one_of existsb] in Hname.
    rewrite orb_false_r in Hname. rewrite Hname. reflexivity.
Qed.

Lemma classChildNeedsASIProtection_precedence_witness :
  classChildNeedsASIProtection getterNamedIn = Ret (VBool true).
Proof.
  apply (proj2 (classChildNeedsASIProtection_precedence getterNamedIn));
    reflexivity.
Defined.

(** ** Trailing commas *)

(** The answers of [shouldPrintComma], policy by policy and level by level. *)
Lemma shouldPrintComma_table (options level : value) (policy : value) :
  get options "trailingComma" = Ret policy ->
  shouldPrintComma options level
  = Ret ((is_str policy "all"
          && (is_str level "all" || is_str level "es5"
              || negb (truthy level)))
         || (is_str policy "es5"
             && (is_str level "es5" || negb (truthy level)))).
Proof.
  intros Hpolicy. unfold shouldPrintComma. rewrite Hpolicy. cbn [bind].
  destruct (is_str policy "all") eqn:Eall.
  - apply is_str_true in Eall. subst policy.
    destruct (truthy level) eqn:Elevel; cbn [negb];
      [|simpl; rewrite ?orb_true_r; reflexivity].
    destruct (is_str level "all"); [reflexivity|].
    destruct (is_str level "es5"); reflexivity.
  - cbn [andb orb]. destruct (is_str policy "es5"); [|reflexivity].
    destruct (truthy level) eqn:Elevel; cbn [negb andb];
      [|simpl; rewrite ?orb_true_r; reflexivity].
    destruct (is_str level "es5"); reflexivity.
Qed.

(** X8. [shouldPrintComma] is monotone in the policy: a comma printed under
    the policy [es5] is printed under [all] (the [switch] falls through from
    [all] to [es5]). A missing level stands for [es5]. Under the policy
    [none], or any policy other than [all] and [es5], no comma is printed at
    any level. *)
Theorem shouldPrintComma_monotone (a b : addr) (level : value) :
  (shouldPrintComma (VObj a [("trailingComma", VStr "es5")]) level = Ret true ->
   shouldPrintComma (VObj b [("trailingComma", VStr "all")]) level = Ret true)
  /\ (forall options,
         shouldPrintComma options VUndefined
         = shouldPrintComma options (VStr "es5"))
  /\ (forall options policy,
         get options "trailingComma" = Ret policy ->
         is_one_of policy ["all"; "es5"] = false ->
         shouldPrintComma options level = Ret false).
Proof.
  repeat apply conj.
  - rewrite (shouldPrintComma_table (VObj a [("trailingComma", VStr "es5")])
               level (VStr "es5") eq_refl),
      (shouldPrintComma_table (VObj b [("trailingComma", VStr "all")])
         level (VStr "all") eq_refl).
    cbn [is_str strict_eq String.eqb Ascii.eqb Bool.eqb andb orb].
    intros H. injection H as H. f_equal.
    destruct (is_str level "all"); [reflexivity|].
    cbn [orb]. rewrite orb_false_r. exact H.
  - intros options. reflexivity.
  - intros options policy Hpolicy Hother.
    rewrite (shouldPrintComma_table options level policy Hpolicy).
    cbn [is_one_of existsb] in Hother. rewrite orb_false_r in Hother.
    apply orb_false_elim in Hother as [-> ->]. reflexivity.
Qed.

Lemma shouldPrintComma_monotone_witness :
  shouldPrintComma (VObj 2 [("trailingComma", VStr "all")]) (VStr "es5")
  = Ret true.
Proof.
  apply (proj1 (shouldPrintComma_monotone 1 2 (VStr "es5"))). reflexivity.
Defined.

(** ** Side effects in Angular expressions *)

Lemma someM_spec (f : value -> outcome bool) (P : value -> Prop)
  (xs : list value) :
  (forall x, In x xs -> exists b, f x = Ret b /\ (b = true <-> P x)) ->
  exists b, someM f xs = Ret b /\ (b = true <-> exists x, In x xs /\ P x).
Proof.
  induction xs as [|x xs IH]; intros Hall; cbn [someM].
  - exists false. split; [reflexivity|]. split; [discriminate|].
    intros (x & [] & _).
  - destruct (Hall x (or_introl eq_refl)) as (b & Hb & Hiff).
    rewrite Hb. cbn [bind]. destruct b.
    + exists true. split; [reflexivity|]. split; [|reflexivity].
      intros _. exists x. split; [left; reflexivity | apply Hiff; reflexivity].
    + destruct IH as (b' & Hb' & Hiff').
      { intros y Hy. apply Hall. right. exact Hy. }
      exists b'. split; [exact Hb'|]. rewrite Hiff'. split.
      * intros (y & Hy & HP). exists y. split; [right; exact Hy | exact HP].
      * intros (y & [<- | Hy] & HP).
        -- apply Hiff in HP. discriminate HP.
        -- exists y. split; assumption.
Qed.

Lemma size_children (a : addr) (ps : list (string * value)) (x : value) :
  In x (children (VObj a ps)) -> (size x < size (VObj a ps))%nat.
Proof.
  unfold children. rewrite in_map_iff. intros (key & <- & _).
  apply size_field. reflexivity.
Qed.

(** [hasNode] is false on everything that is not an object or an array. *)
Lemma hasNode_off_objects (fuel : nat) (n : value)
  (fn : value -> outcome value) :
  is_node n = false -> is_array n = false -> hasNode_fuel fuel n fn = Ret false.
Proof.
  intros Hnode Harray.
  destruct fuel, n; try discriminate; simpl; rewrite ?orb_true_r; reflexivity.
Qed.

Lemma hasNode_side_effect_spec (fuel : nat) :
  forall n, (size n <= fuel)%nat ->
            exists b, hasNode_fuel fuel n ngSideEffectTest = Ret b
                      /\ (b = true <-> holdsSideEffect n).
Proof.
  induction fuel as [|fuel IH]; intros n Hsize.
  - destruct n; try (simpl in Hsize; lia);
      (exists false; split; [apply hasNode_off_objects; reflexivity|];
       split; [discriminate|]; intros H; inversion H).
  - destruct n as [| | | | |a xs|a ps];
      try (exists false; split; [apply hasNode_off_objects; reflexivity|];
           split; [discriminate|]; intros H; inversion H).
    + cbn [hasNode_fuel truthy typeof negb orb String.eqb Ascii.eqb Bool.eqb].
      destruct (someM_spec (fun value => hasNode_fuel fuel value ngSideEffectTest)
                  holdsSideEffect xs) as (b & Hb & Hiff).
      { intros x Hx. apply IH. pose proof (size_elements x xs Hx).
        simpl in Hsize. lia. }
      exists b. split; [exact Hb|]. rewrite Hiff. split.
      * intros (x & Hx & HP). exact (holdsSideEffect_element a xs x Hx HP).
      * intros H. inversion H; subst. eauto.
    + cbn [hasNode_fuel truthy typeof negb orb String.eqb Ascii.eqb Bool.eqb].
      unfold ngSideEffectTest. cbn [get bind].
      destruct (strict_eq (assoc "type" ps) VUndefined) eqn:Eundef.
      { cbn [bind]. exists false. split; [reflexivity|].
        split; [discriminate|]. intros H. inversion H; subst.
        - destruct (assoc "type" ps); discriminate.
        - congruence. }
      destruct (is_one_of (assoc "type" ps) _) eqn:Ekind; cbn [bind].
      { exists true. split; [reflexivity|]. split; [|reflexivity].
        intros _. apply holdsSideEffect_here, Ekind. }
      destruct (someM_spec (fun value => hasNode_fuel fuel value ngSideEffectTest)
                  holdsSideEffect (children (VObj a ps)))
        as (b & Hb & Hiff).
      { intros x Hx. apply IH. pose proof (size_children a ps x Hx). lia. }
      exists b. split; [exact Hb|]. rewrite Hiff. split.
      * intros (x & Hx & HP).
        exact (holdsSideEffect_property a ps x Eundef Ekind Hx HP).
      * intros H. inversion H; subst; [congruence|]. eauto.
Qed.

(** X9. [hasNgSideEffect] never raises and always returns. It returns true
    iff the value holds a call, an optional call or an assignment that can be
    reached through arrays and through the properties of objects that have a
    [type]: an object without a [type] stops the search, and hides whatever
    is beneath it. *)
Theorem hasNgSideEffect_spec (path : Path) :
  (exists b, hasNgSideEffect path = Ret b
             /\ (b = true <-> holdsSideEffect (getValue path)))
  /\ hasNode statementWithCall ngSideEffectTest = Ret true
  /\ hasNode untypedWrapper ngSideEffectTest = Ret false.
Proof.
  split; [|split; reflexivity].
  apply hasNode_side_effect_spec. lia.
Qed.

(** ** JSX text *)

Lemma containsNonJsxWhitespace_eq (s : string) :
  containsNonJsxWhitespaceRegex s = negb (jsxWhitespaceOnly s).
Proof.
  unfold containsNonJsxWhitespaceRegex, jsxWhitespaceOnly.
  induction (list_ascii_of_string s) as [|c cs IH]; simpl; [reflexivity|].
  rewrite IH. destruct (is_jsx_whitespace c); reflexivity.
Qed.

Lemma isMeaningfulJSXText_of_literal (n : value) (t s : string) :
  get n "type" = Ret (VStr t) -> In t literalKinds ->
  rawText n = Ret (VStr s) ->
  isMeaningfulJSXText n
  = Ret (negb (jsxWhitespaceOnly s && containsNewlineRegex s)).
Proof.
  intros Htype Hkind Hraw. unfold isMeaningfulJSXText, isLiteral.
  rewrite Htype. cbn [bind]. fold literalKinds.
  replace (is_one_of (VStr t) literalKinds) with true.
  - unfold andM, orM. cbn [bind]. rewrite Hraw.
    cbn [bind regexp_test to_string].
    rewrite containsNonJsxWhitespace_eq.
    destruct (jsxWhitespaceOnly s); cbn [negb andb]; reflexivity.
  - symmetry. simpl in Hkind.
    repeat (destruct Hkind as [<- | Hkind]; [reflexivity|]). contradiction.
Qed.

(** X10. A literal node whose raw text is the string [s] is meaningful JSX
    text unless [s] is made of JSX whitespace only and contains a newline: so
    the empty text and text of spaces alone are meaningful, and whitespace
    with a line break in it is not. A node that is not a literal is never
    meaningful text. *)
Theorem isMeaningfulJSXText_spec (n : value) (t : string) :
  get n "type" = Ret (VStr t) ->
  (forall s, In t literalKinds -> rawText n = Ret (VStr s) ->
             isMeaningfulJSXText n
             = Ret (negb (jsxWhitespaceOnly s && containsNewlineRegex s)))
  /\ (~ In t literalKinds -> isMeaningfulJSXText n = Ret false).
Proof.
  intros Htype. unfold isMeaningfulJSXText, isLiteral. rewrite Htype.
  cbn [bind]. fold literalKinds. split.
  - intros s Hkind Hraw.
    replace (is_one_of (VStr t) literalKinds) with true.
    + unfold andM, orM. cbn [bind]. rewrite Hraw.
      cbn [bind regexp_test to_string].
      rewrite containsNonJsxWhitespace_eq.
      destruct (jsxWhitespaceOnly s); cbn [negb andb]; reflexivity.
    + symmetry. simpl in Hkind.
      repeat (destruct Hkind as [<- | Hkind]; [reflexivity|]). contradiction.
  - intros Hkind.
    replace (is_one_of (VStr t) literalKinds) with false; [reflexivity|].
    symmetry. unfold is_one_of. apply not_true_is_false. intros H.
    apply existsb_exists in H as (k & Hk & Heq). apply Hkind.
    apply is_str_true in Heq. injection Heq as ->. exact Hk.
Qed.

Lemma isMeaningfulJSXText_spec_witness :
  isMeaningfulJSXText (jsxText 1 "")
  = Ret (negb (jsxWhitespaceOnly "" && containsNewlineRegex "")).
Proof.
  apply (proj1 (isMeaningfulJSXText_spec (jsxText 1 "") "JSXText" eq_refl) "").
  - simpl. tauto.
  - reflexivity.
Defined.

(** X11. A JSX element without children is empty, and one with two or more
    children is not, whatever the children are. With a single child it is
    empty iff the child is a literal whose raw text is JSX whitespace with a
    newline in it. *)
Theorem isEmptyJSXElement_spec (n : value) (a : addr) (kids : list value) :
  get n "children" = Ret (VArr a kids) ->
  (kids = [] -> isEmptyJSXElement n = Ret true)
  /\ ((2 <= List.length kids)%nat -> isEmptyJSXElement n = Ret false)
  /\ (forall child t s,
         kids = [child] ->
         get child "type" = Ret (VStr t) -> In t literalKinds ->
         rawText child = Ret (VStr s) ->
         isEmptyJSXElement n
         = Ret (jsxWhitespaceOnly s && containsNewlineRegex s)).
Proof.
  intros Hkids. unfold isEmptyJSXElement. rewrite Hkids. cbn [bind].
  rewrite get_length_arr. cbn [bind]. repeat apply conj.
  - intros ->. reflexivity.
  - intros Hlen. destruct kids as [|k1 [|k2 kids]]; try (simpl in Hlen; lia).
    cbn [List.length]. unfold gt. cbn [to_number bind strict_eq].
    replace (Z.of_nat (S (S (List.length kids))) =? 0) with false
      by (symmetry; apply Z.eqb_neq; lia).
    replace (1 <? Z.of_nat (S (S (List.length kids)))) with true
      by (symmetry; apply Z.ltb_lt; lia).
    reflexivity.
  - intros child t s -> Htype Hkind Hraw.
    cbn [List.length Z.of_nat strict_eq gt to_number bind index nth].
    change (Z.pos (Pos.of_succ_nat 0) =? 0) with false.
    change (1 <? Z.pos (Pos.of_succ_nat 0)) with false. cbn [bind].
    rewrite (isMeaningfulJSXText_of_literal child t s Htype Hkind Hraw).
    unfold isLiteral. rewrite Htype. cbn [bind]. fold literalKinds.
    replace (is_one_of (VStr t) literalKinds) with true.
    + unfold andM. cbn [bind]. rewrite negb_involutive. reflexivity.
    + symmetry. simpl in Hkind.
      repeat (destruct Hkind as [<- | Hkind]; [reflexivity|]). contradiction.
Qed.

Lemma isEmptyJSXElement_spec_witness :
  isEmptyJSXElement (jsxElement 1 [jsxText 3 (String newline "  ")])
  = Ret (jsxWhitespaceOnly (String newline "  ")
         && containsNewlineRegex (String newline "  ")).
Proof.
  apply (proj2 (proj2 (isEmptyJSXElement_spec
                         (jsxElement 1 [jsxText 3 (String newline "  ")])
                         2%nat [jsxText 3 (String newline "  ")] eq_refl))
           (jsxText 3 (String newline "  ")) "JSXText" (String newline "  "));
    try reflexivity.
  simpl. tauto.
Defined.

(** ** Conditional chains *)

Lemma recurse_fuel_enough (f1 : nat) :
  forall f2 n acc,
    (size n <= f1)%nat -> (size n <= f2)%nat ->
    recurse_fuel f1 n acc = recurse_fuel f2 n acc.
Proof.
  induction f1 as [|f1 IH]; intros f2 n acc H1 H2;
    destruct f2 as [|f2]; cbn [recurse_fuel];
    (destruct (get n "type") as [type|] eqn:Etype; cbn [bind];
     [|reflexivity]);
    destruct (is_str type "ConditionalExpression") eqn:Ekind;
    try reflexivity;
    assert (Hnode : is_node n = true)
      by (apply (kind_is_node n type ["ConditionalExpression"] Etype);
          cbn [is_one_of existsb]; rewrite Ekind; reflexivity);
    pose proof (size_field n "test" Hnode);
    pose proof (size_field n "consequent" Hnode);
    pose proof (size_field n "alternate" Hnode);
    try lia.
  rewrite !(get_field n) by (apply is_node_not_nullish, Hnode). cbn [bind].
  rewrite (IH f2) by lia. apply bind_ext. intros pushed.
  rewrite (IH f2) by lia. apply bind_ext. intros pushed'.
  apply IH; lia.
Qed.

(** What [recurse] pushes does not depend on what was pushed before. *)
Lemma recurse_pushes (fuel : nat) :
  forall n acc,
    recurse_fuel fuel n acc
    = (leaves <- recurse_fuel fuel n [] ;; Ret (acc ++ leaves)%list).
Proof.
  induction fuel as [|fuel IH]; intros n acc; cbn [recurse_fuel];
    (destruct (get n "type") as [type|]; cbn [bind]; [|reflexivity]);
    destruct (is_str type "ConditionalExpression"); try reflexivity.
  destruct (get n "test") as [test|]; cbn [bind]; [|reflexivity].
  rewrite (IH test acc).
  destruct (recurse_fuel fuel test []) as [lt|]; cbn [bind]; [|reflexivity].
  destruct (get n "consequent") as [consequent|]; cbn [bind]; [|reflexivity].
  rewrite (IH consequent (acc ++ lt)%list), (IH consequent lt).
  destruct (recurse_fuel fuel consequent []) as [lc|]; cbn [bind];
    [|reflexivity].
  destruct (get n "alternate") as [alternate|]; cbn [bind]; [|reflexivity].
  rewrite (IH alternate ((acc ++ lt) ++ lc)%list), (IH alternate (lt ++ lc)%list).
  destruct (recurse_fuel fuel alternate []) as [la|]; cbn [bind];
    [|reflexivity].
  rewrite !app_assoc. reflexivity.
Qed.

Lemma recurse_leaves (fuel : nat) :
  forall n leaves,
    recurse_fuel fuel n [] = Ret leaves ->
    leaves <> []
    /\ Forall (fun leaf => nullish leaf = false
                           /\ kind_in leaf ["ConditionalExpression"] = false)
         leaves.
Proof.
  induction fuel as [|fuel IH]; intros n leaves; cbn [recurse_fuel];
    (destruct (get n "type") as [type|] eqn:Etype; cbn [bind];
     [|discriminate]);
    destruct (is_str type "ConditionalExpression") eqn:Ekind;
    try discriminate;
    try (intros H; injection H as <-; split; [discriminate|];
         repeat constructor;
         [exact (get_Ret_nullish _ _ _ Etype)
         |unfold kind_in, kind; rewrite (get_Ret_field _ _ _ Etype);
          cbn [is_one_of existsb]; rewrite Ekind; reflexivity]).
  destruct (get n "test") as [test|]; cbn [bind]; [|discriminate].
  destruct (recurse_fuel fuel test []) as [lt|] eqn:Et; cbn [bind];
    [|discriminate].
  destruct (get n "consequent") as [consequent|]; cbn [bind]; [|discriminate].
  rewrite recurse_pushes.
  destruct (recurse_fuel fuel consequent []) as [lc|] eqn:Ec; cbn [bind];
    [|discriminate].
  destruct (get n "alternate") as [alternate|]; cbn [bind]; [|discriminate].
  rewrite recurse_pushes.
  destruct (recurse_fuel fuel alternate []) as [la|] eqn:Ea; cbn [bind];
    [|discriminate].
  intros H. injection H as <-.
  destruct (IH _ _ Et) as [Hnt Hlt], (IH _ _ Ec) as [_ Hlc],
    (IH _ _ Ea) as [_ Hla].
  split.
  - destruct lt; [contradiction | discriminate].
  - repeat (apply Forall_app; split); assumption.
Qed.

Lemma findM_jsx (leaves : list value) :
  Forall (fun leaf => nullish leaf = false) leaves ->
  (found <- findM isJSXNode leaves ;; Ret (truthy found))
  = Ret (existsb (fun leaf => kind_in leaf ["JSXElement"; "JSXFragment"])
           leaves).
Proof.
  induction 1 as [|leaf leaves Hleaf _ IH]; [reflexivity|].
  cbn [findM existsb]. unfold isJSXNode at 1.
  rewrite (get_field leaf) by exact Hleaf. cbn [bind].
  unfold kind_in at 1, kind. cbn [is_one_of existsb]. rewrite orb_false_r.
  destruct (is_str (field leaf "type") "JSXElement"
            || is_str (field leaf "type") "JSXFragment") eqn:E;
    cbn [bind orb]; [|exact IH].
  destruct leaf; try discriminate Hleaf; try reflexivity;
    unfold field in E; simpl in E; discriminate E.
Qed.

Lemma chain_contents_jsx (n : value) (leaves : list value) :
  getConditionalChainContents n = Ret leaves ->
  conditionalExpressionChainContainsJSX n
  = Ret (existsb (fun leaf => kind_in leaf ["JSXElement"; "JSXFragment"])
           leaves).
Proof.
  intros H. destruct (recurse_leaves _ _ _ H) as [_ Hall].
  unfold conditionalExpressionChainContainsJSX. rewrite H. cbn [bind].
  apply findM_jsx. eapply Forall_impl; [|exact Hall].
  intros leaf [Hl _]. exact Hl.
Qed.

(** X12. Whenever [getConditionalChainContents] returns, the list it returns
    is not empty, holds no conditional expression, and
    [conditionalExpressionChainContainsJSX] is true iff one of its elements
    is a JSX element or fragment. *)
Theorem getConditionalChainContents_leaves (n : value) (leaves : list value) :
  getConditionalChainContents n = Ret leaves ->
  leaves <> []
  /\ Forall (fun leaf => kind_in leaf ["ConditionalExpression"] = false) leaves
  /\ conditionalExpressionChainContainsJSX n
     = Ret (existsb (fun leaf => kind_in leaf ["JSXElement"; "JSXFragment"])
              leaves).
Proof.
  intros H. destruct (recurse_leaves _ _ _ H) as [Hne Hall].
  split; [exact Hne|]. split.
  - eapply Forall_impl; [|exact Hall]. intros leaf [_ Hk]. exact Hk.
  - unfold conditionalExpressionChainContainsJSX. rewrite H. cbn [bind].
    apply findM_jsx. eapply Forall_impl; [|exact Hall].
    intros leaf [Hl _]. exact Hl.
Qed.

Lemma getConditionalChainContents_leaves_witness :
  [identifier 2 "a"; identifier 3 "b"; identifier 5 "c"; jsxElement 6 [];
   identifier 8 "e"] <> []
  /\ Forall (fun leaf => kind_in leaf ["ConditionalExpression"] = false)
       [identifier 2 "a"; identifier 3 "b"; identifier 5 "c"; jsxElement 6 [];
        identifier 8 "e"]
  /\ conditionalExpressionChainContainsJSX ternaryWithMarkup
     = Ret (existsb (fun leaf => kind_in leaf ["JSXElement"; "JSXFragment"])
              [identifier 2 "a"; identifier 3 "b"; identifier 5 "c";
               jsxElement 6 []; identifier 8 "e"]).
Proof.
  apply (getConditionalChainContents_leaves ternaryWithMarkup). reflexivity.
Defined.

(** X13. The contents of a conditional expression are the contents of its
    test, then of its consequent, then of its alternate; so it contains JSX
    iff one of the three does, wherever in the three the nested conditionals
    sit. *)
Theorem getConditionalChainContents_flattens (n test consequent alternate : value)
  (lt lc la : list value) :
  get n "type" = Ret (VStr "ConditionalExpression") ->
  get n "test" = Ret test ->
  get n "consequent" = Ret consequent ->
  get n "alternate" = Ret alternate ->
  getConditionalChainContents test = Ret lt ->
  getConditionalChainContents consequent = Ret lc ->
  getConditionalChainContents alternate = Ret la ->
  getConditionalChainContents n = Ret (lt ++ lc ++ la)%list
  /\ exists bt bc ba,
       conditionalExpressionChainContainsJSX test = Ret bt
       /\ conditionalExpressionChainContainsJSX consequent = Ret bc
       /\ conditionalExpressionChainContainsJSX alternate = Ret ba
       /\ conditionalExpressionChainContainsJSX n = Ret (bt || bc || ba).
Proof.
  intros Htype Htest Hconsequent Halternate Ht Hc Ha.
  assert (Hnode : is_node n = true)
    by (apply (kind_is_node n _ ["ConditionalExpression"] Htype); reflexivity).
  pose proof (size_get _ _ _ Hnode Htest).
  pose proof (size_get _ _ _ Hnode Hconsequent).
  pose proof (size_get _ _ _ Hnode Halternate).
  assert (Hn : getConditionalChainContents n = Ret (lt ++ lc ++ la)%list).
  { unfold getConditionalChainContents in *.
    destruct (size n) as [|fuel] eqn:Esize; [lia|]. cbn [recurse_fuel].
    rewrite Htype. cbn [bind is_str strict_eq String.eqb Ascii.eqb Bool.eqb].
    rewrite Htest. cbn [bind].
    rewrite (recurse_fuel_enough fuel (size test)), Ht by lia. cbn [bind].
    rewrite Hconsequent. cbn [bind]. rewrite recurse_pushes.
    rewrite (recurse_fuel_enough fuel (size consequent)), Hc by lia.
    cbn [bind]. rewrite Halternate. cbn [bind]. rewrite recurse_pushes.
    rewrite (recurse_fuel_enough fuel (size alternate)), Ha by lia.
    cbn [bind]. rewrite app_assoc. reflexivity. }
  split; [exact Hn|].
  pose proof (chain_contents_jsx _ _ Ht) as Hjt.
  pose proof (chain_contents_jsx _ _ Hc) as Hjc.
  pose proof (chain_contents_jsx _ _ Ha) as Hja.
  pose proof (chain_contents_jsx _ _ Hn) as Hjn.
  do 3 eexists. repeat split; try eassumption.
  rewrite Hjn, !existsb_app, orb_assoc. reflexivity.
Qed.

Lemma getConditionalChainContents_flattens_witness :
  getConditionalChainContents ternaryWithMarkup
  = Ret ([identifier 2 "a"] ++ [identifier 3 "b"]
         ++ [identifier 5 "c"; jsxElement 6 []; identifier 8 "e"])%list
  /\ exists bt bc ba,
       conditionalExpressionChainContainsJSX (identifier 2 "a") = Ret bt
       /\ conditionalExpressionChainContainsJSX (identifier 3 "b") = Ret bc
       /\ conditionalExpressionChainContainsJSX
            (conditionalExpression 4 (identifier 5 "c") (jsxElement 6 [])
               (identifier 8 "e")) = Ret ba
       /\ conditionalExpressionChainContainsJSX ternaryWithMarkup
          = Ret (bt || bc || ba).
Proof.
  apply (getConditionalChainContents_flattens ternaryWithMarkup);
    reflexivity.
Defined.

(** ** Function composition *)

Lemma someM_functions (xs : list value) :
  forallb is_node xs = true ->
  someM isFunctionOrArrowExpression xs = Ret (existsb functionArgument xs).
Proof.
  intros H. apply someM_returns. rewrite forallb_forall in H.
  apply Forall_forall. intros x Hx.
  apply isFunctionOrArrowExpression_eq, is_node_not_nullish, H, Hx.
Qed.

Lemma compositionLoop_spec (args : list value) :
  forall count,
    wellFormedArguments args = true -> 0 <= count <= 1 ->
    compositionLoop args count
    = Ret ((1 <? count
                 + Z.of_nat (List.length (List.filter functionArgument args)))
           || existsb callWithFunctionArgument args).
Proof.
  induction args as [|arg args IH]; intros count Hwf Hcount.
  - cbn [compositionLoop List.filter List.length existsb Z.of_nat].
    rewrite Z.add_0_r, orb_false_r.
    replace (1 <? count) with false by (symmetry; apply Z.ltb_ge; lia).
    reflexivity.
  - cbn [wellFormedArguments forallb] in Hwf.
    apply andb_prop in Hwf as [Harg Hwf].
    apply andb_prop in Harg as [Hnode Hcall].
    cbn [compositionLoop List.filter existsb].
    rewrite (isFunctionOrArrowExpression_eq arg)
      by (apply is_node_not_nullish, Hnode).
    cbn [bind]. fold (functionArgument arg).
    unfold callWithFunctionArgument at 1.
    destruct (functionArgument arg) eqn:Efun.
    + assert (Hnotcall :
                kind_in arg ["CallExpression"; "OptionalCallExpression"]
                = false).
      { unfold functionArgument in Efun. kinds.
        apply orb_prop in Efun as [E | E]; apply is_str_true in E;
          rewrite E; reflexivity. }
      rewrite Hnotcall. cbn [andb orb List.length].
      destruct (1 <? count + 1) eqn:Egt.
      * replace (1 <? count + Z.of_nat (S (List.length
                   (List.filter functionArgument args)))) with true
          by (symmetry; apply Z.ltb_lt; apply Z.ltb_lt in Egt; lia).
        reflexivity.
      * apply Z.ltb_ge in Egt. rewrite (IH (count + 1)) by (auto; lia).
        replace (count + 1 + Z.of_nat (List.length
                   (List.filter functionArgument args)))
          with (count + Z.of_nat (S (List.length
                   (List.filter functionArgument args)))) by lia.
        reflexivity.
    + unfold isCallOrOptionalCallExpression.
      rewrite (get_field arg) by (apply is_node_not_nullish, Hnode).
      cbn [bind]. unfold kind_in, kind in Hcall |- *.
      cbn [is_one_of existsb] in Hcall |- *. rewrite orb_false_r in Hcall |- *.
      destruct (is_str (field arg "type") "CallExpression"
                || is_str (field arg "type") "OptionalCallExpression").
      * cbn [negb orb andb] in Hcall |- *.
        apply andb_prop in Hcall as [Harray Hnodes].
        rewrite (get_field arg) by (apply is_node_not_nullish, Hnode).
        cbn [bind].
        destruct (field arg "arguments") as [| | | | |b childArgs|];
          try discriminate Harray.
        cbn [iterate bind elements_of] in *.
        rewrite (someM_functions childArgs Hnodes). cbn [bind].
        destruct (existsb functionArgument childArgs);
          [rewrite orb_true_r; reflexivity|].
        cbn [orb]. apply IH; assumption.
      * cbn [andb orb]. apply IH; assumption.
Qed.

(** X14. On a well-formed list of arguments [isFunctionCompositionArgs]
    returns true iff there are at least two arguments and either two of them
    are function or arrow expressions, or one of them is a call that has a
    function or arrow expression among its own arguments: a single call that
    wraps a function is not composition. *)
Theorem isFunctionCompositionArgs_spec (a : addr) (args : list value) :
  wellFormedArguments args = true ->
  isFunctionCompositionArgs (VArr a args)
  = Ret ((2 <=? List.length args)%nat
         && ((2 <=? List.length (List.filter functionArgument args))%nat
             || existsb callWithFunctionArgument args)).
Proof.
  intros Hwf. unfold isFunctionCompositionArgs. rewrite get_length_arr.
  unfold le. cbn [bind to_number iterate].
  destruct (Nat.leb_spec 2 (List.length args)) as [Hlen | Hlen].
  - replace (Z.of_nat (List.length args) <=? 1) with false
      by (symmetry; apply Z.leb_gt; lia).
    rewrite (compositionLoop_spec args 0 Hwf) by lia. cbn [andb Z.add].
    f_equal. f_equal.
    destruct (Nat.leb_spec 2 (List.length (List.filter functionArgument args)));
      [apply Z.ltb_lt | apply Z.ltb_ge]; lia.
  - replace (Z.of_nat (List.length args) <=? 1) with true
      by (symmetry; apply Z.leb_le; lia).
    reflexivity.
Qed.

Lemma isFunctionCompositionArgs_spec_witness :
  isFunctionCompositionArgs (VArr 1 [mapOfArrow])
  = Ret ((2 <=? 1)%nat
         && ((2 <=? List.length (List.filter functionArgument [mapOfArrow]))%nat
             || existsb callWithFunctionArgument [mapOfArrow])).
Proof.
  apply (isFunctionCompositionArgs_spec 1 [mapOfArrow]). reflexivity.
Defined.

(** ** Curried calls *)

(** X15. A call is a long curried call only if it is the callee of its
    parent call, the parent has at least one argument, and the call has more
    arguments than the parent, hence at least two. *)
Theorem isLongCurriedCallExpression_bounds (path : Path) (a b : addr)
  (args parentArgs : list value) :
  get (getValue path) "arguments" = Ret (VArr a args) ->
  get (getParentNode path) "arguments" = Ret (VArr b parentArgs) ->
  isLongCurriedCallExpression path = Ret true ->
  strict_eq (field (getParentNode path) "callee") (getValue path) = true
  /\ (1 <= List.length parentArgs)%nat
  /\ (List.length parentArgs < List.length args)%nat
  /\ (2 <= List.length args)%nat.
Proof.
  intros Hargs Hparent. unfold isLongCurriedCallExpression.
  rewrite !andM_true. rewrite Hargs, Hparent. cbn [bind].
  rewrite !get_length_arr. cbn [bind].
  rewrite (get_field (getParentNode path))
    by exact (get_Ret_nullish _ _ _ Hparent).
  cbn [bind]. unfold gt_values, gt. cbn [to_number bind].
  intros ((((_ & _) & Hcallee) & Hmore) & Hsome).
  injection Hcallee as Hcallee. injection Hmore as Hmore.
  injection Hsome as Hsome.
  apply Z.ltb_lt in Hmore, Hsome. repeat split; try assumption; lia.
Qed.

Lemma isLongCurriedCallExpression_bounds_witness :
  strict_eq (field (getParentNode curriedPath) "callee") (getValue curriedPath)
  = true
  /\ (1 <= List.length [identifier 8 "c"])%nat
  /\ (List.length [identifier 8 "c"]
      < List.length [identifier 6 "a"; identifier 7 "b"])%nat
  /\ (2 <= List.length [identifier 6 "a"; identifier 7 "b"])%nat.
Proof.
  apply (isLongCurriedCallExpression_bounds curriedPath 4%nat 2%nat);
    reflexivity.
Defined.

(** ** Triggers of tests and of tables *)

Lemma strict_eq_refl (v : value) : strict_eq v v = true.
Proof.
  destruct v; simpl; auto using Bool.eqb_reflx, Z.eqb_refl, String.eqb_refl,
    Nat.eqb_refl.
Qed.

(** X16. The two recognizers of test triggers agree but for one name:
    [unitTestRe] accepts exactly the names [jestEachTriggerRegex] accepts,
    and [skip]. So [skip] opens a test call, but the template of
    [skip.each] is no table: when [isJestEachTemplateLiteral] is true the
    identifier at the root of the tag is a trigger of both. *)
Theorem test_triggers_agree :
  (forall s, unitTestRe s = (s =? "skip")%string || jestEachTriggerRegex s)
  /\ (forall n parentNode s,
         isJestEachTemplateLiteral n parentNode = Ret true ->
         eachTrigger parentNode = VStr s ->
         jestEachTriggerRegex s = true /\ unitTestRe s = true
         /\ (s =? "skip")%string = false)
  /\ (forall n, isJestEachTemplateLiteral n (eachTable "describe" n) = Ret true)
  /\ (forall n, isJestEachTemplateLiteral n (eachTable "skip" n) = Ret false).
Proof.
  assert (Hre : forall s, unitTestRe s
                          = (s =? "skip")%string || jestEachTriggerRegex s).
  { intros s. unfold unitTestRe, jestEachTriggerRegex.
    destruct (s =? "skip")%string; [reflexivity|]. cbn [orb].
    rewrite (orb_comm (s =? "it")%string (s =? "describe")%string).
    destruct s as [|c rest]; [reflexivity|].
    rewrite (orb_comm (rest =? "it")%string (rest =? "describe")%string).
    reflexivity. }
  assert (Hskip : forall s, jestEachTriggerRegex s = true ->
                            (s =? "skip")%string = false).
  { intros s H. destruct (String.eqb_spec s "skip"); [|reflexivity].
    subst s. discriminate H. }
  repeat apply conj.
  - exact Hre.
  - intros n parentNode s H Hs.
    assert (Hjest : jestEachTriggerRegex s = true).
    { revert H Hs. unfold isJestEachTemplateLiteral, eachTrigger.
      destruct (get parentNode "type") as [type|] eqn:Etype; cbn [bind];
        [|discriminate].
      rewrite !andM_true. intros ((_ & _) & Htag). revert Htag.
      rewrite (get_field parentNode)
        by exact (get_Ret_nullish _ _ _ Etype).
      cbn [bind].
      destruct (get (field parentNode "tag") "type") as [ttype|] eqn:Ettype;
        cbn [bind]; [|discriminate].
      rewrite !andM_true. intros ((_ & _) & Hobject). revert Hobject.
      rewrite (get_field (field parentNode "tag"))
        by exact (get_Ret_nullish _ _ _ Ettype).
      cbn [bind]. set (object := field (field parentNode "tag") "object").
      destruct (get object "type") as [otype|] eqn:Eotype; cbn [bind];
        [|discriminate].
      unfold kind_in, kind. rewrite (get_Ret_field _ _ _ Eotype).
      cbn [is_one_of existsb]. rewrite orb_false_r.
      unfold orM at 1, andM at 1. cbn [bind].
      destruct (is_str otype "Identifier") eqn:Eident.
      - rewrite (get_field object) by exact (get_Ret_nullish _ _ _ Eotype).
        cbn [bind]. intros H Hs. rewrite Hs in H.
        cbn [regexp_test to_string bind] in H.
        destruct (jestEachTriggerRegex s); [reflexivity|].
        cbn [bind] in H. revert H. rewrite !andM_true.
        intros [[H _] _]. injection H as H. apply is_str_true in H.
        subst otype. discriminate Eident.
      - cbn [bind]. rewrite !andM_true. intros ((_ & _) & Hroot) Hs.
        revert Hroot.
        rewrite (get_field object) by exact (get_Ret_nullish _ _ _ Eotype).
        cbn [bind].
        destruct (get (field object "object") "type") as [rtype|] eqn:Ertype;
          cbn [bind]; [|discriminate].
        rewrite andM_true.
        rewrite (get_field (field object "object"))
          by exact (get_Ret_nullish _ _ _ Ertype).
        cbn [bind]. rewrite Hs. cbn [regexp_test to_string bind].
        intros [_ H]. injection H as H. exact H. }
    repeat split; [exact Hjest | rewrite Hre, Hjest; apply orb_true_r
                  | apply Hskip, Hjest].
  - intros n. unfold isJestEachTemplateLiteral, eachTable, node.
    cbn [get bind assoc String.eqb Ascii.eqb Bool.eqb].
    rewrite strict_eq_refl. reflexivity.
  - intros n. unfold isJestEachTemplateLiteral, eachTable, node.
    cbn [get bind assoc String.eqb Ascii.eqb Bool.eqb].
    rewrite strict_eq_refl. reflexivity.
Qed.

Lemma test_triggers_agree_witness :
  jestEachTriggerRegex "describe" = true /\ unitTestRe "describe" = true
  /\ ("describe" =? "skip")%string = false.
Proof.
  apply (proj1 (proj2 test_triggers_agree) (templateLiteral 9 [])
           (eachTable "describe" (templateLiteral 9 [])) "describe");
    reflexivity.
Defined.

(** ** Depth of simple call arguments *)

Lemma every_mono (v : value) (f g : value -> outcome bool) :
  (forall x, f x = Ret true -> g x = Ret true) ->
  every v f = Ret true -> every v g = Ret true.
Proof.
  intros H. destruct v; try discriminate. cbn [every].
  rewrite !everyM_true. apply Forall_impl. exact H.
Qed.

Lemma andM_mono (a b a' b' : outcome bool) :
  (a = Ret true -> a' = Ret true) -> (b = Ret true -> b' = Ret true) ->
  a &&& b = Ret true -> a' &&& b' = Ret true.
Proof. rewrite !andM_true. tauto. Qed.

Ltac mono_step :=
  match goal with
  | |- bind ?m _ = Ret true -> bind ?m _ = Ret true =>
      destruct m; cbn [bind]; [|discriminate]
  | |- (if ?b then _ else _) = Ret true -> (if ?b then _ else _) = Ret true =>
      destruct b
  | |- every ?v _ = Ret true -> every ?v _ = Ret true =>
      apply every_mono; intros ?
  | |- _ &&& _ = Ret true -> _ &&& _ = Ret true =>
      apply andM_mono
  | |- ?x = Ret true -> ?x = Ret true => exact (fun H => H)
  end.

Lemma isSimpleCallArgument_body_mono (p1 p2 q1 q2 : value -> outcome bool)
  (n : value) :
  (forall x, p1 x = Ret true -> q1 x = Ret true) ->
  (forall x, p2 x = Ret true -> q2 x = Ret true) ->
  isSimpleCallArgument_body p1 p2 n = Ret true ->
  isSimpleCallArgument_body q1 q2 n = Ret true.
Proof.
  intros H1 H2. unfold isSimpleCallArgument_body.
  repeat first [ mono_step | apply H1 | apply H2 ].
Qed.

(** X17. A node that is a simple call argument at some depth is one at
    every smaller depth: the depth budget only ever takes simplicity away. *)
Theorem isSimpleCallArgument_monotone (n : value) (d d' : Z) :
  d' <= d ->
  isSimpleCallArgument n d = Ret true ->
  isSimpleCallArgument n d' = Ret true.
Proof.
  assert (Hk : (Z.to_nat (3 - d') <= Z.to_nat (3 - d'))%nat) by lia.
  revert Hk. generalize (Z.to_nat (3 - d')) at 2. intros k. revert n d d'.
  induction k as [|k IH]; intros n d d' Ek Hle H.
  - rewrite isSimpleCallArgument_cutoff in H by lia. discriminate H.
  - destruct (Z_lt_le_dec d 3) as [Hd | Hd];
      [|rewrite isSimpleCallArgument_cutoff in H by exact Hd; discriminate H].
    rewrite isSimpleCallArgument_unfold in H |- * by lia.
    revert H. apply isSimpleCallArgument_body_mono; intros x; cbn beta.
    + apply (IH x (d + 1) (d' + 1)); lia.
    + apply (IH x (d + 2) (d' + 2)); lia.
Qed.

Lemma isSimpleCallArgument_monotone_witness :
  isSimpleCallArgument (identifier 1 "x") 0 = Ret true.
Proof.
  apply (isSimpleCallArgument_monotone (identifier 1 "x") 2 0);
    [lia | reflexivity].
Defined.

(** ** More on the blank-line scanner *)

Lemma scanBlankLines_needs_newlines (s : string) :
  forall depth newlineFound,
    scanBlankLines s depth newlineFound = true ->
    ((if newlineFound then 1 else 2) <= countNewlines s)%nat.
Proof.
  unfold countNewlines.
  induction s as [|c s IH]; intros depth newlineFound; cbn [scanBlankLines];
    [discriminate|].
  cbn [list_ascii_of_string List.filter].
  destruct (c =? "{")%char eqn:Eopen.
  { apply Ascii.eqb_eq in Eopen. subst c. intros H. apply IH in H.
    cbn [Ascii.eqb Bool.eqb]. exact H. }
  destruct (c =? "}")%char eqn:Eclose.
  { apply Ascii.eqb_eq in Eclose. subst c. intros H. apply IH in H.
    cbn [Ascii.eqb Bool.eqb]. exact H. }
  destruct (depth =? 1).
  - destruct (c =? newline)%char; cbn [andb List.length].
    + destruct newlineFound; [intros _; lia|].
      intros H. apply IH in H. lia.
    + destruct (negb (c =? " ")%char); intros H; apply IH in H;
        destruct newlineFound; lia.
  - intros H. apply IH in H.
    destruct (c =? newline)%char; cbn [List.length]; lia.
Qed.

Lemma scanBlankLines_needs_brace (s : string) :
  forall depth newlineFound,
    depth <= 0 ->
    scanBlankLines s depth newlineFound = true ->
    hasOpeningBrace s = true.
Proof.
  unfold hasOpeningBrace.
  induction s as [|c s IH]; intros depth newlineFound Hdepth;
    cbn [scanBlankLines]; [discriminate|].
  cbn [list_ascii_of_string existsb].
  destruct (c =? "{")%char; [reflexivity|]. cbn [orb].
  destruct (c =? "}")%char; [apply IH; lia|].
  replace (depth =? 1) with false by (symmetry; apply Z.eqb_neq; lia).
  apply IH. exact Hdepth.
Qed.

(** X18. [hasTopLevelBlankLines] answers true only on a text that has an
    opening brace and at least two newline characters: text without a brace,
    or with a single line break, never has a top-level blank line. *)
Theorem hasTopLevelBlankLines_needs (source : string) :
  hasTopLevelBlankLines source = true ->
  hasOpeningBrace source = true /\ (2 <= countNewlines source)%nat.
Proof.
  unfold hasTopLevelBlankLines. intros H. split.
  - apply (scanBlankLines_needs_brace source 0 false); [lia | exact H].
  - apply (scanBlankLines_needs_newlines source 0 false H).
Qed.

Lemma hasTopLevelBlankLines_needs_witness :
  hasOpeningBrace blockWithBlankLine = true
  /\ (2 <= countNewlines blockWithBlankLine)%nat.
Proof.
  apply (hasTopLevelBlankLines_needs blockWithBlankLine). reflexivity.
Defined.

Lemma substring_skip (pre rest : string) (n : nat) :
  substring (String.length pre) n (pre ++ rest) = substring 0 n rest.
Proof. induction pre as [|c pre IH]; simpl; [reflexivity | exact IH]. Qed.

Lemma substring_prefix (block post : string) :
  substring 0 (String.length block) (block ++ post) = block.
Proof.
  induction block as [|c block IH]; simpl.
  - destruct post; reflexivity.
  - rewrite IH. reflexivity.
Qed.

Lemma length_append (s1 s2 : string) :
  String.length (s1 ++ s2) = (String.length s1 + String.length s2)%nat.
Proof. induction s1 as [|c s1 IH]; simpl; [reflexivity | rewrite IH; reflexivity]. Qed.

(** X19. [hasBlankLinesInBlock] looks at the text of the block only: when
    the positions of the node delimit [block] inside the original text,
    whatever comes before and after it, the answer is that of the scanner on
    [block]. *)
Theorem hasBlankLinesInBlock_of_slice (n : value) (options : Options)
  (pre block post : string) :
  originalText options = pre ++ block ++ post ->
  locStart options n = Z.of_nat (String.length pre) ->
  locEnd options n = Z.of_nat (String.length pre + String.length block) ->
  hasBlankLinesInBlock n options = hasTopLevelBlankLines block.
Proof.
  intros Htext Hstart Hend. unfold hasBlankLinesInBlock, slice.
  rewrite Htext, Hstart, Hend, !length_append.
  replace (Z.of_nat (String.length pre) <? 0) with false
    by (symmetry; apply Z.ltb_ge; lia).
  replace (Z.of_nat (String.length pre + String.length block) <? 0)
    with false by (symmetry; apply Z.ltb_ge; lia).
  rewrite !Z.min_l by lia. rewrite Z.max_l by lia. rewrite Nat2Z.id.
  replace (Z.to_nat (Z.of_nat (String.length pre + String.length block)
                     - Z.of_nat (String.length pre)))
    with (String.length block) by lia.
  rewrite substring_skip, substring_prefix. reflexivity.
Qed.

Lemma hasBlankLinesInBlock_of_slice_witness :
  hasBlankLinesInBlock (blockStatement 1 []) functionText
  = hasTopLevelBlankLines blockWithNestedBlock.
Proof.
  apply (hasBlankLinesInBlock_of_slice (blockStatement 1 []) functionText
           "function f() " blockWithNestedBlock " // end");
    reflexivity.
Defined.

(** ** More on test calls *)

(** X20. [isTestCall] is false on every node that is not a [CallExpression]
    (an optional call included), and on every call with no argument or with
    four or more. *)
Theorem isTestCall_never (n parent : value) :
  (forall type, get n "type" = Ret type ->
                is_str type "CallExpression" = false ->
                isTestCall n parent = Ret false)
  /\ (forall a args,
         get n "type" = Ret (VStr "CallExpression") ->
         get n "arguments" = Ret (VArr a args) ->
         (List.length args = 0 \/ 4 <= List.length args)%nat ->
         isTestCall n parent = Ret false).
Proof.
  unfold isTestCall, isTestCall_body. split.
  - intros type -> Hkind. cbn [bind]. rewrite Hkind. reflexivity.
  - intros a args Htype Hargs Hlen. known_type Htype. rewrite Hargs.
    cbn [bind]. rewrite get_length_arr. cbn [bind strict_eq].
    replace (Z.of_nat (List.length args) =? 1) with false
      by (symmetry; apply Z.eqb_neq; lia).
    replace (Z.of_nat (List.length args) =? 2) with false
      by (symmetry; apply Z.eqb_neq; lia).
    replace (Z.of_nat (List.length args) =? 3) with false
      by (symmetry; apply Z.eqb_neq; lia).
    reflexivity.
Qed.

Lemma isTestCall_never_witness :
  isTestCall (callExpression 1 (identifier 3 "it") []) VUndefined = Ret false.
Proof.
  apply (proj2 (isTestCall_never (callExpression 1 (identifier 3 "it") [])
                  VUndefined) 2%nat []).
  - reflexivity.
  - reflexivity.
  - left. reflexivity.
Defined.

(** X21. Calls with a single argument. A call of [async], [inject] or
    [fakeAsync] is a test call iff it has a parent, the parent is itself a
    test call, and the argument is a function or arrow expression. A call of
    a set-up hook ([beforeEach], [beforeAll], [afterEach], [afterAll]) is a
    test call iff its argument is a call of one of those three wrappers,
    whatever its parent is. *)
Theorem isTestCall_single_argument (n parent : value) (a : addr)
  (arg0 : value) (s : string) :
  get n "type" = Ret (VStr "CallExpression") ->
  get n "arguments" = Ret (VArr a [arg0]) ->
  is_node (field n "callee") = true ->
  kind_in (field n "callee") ["Identifier"] = true ->
  field (field n "callee") "name" = VStr s ->
  wellFormedCallback arg0 = true ->
  (In s ["async"; "inject"; "fakeAsync"] ->
   (truthy parent = false -> isTestCall n parent = Ret false)
   /\ (forall b, truthy parent = true ->
                 isTestCall_of_parent parent = Ret b ->
                 isTestCall n parent = Ret (b && functionArgument arg0)))
  /\ (unitTestSetUpRe s = true ->
      isTestCall n parent = Ret (asyncWrapper arg0)).
Proof.
  intros Htype Hargs Hcallee Hident Hname Hwf.
  pose proof (get_Ret_nullish _ _ _ Htype) as Hn.
  unfold wellFormedCallback in Hwf.
  apply andb_prop in Hwf as [Hwf Hwrapped].
  apply andb_prop in Hwf as [Hwf _].
  apply andb_prop in Hwf as [Harg0 _].
  assert (Hwrapper : isAngularTestWrapper arg0 = Ret (asyncWrapper arg0)).
  { apply isAngularTestWrapper_eq; [exact Harg0|]. intros Hk.
    rewrite Hk in Hwrapped. exact Hwrapped. }
  assert (Hself : isAngularTestWrapper n
                  = Ret (is_one_of (VStr s) ["async"; "inject"; "fakeAsync"])).
  { unfold isAngularTestWrapper. known_type Htype. reads.
    unfold kind_in, kind in Hident. cbn [is_one_of existsb] in Hident.
    rewrite orb_false_r in Hident. rewrite Hident, Hname.
    cbn [is_one_of existsb]. rewrite orb_false_r, orb_assoc. reflexivity. }
  assert (Hsetup : isUnitTestSetUp n = Ret (unitTestSetUpRe s)).
  { unfold isUnitTestSetUp. rewrite Hargs. reads.
    unfold kind_in, kind in Hident. cbn [is_one_of existsb] in Hident.
    rewrite orb_false_r in Hident. rewrite Hident, Hname.
    cbn [regexp_test to_string bind]. unfold andM. cbn [bind].
    destruct (unitTestSetUpRe s); reflexivity. }
  unfold isTestCall, isTestCall_body. known_type Htype. rewrite Hargs.
  cbn [bind]. rewrite get_length_arr.
  cbn [bind List.length Z.of_nat strict_eq Pos.of_succ_nat Z.eqb Pos.eqb
       index nth].
  rewrite Hself, Hsetup, Hwrapper. split.
  - intros Hs.
    assert (His : is_one_of (VStr s) ["async"; "inject"; "fakeAsync"] = true).
    { simpl in Hs.
      repeat (destruct Hs as [<- | Hs]; [reflexivity|]). contradiction. }
    assert (Hnot : unitTestSetUpRe s = false).
    { simpl in Hs.
      repeat (destruct Hs as [<- | Hs]; [reflexivity|]). contradiction. }
    rewrite His, Hnot. unfold andM. cbn [bind]. split.
    + intros ->. reflexivity.
    + intros b -> ->. cbn [bind]. destruct b; [|reflexivity].
      cbn [andb]. apply isFunctionOrArrowExpression_eq, is_node_not_nullish.
      exact Harg0.
  - intros Hre.
    assert (Hnot : is_one_of (VStr s) ["async"; "inject"; "fakeAsync"] = false).
    { unfold unitTestSetUpRe in Hre. cbn [existsb] in Hre.
      rewrite !orb_false_r in Hre.
      repeat (apply orb_prop in Hre as [Hre | Hre]);
        apply String.eqb_eq in Hre; subst s; reflexivity. }
    rewrite Hnot, Hre. unfold andM. cbn [bind]. reflexivity.
Qed.

Lemma isTestCall_single_argument_witness :
  isTestCall asyncOfArrow itWithAsync
  = Ret (true && functionArgument (emptyArrow 23))
  /\ isTestCall beforeEachWithAsync VNull = Ret (asyncWrapper asyncOfArrow).
Proof.
  split.
  - apply (proj2 (proj1 (isTestCall_single_argument asyncOfArrow itWithAsync
                           21%nat (emptyArrow 23) "async"
                           eq_refl eq_refl eq_refl eq_refl eq_refl eq_refl)
                    (or_introl eq_refl)) true);
      reflexivity.
  - apply (proj2 (isTestCall_single_argument beforeEachWithAsync VNull
                    31%nat asyncOfArrow "beforeEach"
                    eq_refl eq_refl eq_refl eq_refl eq_refl eq_refl));
      reflexivity.
Defined.

(** ** Literals across dialects *)

(** X22. The two spellings of a literal agree across the classifiers: a node
    that [isNumericLiteral] or [isStringLiteral] accepts is a literal, and
    every literal is literal-like and has no naked left side. *)
Theorem literals_across_classifiers (n : value) :
  (isNumericLiteral n = Ret true -> isLiteral n = Ret true)
  /\ (isStringLiteral n = Ret true -> isLiteral n = Ret true)
  /\ (isLiteral n = Ret true ->
      isLiteralLikeValue n = Ret true /\ hasNakedLeftSide n = Ret false).
Proof.
  unfold isNumericLiteral, isStringLiteral.
  destruct (get n "type") as [type|] eqn:Etype;
    [|repeat apply conj; intros H; unfold isLiteral in H; rewrite ?Etype in H;
      simpl in H; discriminate H].
  pose proof (get_Ret_nullish _ _ _ Etype) as Hn. cbn [bind].
  rewrite (get_field n "value") by exact Hn. cbn [bind].
  assert (Hlit : forall k, In k literalKinds -> is_str type k = true ->
                           isLiteral n = Ret true).
  { intros k Hk Hstr. unfold isLiteral. rewrite Etype. cbn [bind].
    apply is_str_true in Hstr. subst type. simpl in Hk.
    repeat (destruct Hk as [<- | Hk]; [reflexivity|]). contradiction. }
  repeat apply conj.
  - intros H. injection H as H. apply orb_prop in H as [H | H].
    + apply (Hlit "NumericLiteral"); [simpl; tauto | exact H].
    + apply andb_prop in H as [H _].
      apply (Hlit "Literal"); [simpl; tauto | exact H].
  - intros H. injection H as H. apply orb_prop in H as [H | H].
    + apply (Hlit "StringLiteral"); [simpl; tauto | exact H].
    + apply andb_prop in H as [H _].
      apply (Hlit "Literal"); [simpl; tauto | exact H].
  - intros H. split.
    + rewrite isLiteralLikeValue_unfold. unfold isLiteralLikeValue_body.
      rewrite H. reflexivity.
    + revert H. unfold isLiteral, hasNakedLeftSide. rewrite Etype.
      cbn [bind]. rewrite (get_field n "prefix") by exact Hn. cbn [bind].
      intros H. injection H as H.
      apply (proj1 (existsb_exists (is_str type) literalKinds)) in H.
      destruct H as (k & Hk & Hstr).
      apply is_str_true in Hstr. subst type. simpl in Hk.
      repeat (destruct Hk as [<- | Hk]; [reflexivity|]). contradiction.
Qed.

Lemma literals_across_classifiers_witness :
  isLiteral estreeNumber = Ret true
  /\ isLiteralLikeValue estreeNumber = Ret true
  /\ hasNakedLeftSide estreeNumber = Ret false.
Proof.
  split.
  - apply (proj1 (literals_across_classifiers estreeNumber)). reflexivity.
  - apply (proj2 (proj2 (literals_across_classifiers estreeNumber))).
    reflexivity.
Defined.

(** ** Export declarations *)

(** X23. [getParentExportDeclaration] never raises, not even at the root of
    the tree. It returns [null], or else the parent node, and then the
    focus node is attached as [declaration] and the parent is of one of the
    five export kinds. *)
Theorem getParentExportDeclaration_spec (path : Path) :
  exists r,
    getParentExportDeclaration path = Ret r
    /\ (r = VNull
        \/ (r = getParentNode path
            /\ name_is path "declaration" = true
            /\ kind_in r exportDeclarationTypes = true)).
Proof.
  unfold getParentExportDeclaration, isExportDeclaration, and_value.
  destruct (name_is path "declaration") eqn:Ename; [|eauto].
  destruct (truthy (getParentNode path)) eqn:Eparent.
  - rewrite (get_field (getParentNode path))
      by (apply truthy_not_nullish, Eparent).
    cbn [bind truthy].
    destruct (is_one_of (field (getParentNode path) "type") _) eqn:Ekind;
      [|eauto].
    eexists. split; [reflexivity|]. right. repeat split. exact Ekind.
  - cbn [bind]. rewrite Eparent. eauto.
Qed.

Example getParentExportDeclaration_of_export :
  getParentExportDeclaration exportedDeclarationPath
  = Ret (getParentNode exportedDeclarationPath)
  /\ getParentExportDeclaration [] = Ret VNull.
Proof. split; reflexivity. Qed.

(** ** Witnesses of earlier lemmas *)

Lemma isLiteralLikeValue_returns_witness :
  exists r, isLiteralLikeValue (identifier 1 "x") = Ret r.
Proof.
  apply (isLiteralLikeValue_returns (identifier 1 "x")).
  apply wellFormed_node.
  - intros _. reflexivity.
  - intros H. discriminate H.
  - intros H. discriminate H.
Defined.

Lemma scanBlankLines_complete_witness :
  scanBlankLines blockWithBlankLine 0 false = true.
Proof.
  apply (scanBlankLines_complete blockWithBlankLine 0 false). reflexivity.
Defined.
